(** * A shallow embedding of the voice-interview orchestrator

    The source files that are modelled:

    - the chat route ([POST] of the completion endpoint, with its
      [hasToolCall] / [shouldEnableTools] guard and the
      [experimental_onToolCall] callback), in [Module ChatRoute];
    - the [Agent] React component (call session, utterance segmenter,
      audio capture, speech synthesis), in [Module Agent];
    - the token route and the synthesis route, in [Module TokenRoute] and
      [Module TtsRoute];
    - the server actions [generateInterview] and [createFeedback], in
      [Module Actions] and [Module FeedbackAction].

    JavaScript strings are sequences of UTF-16 code units; [Module JS]
    gives them with [trim] and [split(",")[1]]. *)

From Stdlib Require Import List String Ascii Bool Arith NArith Lia.
Import ListNotations.

Set Implicit Arguments.

(* ================================================================== *)
(** * JavaScript strings                                               *)
(* ================================================================== *)

Module JS.

(** A string is its list of UTF-16 code units. *)
Definition jsstring := list N.

Definition lit (s : string) : jsstring :=
  map N_of_ascii (list_ascii_of_string s).

Definition eqb (a b : jsstring) : bool :=
  if list_eq_dec N.eq_dec a b then true else false.

(** ECMAScript [WhiteSpace] and [LineTerminator] code points: the ones
    [String.prototype.trim] strips. *)
Definition is_white_space (c : N) : bool :=
  existsb (N.eqb c)
    [ 9; 10; 11; 12; 13; 32; 160; 5760;
      8192; 8193; 8194; 8195; 8196; 8197; 8198; 8199; 8200; 8201; 8202;
      8232; 8233; 8239; 8287; 12288; 65279 ]%N.

Arguments is_white_space : simpl never.

Fixpoint trimStart (s : jsstring) : jsstring :=
  match s with
  | c :: s' => if is_white_space c then trimStart s' else s
  | [] => []
  end.

Definition trimEnd (s : jsstring) : jsstring := rev (trimStart (rev s)).

Definition trim (s : jsstring) : jsstring := trimEnd (trimStart s).

Arguments trim : simpl never.

(** [!text]: the empty string is the only falsy string. *)
Definition truthy (s : jsstring) : bool :=
  match s with [] => false | _ => true end.

Definition space : jsstring := [32%N].
Definition comma : N := 44%N.

(** [s.split(",")]: never empty; [",".split(",")] is two empty strings. *)
Fixpoint split_comma (s : jsstring) : list jsstring :=
  match s with
  | [] => [[]]
  | c :: s' =>
      if N.eqb c comma then [] :: split_comma s'
      else match split_comma s' with
           | seg :: segs => (c :: seg) :: segs
           | [] => [[c]]
           end
  end.

(** [Array.prototype.join(" ")]. *)
Fixpoint join_space (l : list jsstring) : jsstring :=
  match l with
  | [] => []
  | [a] => a
  | a :: l' => a ++ space ++ join_space l'
  end.

Definition blank (s : jsstring) : bool := forallb is_white_space s.

End JS.

(* ================================================================== *)
(** * The chat route                                                   *)
(* ================================================================== *)

Module ChatRoute.

Local Open Scope string_scope.
Local Open Scope list_scope.

(** ** Data *)

(** A JavaScript object with string-valued fields; a missing field reads
    as [undefined], here [None]. *)
Definition JSObject := list (string * string).

Fixpoint field (o : JSObject) (k : string) : option string :=
  match o with
  | [] => None
  | (k', v) :: o' => if String.eqb k' k then Some v else field o' k
  end.

(** What [JSON.parse] may return. *)
Inductive JSValue :=
| VNull
| VObject (o : JSObject)
| VPrimitive (s : string).

(** [fn.arguments]: already an object, or something [JSON.parse] is
    applied to. *)
Inductive FnArguments :=
| ArgObject (o : JSObject)
| ArgString (s : string).

Record FunctionCall := { name : string; arguments : FnArguments }.

(** A tool call inside a stored assistant message:
    [tc.function.name]. *)
Record ToolCall := { id : string; function : FunctionCall }.

Record ApiMessage := {
  role : string;
  content : string;
  tool_calls : option (list ToolCall);
  tool_call_id : option string
}.

(** A tool call of the streamed payload; some SDK versions name the
    field [func], others [function]. *)
Record PayloadToolCall := {
  pid : string;
  pfunc : option FunctionCall;
  pfunction : option FunctionCall
}.

Record ToolCallPayload := { ptools : option (list PayloadToolCall) }.

Record ChatCompletionTool := {
  tool_type : string;
  tool_name : string;
  tool_required : list string
}.

Record ChatRequest := {
  req_messages : list ApiMessage;
  req_tools : option (list ChatCompletionTool)
}.

(** What a streaming completion carries. *)
Inductive ModelOutput :=
| TextStream (text : string)
| ToolCallStream (payload : ToolCallPayload)
| ApiError (message : string).

Record GenerateParams := {
  g_role : option string;
  g_level : option string;
  g_techstack : option string;
  g_type : option string;
  g_amount : option string;
  g_userid : string
}.

Record ToolCallResult := {
  r_tool_call_id : string;
  r_function_name : string;
  r_tool_call_result : string
}.

(** The chronological record of the route's calls to its collaborators. *)
Inductive Call :=
| Completion (req : ChatRequest)
| Generate (params : GenerateParams)
| AppendToolCall (r : ToolCallResult).

Definition Log := list Call.

Record RequestBody := {
  messages : list ApiMessage;
  userId : string;
  userName : string;
  type : string;
  questions : option (list string)
}.

(** ** The guard *)

Definition hasToolCall (messages : list ApiMessage) : bool :=
  existsb (fun m =>
    (role m =? "assistant") &&
    match tool_calls m with
    | Some tcs =>
        existsb (fun tc => name (function tc) =? "generate_interview") tcs
    | None => false
    end) messages.

Definition shouldEnableTools (type : string) (messages : list ApiMessage) : bool :=
  (type =? "generate") && negb (hasToolCall messages).

Definition tools : list ChatCompletionTool :=
  [ {| tool_type := "function";
       tool_name := "generate_interview";
       tool_required := ["role"; "level"; "techstack"; "focus"; "amount"] |} ].

Definition offered (enable : bool) : option (list ChatCompletionTool) :=
  if enable then Some tools else None.

(** ** The route, over its collaborators *)

Inductive HandlerResult :=
| HUndefined
| HString (s : string)
| HResponse (newResponse : ModelOutput)
| HThrows.

(** What the stream wrapper delivers to the caller. *)
Inductive StreamResult :=
| Reply (text : string)
| ForwardedToolCall (payload : ToolCallPayload)
| StreamError.

Inductive PostResponse :=
| Streaming (r : StreamResult)
| Status500 (message : string).

Section Route.

(** The wording of the two prompts plays no part below. *)
Variable setupPrompt : string -> string.
Variable interviewPrompt : string -> string -> string.

(** The completion engine.  A request that offers no tool interface is
    answered by a plain text stream or an error: the engine emits a tool
    call only for a tool it was offered. *)
Variable model_plain : list ApiMessage -> option string.
Variable model_with_tools :
  list ChatCompletionTool -> list ApiMessage -> ModelOutput.

(** [JSON.parse]; [None] when it throws. *)
Variable JSON_parse : string -> option JSValue.

(** [generateInterview(...)], observed through [result.success]. *)
Variable generateInterview : GenerateParams -> bool.

(** The SDK callback handed to [experimental_onToolCall]. *)
Variable appendToolCallMessage : ToolCallResult -> list ApiMessage.

Definition newline : string := String (ascii_of_nat 10) EmptyString.

Definition systemPrompt (type userName : string)
    (questions : option (list string)) : string :=
  if type =? "generate" then setupPrompt userName
  else
    let formattedQuestions :=
      match questions with
      | Some qs => String.concat newline qs
      | None => ""
      end in
    interviewPrompt userName formattedQuestions.

Definition system_message (prompt : string) : ApiMessage :=
  {| role := "system"; content := prompt;
     tool_calls := None; tool_call_id := None |}.

(** [openai.chat.completions.create({... stream: true, tools})]. *)
Definition create (req : ChatRequest) (log : Log) : Log * ModelOutput :=
  (log ++ [Completion req],
   match req_tools req with
   | Some ts => model_with_tools ts (req_messages req)
   | None =>
       match model_plain (req_messages req) with
       | Some t => TextStream t
       | None => ApiError "completion failed"
       end
   end).

(** [const { role, level, techstack, focus, amount } = params]:
    destructuring [null] throws, a primitive has no such fields. *)
Definition destructure (userId : string) (params : JSValue)
  : option GenerateParams :=
  let of_object o :=
    {| g_role := field o "role"; g_level := field o "level";
       g_techstack := field o "techstack"; g_type := field o "focus";
       g_amount := field o "amount"; g_userid := userId |} in
  match params with
  | VNull => None
  | VObject o => Some (of_object o)
  | VPrimitive _ => Some (of_object [])
  end.

(** The body of [for (const toolCall of toolCallPayload.tools)]. *)
Fixpoint for_toolCalls (systemPrompt : string) (messages : list ApiMessage)
    (userId : string) (toolCalls : list PayloadToolCall) (log : Log)
  : Log * HandlerResult :=
  match toolCalls with
  | [] => (log, HUndefined)
  | toolCall :: rest =>
      let fn :=
        match pfunc toolCall with
        | Some f => Some f
        | None => pfunction toolCall
        end in
      match fn with
      | None => for_toolCalls systemPrompt messages userId rest log
      | Some fn =>
          if name fn =? "generate_interview" then
            let parsed :=
              match arguments fn with
              | ArgObject o => Some (VObject o)
              | ArgString s => JSON_parse s
              end in
            match parsed with
            | None =>
                (log, HString "Error: Invalid tool arguments generated by AI.")
            | Some params =>
                match destructure userId params with
                | None => (log, HThrows)
                | Some args =>
                    let result_success := generateInterview args in
                    let log := log ++ [Generate args] in
                    let output :=
                      if result_success
                      then "Interview generated successfully."
                      else "Error generating interview." in
                    let appended :=
                      {| r_tool_call_id := pid toolCall;
                         r_function_name := name fn;
                         r_tool_call_result := output |} in
                    let newMessages := appendToolCallMessage appended in
                    let log := log ++ [AppendToolCall appended] in
                    let (log, newResponse) :=
                      create
                        {| req_messages :=
                             system_message systemPrompt
                               :: messages ++ newMessages;
                           req_tools := None |} log in
                    match newResponse with
                    | ApiError _ => (log, HThrows)
                    | _ => (log, HResponse newResponse)
                    end
                end
            end
          else for_toolCalls systemPrompt messages userId rest log
      end
  end.

Definition experimental_onToolCall (systemPrompt : string)
    (messages : list ApiMessage) (userId : string)
    (toolCallPayload : ToolCallPayload) (log : Log)
  : Log * HandlerResult :=
  match ptools toolCallPayload with
  | Some toolCalls =>
      for_toolCalls systemPrompt messages userId toolCalls log
  | None => (log, HUndefined)
  end.

(** [OpenAIStream(response, { experimental_onToolCall })]: text goes
    through; a tool call is given to the callback, whose returned stream
    is processed in the same way, whose returned string is sent as text,
    and whose [undefined] forwards the call to the caller.  [fuel]
    bounds the nesting; [None] is fuel exhausted. *)
Fixpoint OpenAIStream (fuel : nat)
    (onToolCall : ToolCallPayload -> Log -> Log * HandlerResult)
    (response : ModelOutput) (log : Log) : option (Log * StreamResult) :=
  match response with
  | TextStream t => Some (log, Reply t)
  | ApiError _ => Some (log, StreamError)
  | ToolCallStream payload =>
      match fuel with
      | 0 => None
      | S fuel' =>
          let (log, r) := onToolCall payload log in
          match r with
          | HUndefined => Some (log, ForwardedToolCall payload)
          | HString s => Some (log, Reply s)
          | HThrows => Some (log, StreamError)
          | HResponse newResponse =>
              OpenAIStream fuel' onToolCall newResponse log
          end
      end
  end.

Definition POST (fuel : nat) (body : RequestBody)
  : option (Log * PostResponse) :=
  let hasToolCall := hasToolCall (messages body) in
  let shouldEnableTools := (type body =? "generate") && negb hasToolCall in
  let systemPrompt :=
    systemPrompt (type body) (userName body) (questions body) in
  let (log, response) :=
    create
      {| req_messages := system_message systemPrompt :: messages body;
         req_tools := if shouldEnableTools then Some tools else None |}
      [] in
  match response with
  | ApiError e => Some (log, Status500 e)
  | _ =>
      match OpenAIStream fuel
              (experimental_onToolCall systemPrompt (messages body)
                 (userId body))
              response log with
      | Some (log, r) => Some (log, Streaming r)
      | None => None
      end
  end.

(** ** A turn: one request and its answer *)

Definition user_msg (text : string) : ApiMessage :=
  {| role := "user"; content := text;
     tool_calls := None; tool_call_id := None |}.

Definition assistant_msg (text : string) : ApiMessage :=
  {| role := "assistant"; content := text;
     tool_calls := None; tool_call_id := None |}.

(** What a response of [POST] gives its caller to keep: the text of the
    reply.  The Messages that [appendToolCallMessage] returned went into
    the follow-up request only; the response is the text stream, and an
    error or a forwarded call carries no reply. *)
Definition reply_messages (r : PostResponse) : list ApiMessage :=
  match r with
  | Streaming (Reply t) => [assistant_msg t]
  | _ => []
  end.

Record Caller := {
  c_userId : string;
  c_userName : string;
  c_type : string;
  c_questions : option (list string)
}.

(** The request a caller makes with a conversation. *)
Definition request_with (caller : Caller) (messages : list ApiMessage)
  : RequestBody :=
  {| messages := messages; userId := c_userId caller;
     userName := c_userName caller; type := c_type caller;
     questions := c_questions caller |}.

(** One turn: the caller appends its USER Message, sends the
    conversation, and keeps what it sent followed by what the response
    carries. *)
Definition turn (fuel : nat) (caller : Caller)
    (conversation : list ApiMessage) (text : string)
  : option (Log * list ApiMessage) :=
  let sent := conversation ++ [user_msg text] in
  match POST fuel (request_with caller sent) with
  | Some (log, r) => Some (log, sent ++ reply_messages r)
  | None => None
  end.

Definition is_execution (e : Call) : bool :=
  match e with Generate _ => true | _ => false end.

Definition executions (log : Log) : nat :=
  List.length (filter is_execution log).

(** After an execution of the tool, every completion request withholds
    the tool interface. *)
Definition withheld_after_execution (log : Log) : Prop :=
  forall before params after req,
    log = before ++ Generate params :: after ->
    In (Completion req) after -> req_tools req = None.

Definition withheld (log : Log) : Prop :=
  forall req, In (Completion req) log -> req_tools req = None.

End Route.

(** What one run of the callback's loop adds to the log: nothing, or one
    execution followed by the follow-up request without tools. *)
Definition executed_once (extra : Log) (r : HandlerResult) : Prop :=
  exists args appended req,
    extra = [Generate args; AppendToolCall appended; Completion req] /\
    r_function_name appended = "generate_interview" /\
    req_tools req = None /\
    (r = HThrows \/ exists t, r = HResponse (TextStream t)).

Definition executed_nothing (extra : Log) (r : HandlerResult) : Prop :=
  extra = [] /\
  (r = HUndefined \/ r = HThrows \/ exists s, r = HString s).

(** The entry the callback's loop stops at: the first one that has a
    function and names the tool. *)
Fixpoint first_generate_call (toolCalls : list PayloadToolCall)
  : option FunctionCall :=
  match toolCalls with
  | [] => None
  | toolCall :: rest =>
      match (match pfunc toolCall with
             | Some f => Some f
             | None => pfunction toolCall
             end) with
      | Some fn =>
          if name fn =? "generate_interview" then Some fn
          else first_generate_call rest
      | None => first_generate_call rest
      end
  end.

(** A payload whose arguments [JSON.parse] rejects. *)
Definition malformed (JSON_parse : string -> option JSValue)
    (payload : ToolCallPayload) : Prop :=
  exists toolCalls fn s,
    ptools payload = Some toolCalls /\
    first_generate_call toolCalls = Some fn /\
    arguments fn = ArgString s /\
    JSON_parse s = None.

Definition invalid_arguments_text : string :=
  "Error: Invalid tool arguments generated by AI.".

(** ** Fixtures: concrete collaborators *)

(** The callback of the SDK: the assistant Message carrying the call, then
    the TOOL Message carrying the outcome. *)
Definition sdk_appendToolCallMessage (r : ToolCallResult) : list ApiMessage :=
  [ {| role := "assistant"; content := "";
       tool_calls :=
         Some [ {| id := r_tool_call_id r;
                   function := {| name := r_function_name r;
                                  arguments := ArgString "" |} |} ];
       tool_call_id := None |};
    {| role := "tool"; content := r_tool_call_result r;
       tool_calls := None; tool_call_id := Some (r_tool_call_id r) |} ].

Definition interview_args : JSObject :=
  [ ("role", "Frontend Developer"); ("level", "Junior");
    ("techstack", "React"); ("focus", "Technical"); ("amount", "5") ].

Definition call_with (args : FnArguments) : ToolCallPayload :=
  {| ptools :=
       Some [ {| pid := "call_1"; pfunc := None;
                 pfunction := Some {| name := "generate_interview";
                                      arguments := args |} |} ] |}.

(** A model that requests the tool each time it is offered. *)
Definition eager_model (args : FnArguments)
    (_ : list ChatCompletionTool) (_ : list ApiMessage) : ModelOutput :=
  ToolCallStream (call_with args).

Definition plain_model (_ : list ApiMessage) : option string := Some "Done.".

Definition toy_JSON_parse (s : string) : option JSValue :=
  if s =? "null" then Some VNull
  else if s =? "{}" then Some (VObject [])
  else None.

Definition setup_caller : Caller :=
  {| c_userId := "u1"; c_userName := "Ada"; c_type := "generate";
     c_questions := None |}.

Definition toy_prompt (userName : string) : string := userName.
Definition toy_prompt2 (userName questions : string) : string := userName.

(** A history that records a call of the tool, which ended in failure. *)
Definition failed_call_history : list ApiMessage :=
  user_msg "Hello"
    :: sdk_appendToolCallMessage
         {| r_tool_call_id := "call_1";
            r_function_name := "generate_interview";
            r_tool_call_result := "Error generating interview." |}.

End ChatRoute.

(* ================================================================== *)
(** * The Agent component                                              *)
(* ================================================================== *)

Module Agent.

Import JS.
Local Open Scope list_scope.

(** ** Data *)

Inductive CallStatus := INACTIVE | CONNECTING | ACTIVE | FINISHED.

Definition CallStatus_eqb (a b : CallStatus) : bool :=
  match a, b with
  | INACTIVE, INACTIVE | CONNECTING, CONNECTING
  | ACTIVE, ACTIVE | FINISHED, FINISHED => true
  | _, _ => false
  end.

(** [type: "generate" | "interview"]. *)
Inductive AgentType := generate | interview.

Record AgentProps := {
  userName : jsstring;
  userId : jsstring;
  interviewId : option jsstring;
  feedbackId : option jsstring;
  type : AgentType;
  questions : option (list jsstring)
}.

Record Message := { role : string; content : jsstring }.

(** What the functions created during one render see of the component's
    state: [callStatus] and [messages] are constants of that render. *)
Record Render := { r_callStatus : CallStatus; r_messages : list Message }.

Inductive ReadyState := WS_CONNECTING | WS_OPEN | WS_CLOSING | WS_CLOSED.

Record Frame := { audio_data : option jsstring }.

(** A WebSocket, with the render its handlers were created in. *)
Record WebSocket := {
  readyState : ReadyState;
  closure : Render;
  frames : list Frame
}.

Record Audio := { clip : jsstring; playing : bool; has_src : bool }.

Record Recorder := { rec_socket : nat; recording : bool }.

Inductive AlertMessage :=
| ErrorStartingCall
| TtsError (status : nat) (errorText : jsstring)
| TtsException
| AudioPlaybackFailed
| ChatError.

Inductive Route := Home | InterviewFeedback (interviewId : option jsstring).

Inductive Effect :=
| Alert (message : AlertMessage)
| ConsoleError
| RouterPush (path : Route)
| CreateFeedback (transcript : list Message)
| Append (m : Message)
| PlayTTS (text : jsstring)
| TtsFetch (text : jsstring) (voiceId : string).

(** [useState] and [useChat]. *)
Record Hooks := {
  callStatus : CallStatus;
  isSpeaking : bool;
  lastMessage : jsstring;
  messages : list Message;
  isLoading : bool
}.

(** [useRef]: indices into the objects of the world; for the silence
    timer, the time at which its pending callback is due. *)
Record Refs := {
  socketRef : option nat;
  recorderRef : option nat;
  streamRef : option nat;
  silenceTimeoutRef : option nat;
  accumulatedTextRef : jsstring;
  lastSpokenMessageRef : jsstring;
  audioRef : option nat
}.

(** The browser: objects created so far, requests in flight, effects. *)
Record World := {
  now : nat;
  sockets : list WebSocket;
  recorders : list Recorder;
  streams : list bool;
  audios : list Audio;
  tts_inflight : list jsstring;
  token_inflight : list Render;
  mic_inflight : list nat;
  feedback_inflight : nat;
  log : list Effect
}.

Record State := { hooks : Hooks; refs : Refs; world : World }.

Definition initial_hooks : Hooks :=
  {| callStatus := INACTIVE; isSpeaking := false; lastMessage := [];
     messages := []; isLoading := false |}.

Definition initial_refs : Refs :=
  {| socketRef := None; recorderRef := None; streamRef := None;
     silenceTimeoutRef := None; accumulatedTextRef := [];
     lastSpokenMessageRef := []; audioRef := None |}.

Definition initial_world : World :=
  {| now := 0; sockets := []; recorders := []; streams := []; audios := [];
     tts_inflight := []; token_inflight := []; mic_inflight := [];
     feedback_inflight := 0; log := [] |}.

Definition initial : State :=
  {| hooks := initial_hooks; refs := initial_refs; world := initial_world |}.

Definition first_render : Render :=
  {| r_callStatus := INACTIVE; r_messages := [] |}.

(** The render current in a state. *)
Definition render (s : State) : Render :=
  {| r_callStatus := callStatus (hooks s); r_messages := messages (hooks s) |}.

(** ** Updates *)

Definition on_hooks (f : Hooks -> Hooks) (s : State) : State :=
  {| hooks := f (hooks s); refs := refs s; world := world s |}.
Definition on_refs (f : Refs -> Refs) (s : State) : State :=
  {| hooks := hooks s; refs := f (refs s); world := world s |}.
Definition on_world (f : World -> World) (s : State) : State :=
  {| hooks := hooks s; refs := refs s; world := f (world s) |}.

Definition setCallStatus (v : CallStatus) : State -> State :=
  on_hooks (fun h =>
    {| callStatus := v; isSpeaking := isSpeaking h;
       lastMessage := lastMessage h; messages := messages h;
       isLoading := isLoading h |}).
Definition setIsSpeaking (v : bool) : State -> State :=
  on_hooks (fun h =>
    {| callStatus := callStatus h; isSpeaking := v;
       lastMessage := lastMessage h; messages := messages h;
       isLoading := isLoading h |}).
Definition setLastMessage (v : jsstring) : State -> State :=
  on_hooks (fun h =>
    {| callStatus := callStatus h; isSpeaking := isSpeaking h;
       lastMessage := v; messages := messages h;
       isLoading := isLoading h |}).
Definition set_chat (ms : list Message) (loading : bool) : State -> State :=
  on_hooks (fun h =>
    {| callStatus := callStatus h; isSpeaking := isSpeaking h;
       lastMessage := lastMessage h; messages := ms;
       isLoading := loading |}).

Definition set_socketRef (v : option nat) : State -> State :=
  on_refs (fun r =>
    {| socketRef := v; recorderRef := recorderRef r;
       streamRef := streamRef r; silenceTimeoutRef := silenceTimeoutRef r;
       accumulatedTextRef := accumulatedTextRef r;
       lastSpokenMessageRef := lastSpokenMessageRef r;
       audioRef := audioRef r |}).
Definition set_recorderRef (v : option nat) : State -> State :=
  on_refs (fun r =>
    {| socketRef := socketRef r; recorderRef := v;
       streamRef := streamRef r; silenceTimeoutRef := silenceTimeoutRef r;
       accumulatedTextRef := accumulatedTextRef r;
       lastSpokenMessageRef := lastSpokenMessageRef r;
       audioRef := audioRef r |}).
Definition set_streamRef (v : option nat) : State -> State :=
  on_refs (fun r =>
    {| socketRef := socketRef r; recorderRef := recorderRef r;
       streamRef := v; silenceTimeoutRef := silenceTimeoutRef r;
       accumulatedTextRef := accumulatedTextRef r;
       lastSpokenMessageRef := lastSpokenMessageRef r;
       audioRef := audioRef r |}).
Definition set_silenceTimeoutRef (v : option nat) : State -> State :=
  on_refs (fun r =>
    {| socketRef := socketRef r; recorderRef := recorderRef r;
       streamRef := streamRef r; silenceTimeoutRef := v;
       accumulatedTextRef := accumulatedTextRef r;
       lastSpokenMessageRef := lastSpokenMessageRef r;
       audioRef := audioRef r |}).
Definition set_accumulatedTextRef (v : jsstring) : State -> State :=
  on_refs (fun r =>
    {| socketRef := socketRef r; recorderRef := recorderRef r;
       streamRef := streamRef r; silenceTimeoutRef := silenceTimeoutRef r;
       accumulatedTextRef := v;
       lastSpokenMessageRef := lastSpokenMessageRef r;
       audioRef := audioRef r |}).
Definition set_lastSpokenMessageRef (v : jsstring) : State -> State :=
  on_refs (fun r =>
    {| socketRef := socketRef r; recorderRef := recorderRef r;
       streamRef := streamRef r; silenceTimeoutRef := silenceTimeoutRef r;
       accumulatedTextRef := accumulatedTextRef r;
       lastSpokenMessageRef := v;
       audioRef := audioRef r |}).
Definition set_audioRef (v : option nat) : State -> State :=
  on_refs (fun r =>
    {| socketRef := socketRef r; recorderRef := recorderRef r;
       streamRef := streamRef r; silenceTimeoutRef := silenceTimeoutRef r;
       accumulatedTextRef := accumulatedTextRef r;
       lastSpokenMessageRef := lastSpokenMessageRef r;
       audioRef := v |}).

Definition set_now (v : nat) : State -> State :=
  on_world (fun w =>
    {| now := v; sockets := sockets w; recorders := recorders w;
       streams := streams w; audios := audios w;
       tts_inflight := tts_inflight w; token_inflight := token_inflight w;
       mic_inflight := mic_inflight w;
       feedback_inflight := feedback_inflight w; log := log w |}).
Definition set_sockets (v : list WebSocket) : State -> State :=
  on_world (fun w =>
    {| now := now w; sockets := v; recorders := recorders w;
       streams := streams w; audios := audios w;
       tts_inflight := tts_inflight w; token_inflight := token_inflight w;
       mic_inflight := mic_inflight w;
       feedback_inflight := feedback_inflight w; log := log w |}).
Definition set_recorders (v : list Recorder) : State -> State :=
  on_world (fun w =>
    {| now := now w; sockets := sockets w; recorders := v;
       streams := streams w; audios := audios w;
       tts_inflight := tts_inflight w; token_inflight := token_inflight w;
       mic_inflight := mic_inflight w;
       feedback_inflight := feedback_inflight w; log := log w |}).
Definition set_streams (v : list bool) : State -> State :=
  on_world (fun w =>
    {| now := now w; sockets := sockets w; recorders := recorders w;
       streams := v; audios := audios w;
       tts_inflight := tts_inflight w; token_inflight := token_inflight w;
       mic_inflight := mic_inflight w;
       feedback_inflight := feedback_inflight w; log := log w |}).
Definition set_audios (v : list Audio) : State -> State :=
  on_world (fun w =>
    {| now := now w; sockets := sockets w; recorders := recorders w;
       streams := streams w; audios := v;
       tts_inflight := tts_inflight w; token_inflight := token_inflight w;
       mic_inflight := mic_inflight w;
       feedback_inflight := feedback_inflight w; log := log w |}).
Definition set_tts_inflight (v : list jsstring) : State -> State :=
  on_world (fun w =>
    {| now := now w; sockets := sockets w; recorders := recorders w;
       streams := streams w; audios := audios w;
       tts_inflight := v; token_inflight := token_inflight w;
       mic_inflight := mic_inflight w;
       feedback_inflight := feedback_inflight w; log := log w |}).
Definition set_token_inflight (v : list Render) : State -> State :=
  on_world (fun w =>
    {| now := now w; sockets := sockets w; recorders := recorders w;
       streams := streams w; audios := audios w;
       tts_inflight := tts_inflight w; token_inflight := v;
       mic_inflight := mic_inflight w;
       feedback_inflight := feedback_inflight w; log := log w |}).
Definition set_mic_inflight (v : list nat) : State -> State :=
  on_world (fun w =>
    {| now := now w; sockets := sockets w; recorders := recorders w;
       streams := streams w; audios := audios w;
       tts_inflight := tts_inflight w; token_inflight := token_inflight w;
       mic_inflight := v;
       feedback_inflight := feedback_inflight w; log := log w |}).
Definition set_feedback_inflight (v : nat) : State -> State :=
  on_world (fun w =>
    {| now := now w; sockets := sockets w; recorders := recorders w;
       streams := streams w; audios := audios w;
       tts_inflight := tts_inflight w; token_inflight := token_inflight w;
       mic_inflight := mic_inflight w;
       feedback_inflight := v; log := log w |}).
Definition emit (e : Effect) : State -> State :=
  on_world (fun w =>
    {| now := now w; sockets := sockets w; recorders := recorders w;
       streams := streams w; audios := audios w;
       tts_inflight := tts_inflight w; token_inflight := token_inflight w;
       mic_inflight := mic_inflight w;
       feedback_inflight := feedback_inflight w; log := log w ++ [e] |}).

(** Replace the element at an index; out of range nothing changes. *)
Fixpoint update_nth {A} (n : nat) (f : A -> A) (l : list A) : list A :=
  match l, n with
  | [], _ => []
  | a :: l', 0 => f a :: l'
  | a :: l', S n' => a :: update_nth n' f l'
  end.

Fixpoint remove_nth {A} (n : nat) (l : list A) : list A :=
  match l, n with
  | [], _ => []
  | _ :: l', 0 => l'
  | a :: l', S n' => a :: remove_nth n' l'
  end.

Definition string_eqb := String.eqb.

(** ** [useChat] *)

Definition user_message (text : jsstring) : Message :=
  {| role := "user"%string; content := text |}.

Definition assistant_message (text : jsstring) : Message :=
  {| role := "assistant"%string; content := text |}.

(** [append(m)]: the message joins the conversation and a request for
    the assistant's reply starts. *)
Definition append (m : Message) (s : State) : State :=
  emit (Append m) (set_chat (messages (hooks s) ++ [m]) true s).

(** ** Speech synthesis *)

Definition pause (a : nat) (s : State) : State :=
  set_audios
    (update_nth a (fun x => {| clip := clip x; playing := false;
                               has_src := has_src x |})
       (audios (world s))) s.

Definition removeAttribute_src (a : nat) (s : State) : State :=
  set_audios
    (update_nth a (fun x => {| clip := clip x; playing := playing x;
                               has_src := false |})
       (audios (world s))) s.

Definition voiceId (props : AgentProps) : string :=
  match type props with
  | generate => "Danielle"%string
  | interview => "Matthew"%string
  end.

(** [playTTS(text)] up to [await fetch("/api/tts", ...)]. *)
Definition playTTS (props : AgentProps) (text : jsstring) (s : State)
  : State :=
  let s := emit (PlayTTS text) s in
  if negb (truthy text) || eqb (trim text) [] then s
  else
    let s := setIsSpeaking true s in
    let s := match audioRef (refs s) with
             | Some a => pause a s
             | None => s
             end in
    let s := emit (TtsFetch text (voiceId props)) s in
    set_tts_inflight (tts_inflight (world s) ++ [text]) s.

Inductive TtsResponse :=
| TtsOk (play_resolves : bool)
| TtsNotOk (status : nat) (errorText : jsstring)
| TtsRejects.

(** [playTTS] from the point where the [k]-th request in flight
    settles. *)
Definition playTTS_resume (k : nat) (res : TtsResponse) (s : State)
  : State :=
  match nth_error (tts_inflight (world s)) k with
  | None => s
  | Some text =>
      let s := set_tts_inflight (remove_nth k (tts_inflight (world s))) s in
      match res with
      | TtsNotOk status errorText =>
          let s := emit ConsoleError s in
          let s := setIsSpeaking false s in
          emit (Alert (TtsError status errorText)) s
      | TtsRejects =>
          let s := emit ConsoleError s in
          let s := setIsSpeaking false s in
          emit (Alert TtsException) s
      | TtsOk play_resolves =>
          let audio := List.length (audios (world s)) in
          let s := set_audios
                     (audios (world s)
                        ++ [{| clip := text; playing := false;
                               has_src := true |}]) s in
          let s := set_audioRef (Some audio) s in
          if play_resolves then
            set_audios
              (update_nth audio
                 (fun x => {| clip := clip x; playing := true;
                              has_src := has_src x |})
                 (audios (world s))) s
          else
            let s := emit ConsoleError s in
            let s := setIsSpeaking false s in
            emit (Alert TtsException) s
      end
  end.

Definition audio_onended (a : nat) (s : State) : State :=
  setIsSpeaking false s.

Definition audio_onerror (a : nat) (s : State) : State :=
  let s := emit ConsoleError s in
  let s := setIsSpeaking false s in
  emit (Alert AudioPlaybackFailed) s.

(** The effect on [messages, isLoading, playTTS]. *)
Definition tts_effect (props : AgentProps) (s : State) : State :=
  let messages := messages (hooks s) in
  let isLoading := isLoading (hooks s) in
  if 0 <? List.length messages then
    match nth_error messages (List.length messages - 1) with
    | Some last =>
        if string_eqb (role last) "assistant" && truthy (content last) then
          let s := setLastMessage (content last) s in
          if negb isLoading
             && negb (eqb (content last) (lastSpokenMessageRef (refs s)))
          then
            let s := set_lastSpokenMessageRef (content last) s in
            playTTS props (content last) s
          else s
        else s
    | None => s
    end
  else s.

(** ** The call *)

Definition handleCall (r : Render) (s : State) : State :=
  let s := setCallStatus CONNECTING s in
  set_token_inflight (token_inflight (world s) ++ [r]) s.

(** [await response.json()]: the parsed body, or a rejection of the
    fetch or of the parse. *)
Inductive TokenResponse :=
| TokenJson (error : option jsstring) (token : option jsstring)
| TokenRejects.

Definition option_truthy (o : option jsstring) : bool :=
  match o with Some v => truthy v | None => false end.

Definition handleCall_catch (s : State) : State :=
  let s := emit ConsoleError s in
  let s := setCallStatus INACTIVE s in
  emit (Alert ErrorStartingCall) s.

(** [handleCall] from the point where the token request settles. *)
Definition handleCall_resume (k : nat) (res : TokenResponse) (s : State)
  : State :=
  match nth_error (token_inflight (world s)) k with
  | None => s
  | Some r =>
      let s := set_token_inflight
                 (remove_nth k (token_inflight (world s))) s in
      match res with
      | TokenRejects => handleCall_catch s
      | TokenJson error token =>
          if option_truthy error then handleCall_catch s
          else
            let socket := List.length (sockets (world s)) in
            let s := set_sockets
                       (sockets (world s)
                          ++ [{| readyState := WS_CONNECTING; closure := r;
                                 frames := [] |}]) s in
            set_socketRef (Some socket) s
      end
  end.

Definition startRecording (socket : nat) (s : State) : State :=
  set_mic_inflight (mic_inflight (world s) ++ [socket]) s.

(** [startRecording] from the point where [getUserMedia] settles. *)
Definition startRecording_resume (k : nat) (granted : bool) (s : State)
  : State :=
  match nth_error (mic_inflight (world s)) k with
  | None => s
  | Some socket =>
      let s := set_mic_inflight (remove_nth k (mic_inflight (world s))) s in
      if granted then
        let stream := List.length (streams (world s)) in
        let s := set_streams (streams (world s) ++ [true]) s in
        let s := set_streamRef (Some stream) s in
        let recorder := List.length (recorders (world s)) in
        let s := set_recorders
                   (recorders (world s)
                      ++ [{| rec_socket := socket; recording := true |}]) s in
        set_recorderRef (Some recorder) s
      else emit ConsoleError s
  end.

Definition ReadyState_is_open (r : ReadyState) : bool :=
  match r with WS_OPEN => true | _ => false end.

Definition socket_send (socket : nat) (f : Frame) (s : State) : State :=
  set_sockets
    (update_nth socket
       (fun x => {| readyState := readyState x; closure := closure x;
                    frames := frames x ++ [f] |})
       (sockets (world s))) s.

(** [reader.onload] of one slice of a recorder started on [socket]. *)
Definition reader_onload (socket : nat) (result : jsstring) (s : State)
  : State :=
  let base64data := nth_error (split_comma result) 1 in
  match nth_error (sockets (world s)) socket with
  | Some x =>
      if ReadyState_is_open (readyState x)
      then socket_send socket {| audio_data := base64data |} s
      else s
  | None => s
  end.

Definition socket_onopen (socket : nat) (r : Render) (s : State) : State :=
  let s := setCallStatus ACTIVE s in
  let s := startRecording socket s in
  if List.length (r_messages r) =? 0
  then append (user_message (lit "Hello")) s
  else s.

Record TranscriptMessage := { message_type : string; text : jsstring }.

Definition silence : nat := 3000.

(** The callback of the silence timer. *)
Definition silence_timeout (s : State) : State :=
  let fullText := trim (accumulatedTextRef (refs s)) in
  if truthy fullText then
    let s := append (user_message fullText) s in
    set_accumulatedTextRef [] s
  else s.

Definition socket_onmessage (message : TranscriptMessage) (s : State)
  : State :=
  if string_eqb (message_type message) "FinalTranscript" then
    if negb (eqb (trim (text message)) []) then
      let s := set_accumulatedTextRef
                 (accumulatedTextRef (refs s) ++ space ++ text message) s in
      set_silenceTimeoutRef (Some (now (world s) + silence)) s
    else s
  else s.

Definition socket_onerror (s : State) : State := emit ConsoleError s.

(** [messages.filter(m => m.role !== 'system').map(...)]. *)
Definition transcript (messages : list Message) : list Message :=
  filter (fun m => negb (string_eqb (role m) "system")) messages.

Definition handleGenerateFeedback (r : Render) (s : State) : State :=
  let conversation := transcript (r_messages r) in
  let s := emit (CreateFeedback conversation) s in
  set_feedback_inflight (S (feedback_inflight (world s))) s.

(** [handleGenerateFeedback] from the point where [createFeedback]
    settles. *)
Definition handleGenerateFeedback_resume (props : AgentProps)
    (success : bool) (id : option jsstring) (s : State) : State :=
  match feedback_inflight (world s) with
  | 0 => s
  | S n =>
      let s := set_feedback_inflight n s in
      if success && option_truthy id
      then emit (RouterPush (InterviewFeedback (interviewId props))) s
      else emit (RouterPush Home) s
  end.

Definition socket_close (socket : nat) (s : State) : State :=
  set_sockets
    (update_nth socket
       (fun x =>
          {| readyState :=
               match readyState x with
               | WS_CLOSED => WS_CLOSED
               | _ => WS_CLOSING
               end;
             closure := closure x; frames := frames x |})
       (sockets (world s))) s.

Definition stopRecording (recorder : nat) (s : State) : State :=
  set_recorders
    (update_nth recorder
       (fun x => {| rec_socket := rec_socket x; recording := false |})
       (recorders (world s))) s.

Definition stop_tracks (stream : nat) (s : State) : State :=
  set_streams (update_nth stream (fun _ => false) (streams (world s))) s.

Definition is_generate (t : AgentType) : bool :=
  match t with generate => true | interview => false end.

(** The blocks of [handleDisconnect], in the order of the source. *)

(** [if (callStatus === ACTIVE || callStatus === CONNECTING) { ... }]. *)
Definition disconnect_navigation (props : AgentProps) (r : Render)
    (s : State) : State :=
  if CallStatus_eqb (r_callStatus r) ACTIVE
     || CallStatus_eqb (r_callStatus r) CONNECTING
  then
    if negb (is_generate (type props)) && (0 <? List.length (r_messages r))
    then handleGenerateFeedback r s
    else if is_generate (type props)
         then emit (RouterPush Home) s
         else s
  else s.

(** [if (audioRef.current) { pause(); removeAttribute("src") }]. *)
Definition disconnect_audio (s : State) : State :=
  match audioRef (refs s) with
  | Some a => removeAttribute_src a (pause a s)
  | None => s
  end.

(** [if (socketRef.current) { close(); socketRef.current = null }]. *)
Definition disconnect_socket (s : State) : State :=
  match socketRef (refs s) with
  | Some socket => set_socketRef None (socket_close socket s)
  | None => s
  end.

(** [if (recorderRef.current) { stopRecording(...); ... = null }]. *)
Definition disconnect_recorder (s : State) : State :=
  match recorderRef (refs s) with
  | Some recorder => set_recorderRef None (stopRecording recorder s)
  | None => s
  end.

(** [if (streamRef.current) { getTracks().forEach(stop); ... = null }]. *)
Definition disconnect_stream (s : State) : State :=
  match streamRef (refs s) with
  | Some stream => set_streamRef None (stop_tracks stream s)
  | None => s
  end.

Definition handleDisconnect (props : AgentProps) (r : Render) (s : State)
  : State :=
  let s := disconnect_navigation props r s in
  let s := setCallStatus FINISHED s in
  let s := setIsSpeaking false s in
  let s := disconnect_audio s in
  let s := disconnect_socket s in
  let s := disconnect_recorder s in
  disconnect_stream s.

Definition socket_onclose (props : AgentProps) (r : Render) (s : State)
  : State :=
  if CallStatus_eqb (r_callStatus r) ACTIVE
  then handleDisconnect props r s
  else s.

(** ** Events *)

Inductive Event :=
| Elapse (ms : nat)
| ClickCall
| ClickEnd
| Unmount
| TokenSettled (k : nat) (res : TokenResponse)
| SocketOpen (socket : nat)
| SocketMessage (socket : nat) (message : TranscriptMessage)
| SocketError (socket : nat)
| SocketClose (socket : nat)
| MicrophoneSettled (k : nat) (granted : bool)
| SliceEncoded (recorder : nat) (result : jsstring)
| Chat (messages : list Message) (isLoading : bool)
| ChatFailed
| TtsSettled (k : nat) (res : TtsResponse)
| AudioEnded (a : nat)
| AudioError (a : nat)
| FeedbackSettled (success : bool) (id : option jsstring).

Definition set_readyState (socket : nat) (v : ReadyState) (s : State)
  : State :=
  set_sockets
    (update_nth socket
       (fun x => {| readyState := v; closure := closure x;
                    frames := frames x |})
       (sockets (world s))) s.

Definition Message_eqb (a b : Message) : bool :=
  string_eqb (role a) (role b) && eqb (content a) (content b).

Fixpoint messages_eqb (a b : list Message) : bool :=
  match a, b with
  | [], [] => true
  | x :: a', y :: b' => Message_eqb x y && messages_eqb a' b'
  | _, _ => false
  end.

(** The handler an event runs. *)
Definition handle (props : AgentProps) (e : Event) (s : State) : State :=
  match e with
  | Elapse ms =>
      let s := set_now (now (world s) + ms) s in
      match silenceTimeoutRef (refs s) with
      | Some due =>
          if due <=? now (world s)
          then silence_timeout (set_silenceTimeoutRef None s)
          else s
      | None => s
      end
  | ClickCall =>
      if CallStatus_eqb (callStatus (hooks s)) ACTIVE then s
      else handleCall (render s) s
  | ClickEnd =>
      if CallStatus_eqb (callStatus (hooks s)) ACTIVE
      then handleDisconnect props (render s) s
      else s
  | Unmount => handleDisconnect props first_render s
  | TokenSettled k res => handleCall_resume k res s
  | SocketOpen socket =>
      match nth_error (sockets (world s)) socket with
      | Some x =>
          match readyState x with
          | WS_CONNECTING =>
              socket_onopen socket (closure x)
                (set_readyState socket WS_OPEN s)
          | _ => s
          end
      | None => s
      end
  | SocketMessage socket message =>
      match nth_error (sockets (world s)) socket with
      | Some x =>
          match readyState x with
          | WS_OPEN | WS_CLOSING => socket_onmessage message s
          | _ => s
          end
      | None => s
      end
  | SocketError socket =>
      match nth_error (sockets (world s)) socket with
      | Some _ => socket_onerror s
      | None => s
      end
  | SocketClose socket =>
      match nth_error (sockets (world s)) socket with
      | Some x =>
          match readyState x with
          | WS_CLOSED => s
          | _ =>
              socket_onclose props (closure x)
                (set_readyState socket WS_CLOSED s)
          end
      | None => s
      end
  | MicrophoneSettled k granted => startRecording_resume k granted s
  | SliceEncoded recorder result =>
      match nth_error (recorders (world s)) recorder with
      | Some x => reader_onload (rec_socket x) result s
      | None => s
      end
  | Chat ms loading => set_chat ms loading s
  | ChatFailed =>
      let s := set_chat (messages (hooks s)) false s in
      let s := emit ConsoleError s in
      emit (Alert ChatError) s
  | TtsSettled k res => playTTS_resume k res s
  | AudioEnded a =>
      match nth_error (audios (world s)) a with
      | Some x => if playing x then audio_onended a (pause a s) else s
      | None => s
      end
  | AudioError a =>
      match nth_error (audios (world s)) a with
      | Some x => audio_onerror a (pause a s)
      | None => s
      end
  | FeedbackSettled success id =>
      handleGenerateFeedback_resume props success id s
  end.

(** One event: its handler, then the effect on [messages, isLoading] when
    either changed. *)
Definition step (props : AgentProps) (e : Event) (s : State) : State :=
  let s' := handle props e s in
  if messages_eqb (messages (hooks s)) (messages (hooks s'))
     && Bool.eqb (isLoading (hooks s)) (isLoading (hooks s'))
  then s'
  else tts_effect props s'.

Fixpoint run (props : AgentProps) (events : list Event) (s : State)
  : State :=
  match events with
  | [] => s
  | e :: events' => run props events' (step props e s)
  end.

(** ** Observations *)

Definition appended (s : State) : list Message :=
  flat_map (fun e => match e with Append m => [m] | _ => [] end)
           (log (world s)).

Definition spoken (s : State) : list jsstring :=
  flat_map (fun e => match e with PlayTTS t => [t] | _ => [] end)
           (log (world s)).

Definition synthesis_requests (s : State) : list jsstring :=
  flat_map (fun e => match e with TtsFetch t _ => [t] | _ => [] end)
           (log (world s)).

Definition hand_offs (s : State) : list (list Message) :=
  flat_map (fun e => match e with CreateFeedback t => [t] | _ => [] end)
           (log (world s)).

Definition alerts (s : State) : list AlertMessage :=
  flat_map (fun e => match e with Alert a => [a] | _ => [] end)
           (log (world s)).

(** The clips that are playing. *)
Definition audible (s : State) : list jsstring :=
  map clip (filter playing (audios (world s))).

Definition final (text : jsstring) : TranscriptMessage :=
  {| message_type := "FinalTranscript"%string; text := text |}.

(** Final fragments heard on a socket: the first one, then each further
    one after its gap. *)
Definition hear (socket : nat) (first : jsstring)
    (rest : list (nat * jsstring)) : list Event :=
  SocketMessage socket (final first)
    :: flat_map (fun gt => [Elapse (fst gt);
                            SocketMessage socket (final (snd gt))]) rest.

Definition texts (first : jsstring) (rest : list (nat * jsstring))
  : list jsstring :=
  first :: map snd rest.

(** ** States of the segmenter *)

Definition socket_open (socket : nat) (s : State) : Prop :=
  exists x, nth_error (sockets (world s)) socket = Some x /\
            readyState x = WS_OPEN.

(** Nothing pending. *)
Definition quiet (s : State) : Prop :=
  accumulatedTextRef (refs s) = [] /\ silenceTimeoutRef (refs s) = None.

(** Text pending, its timer due one silence window from now. *)
Definition pending (acc : jsstring) (s : State) : Prop :=
  accumulatedTextRef (refs s) = acc /\
  silenceTimeoutRef (refs s) = Some (now (world s) + silence).

(** The state once the pending text was sent as [m] at time [t]. *)
Definition flushed (m : Message) (t : nat) (s : State) : State :=
  set_accumulatedTextRef []
    (append m (set_silenceTimeoutRef None (set_now t s))).

Definition interview_props : AgentProps :=
  {| userName := lit "Ada"; userId := lit "u1";
     interviewId := Some (lit "i1"); feedbackId := None;
     type := interview; questions := Some [lit "Why?"] |}.

Definition setup_props : AgentProps :=
  {| userName := lit "Ada"; userId := lit "u1";
     interviewId := None; feedbackId := None;
     type := generate; questions := None |}.

(** A call brought to ACTIVE: click, token, socket open. *)
Definition connect : list Event :=
  [ ClickCall; TokenSettled 0 (TokenJson None (Some (lit "tok")));
    SocketOpen 0 ].

Definition active_call (props : AgentProps) : State :=
  run props connect initial.

(** The same call once the microphone was granted. *)
Definition recording_call (props : AgentProps) : State :=
  run props (connect ++ [MicrophoneSettled 0 true]) initial.

(** No text twice in a row. *)
Fixpoint no_repeat (l : list jsstring) : Prop :=
  match l with
  | a :: (b :: _) as l' => a <> b /\ no_repeat l'
  | _ => True
  end.

(** What the speech trigger depends on and changes: the calls to
    [playTTS] so far, and the last spoken content. *)
Definition speech (s : State) : list jsstring * jsstring :=
  (spoken s, lastSpokenMessageRef (refs s)).

Definition is_PlayTTS (e : Effect) : bool :=
  match e with PlayTTS _ => true | _ => false end.

(** The last Message of a conversation. *)
Definition last_message (messages : list Message) : option Message :=
  nth_error messages (List.length messages - 1).

(** What the speech trigger maintains: no text twice in a row among the
    calls to [playTTS], the last of which is the last spoken content. *)
Definition speech_invariant (s : State) : Prop :=
  no_repeat (spoken s) /\
  forall l t, spoken s = l ++ [t] -> lastSpokenMessageRef (refs s) = t.

(** Three assistant replies, the first and the third with the same text,
    each observed once its turn is complete. *)
Definition understood : jsstring := lit "Understood.".
Definition next_question : jsstring := lit "Tell me about React.".

Definition three_replies : list Event :=
  [ Chat [assistant_message understood] false;
    Chat [assistant_message understood; user_message (lit "ok");
          assistant_message next_question] false;
    Chat [assistant_message understood; user_message (lit "ok");
          assistant_message next_question; user_message (lit "hooks");
          assistant_message understood] false ].

(** A call ended by the End button one second after a final fragment. *)
Definition ended_with_pending : State :=
  run interview_props
    (connect ++ [SocketMessage 0 (final (lit "one more thing"));
                 Elapse 1000; ClickEnd])
    initial.

(** A call whose channel fails to open: token issued, then the socket's
    error and close events, no open event. *)
Definition open_failure : list Event :=
  [ ClickCall; TokenSettled 0 (TokenJson None (Some (lit "tok")));
    SocketError 0; SocketClose 0 ].

(** A call whose token is refused. *)
Definition token_failure : list Event :=
  [ ClickCall; TokenSettled 0 (TokenJson (Some (lit "Failed")) None) ].

(** The renders captured by the calls in flight and by the sockets. *)
Definition captured (s : State) : list Render :=
  token_inflight (world s) ++ map closure (sockets (world s)).

Definition never_active (l : list Render) : Prop :=
  Forall (fun r => CallStatus_eqb (r_callStatus r) ACTIVE = false) l.

(** The render of the End button after the greeting. *)
Definition end_render : Render :=
  {| r_callStatus := ACTIVE; r_messages := [user_message (lit "Hello")] |}.

(** The condition of the specification for the hand-off, a USER/ASSISTANT
    exchange: a USER Message and an ASSISTANT Message after it.  The code
    tests [messages.length > 0] instead. *)
Fixpoint exchange_occurred (messages : list Message) : bool :=
  match messages with
  | [] => false
  | m :: rest =>
      (string_eqb (role m) "user"
       && existsb (fun a => string_eqb (role a) "assistant") rest)
      || exchange_occurred rest
  end.

(** An interview in which the greeting was answered. *)
Definition answered_call : State :=
  run interview_props
    (connect
       ++ [Chat [user_message (lit "Hello");
                 assistant_message (lit "Welcome.")] false])
    initial.

Definition slice_recorder : Recorder :=
  {| rec_socket := 0; recording := true |}.

Definition slice_socket : WebSocket :=
  {| readyState := WS_OPEN; closure := first_render; frames := [] |}.

(** [reader.result] for a slice: a data URL. *)
Definition slice_result : jsstring := lit "data:audio/wav;base64,UklG".

(** A fragment that may follow another one in the same utterance. *)
Definition continues (gt : nat * jsstring) : Prop :=
  blank (snd gt) = false /\ fst gt < silence.

End Agent.

(* ================================================================== *)
(** * The chat route: further vocabulary                               *)
(* ================================================================== *)

Module ChatRouteMore.

Import ChatRoute.
Local Open Scope string_scope.
Local Open Scope list_scope.

(** [toolCall.func || toolCall.function]. *)
Definition fn_of (toolCall : PayloadToolCall) : option FunctionCall :=
  match pfunc toolCall with
  | Some f => Some f
  | None => pfunction toolCall
  end.

(** The first entry of a payload that has a function named
    [generate_interview]. *)
Fixpoint first_generate_entry (toolCalls : list PayloadToolCall)
  : option PayloadToolCall :=
  match toolCalls with
  | [] => None
  | toolCall :: rest =>
      match fn_of toolCall with
      | Some fn =>
          if name fn =? "generate_interview" then Some toolCall
          else first_generate_entry rest
      | None => first_generate_entry rest
      end
  end.

(** The [output] of the callback. *)
Definition outcome_text (success : bool) : string :=
  if success then "Interview generated successfully."
  else "Error generating interview.".

(** The message appended for an execution, and the follow-up request. *)
Definition appended_for (toolCall : PayloadToolCall) (success : bool)
  : ToolCallResult :=
  {| r_tool_call_id := pid toolCall;
     r_function_name := "generate_interview";
     r_tool_call_result := outcome_text success |}.

Definition followup_request
    (appendToolCallMessage : ToolCallResult -> list ApiMessage)
    (prompt : string) (messages : list ApiMessage) (r : ToolCallResult)
  : ChatRequest :=
  {| req_messages :=
       system_message prompt :: messages ++ appendToolCallMessage r;
     req_tools := None |}.

(** The parameters read from an arguments object. *)
Definition params_of (userId : string) (o : JSObject) : GenerateParams :=
  {| g_role := field o "role"; g_level := field o "level";
     g_techstack := field o "techstack"; g_type := field o "focus";
     g_amount := field o "amount"; g_userid := userId |}.

(** [params] of the callback: the arguments as they are, or parsed. *)
Definition parsed_arguments (JSON_parse : string -> option JSValue)
    (fn : FunctionCall) : option JSValue :=
  match arguments fn with
  | ArgObject o => Some (VObject o)
  | ArgString s => JSON_parse s
  end.

(** The first completion request of [POST]. *)
Definition first_request (prompt : string) (body : RequestBody)
  : ChatRequest :=
  {| req_messages := system_message prompt :: messages body;
     req_tools := offered (shouldEnableTools (type body) (messages body)) |}.

(** Arguments that name a user of their own. *)
Definition forged_args : JSObject :=
  [ ("role", "Backend Developer"); ("focus", "Behavioural");
    ("userid", "someone-else"); ("type", "Technical") ].

Definition interview_caller : Caller :=
  {| c_userId := "u1"; c_userName := "Ada"; c_type := "interview";
     c_questions := Some ["Why React?"; "Why hooks?"] |}.

Definition interview_body (messages : list ApiMessage) : RequestBody :=
  {| messages := messages; userId := "u1"; userName := "Ada";
     type := "interview"; questions := Some ["Why React?"; "Why hooks?"] |}.

Definition setup_body (messages : list ApiMessage) : RequestBody :=
  {| messages := messages; userId := "u1"; userName := "Ada";
     type := "generate"; questions := None |}.

(** Two calls in one payload: another tool first, then the tool twice. *)
Definition crowded_payload : list PayloadToolCall :=
  [ {| pid := "call_0"; pfunc := None; pfunction := None |};
    {| pid := "call_1"; pfunc := None;
       pfunction := Some {| name := "lookup"; arguments := ArgString "{}" |} |};
    {| pid := "call_2";
       pfunc := Some {| name := "generate_interview";
                        arguments := ArgObject interview_args |};
       pfunction := None |};
    {| pid := "call_3"; pfunc := None;
       pfunction := Some {| name := "generate_interview";
                            arguments := ArgObject [] |} |} ].

(** The third entry of [crowded_payload] and its function. *)
Definition crowded_fn : FunctionCall :=
  {| name := "generate_interview"; arguments := ArgObject interview_args |}.

Definition crowded_entry : PayloadToolCall :=
  {| pid := "call_2"; pfunc := Some crowded_fn; pfunction := None |}.

(** An entry whose arguments are the text [null]. *)
Definition null_fn : FunctionCall :=
  {| name := "generate_interview"; arguments := ArgString "null" |}.

Definition null_entry : PayloadToolCall :=
  {| pid := "call_1"; pfunc := None; pfunction := Some null_fn |}.

(** A SETUP request answered by a tool call with [forged_args]. *)
Definition forged_entry : PayloadToolCall :=
  {| pid := "call_1"; pfunc := None;
     pfunction := Some {| name := "generate_interview";
                          arguments := ArgObject forged_args |} |}.

Definition forged_log : Log :=
  [ Completion (first_request "Ada" (setup_body [user_msg "Hello"]));
    Generate (params_of "u1" forged_args);
    AppendToolCall (appended_for forged_entry true);
    Completion (followup_request sdk_appendToolCallMessage "Ada"
                  [user_msg "Hello"] (appended_for forged_entry true)) ].

End ChatRouteMore.

(* ================================================================== *)
(** * The Agent component: further vocabulary                          *)
(* ================================================================== *)

Module AgentMore.

Import JS Agent.
Local Open Scope list_scope.

(** A socket on which [close()] was called, or that is closed. *)
Definition closing (x : WebSocket) : Prop :=
  readyState x = WS_CLOSING \/ readyState x = WS_CLOSED.

(** [s'] holds none of the resources that [s] held. *)
Definition released (s s' : State) : Prop :=
  callStatus (hooks s') = FINISHED /\
  isSpeaking (hooks s') = false /\
  socketRef (refs s') = None /\
  recorderRef (refs s') = None /\
  streamRef (refs s') = None /\
  (forall i x,
     socketRef (refs s) = Some i ->
     nth_error (sockets (world s)) i = Some x ->
     exists x', nth_error (sockets (world s')) i = Some x' /\
                closing x' /\ frames x' = frames x) /\
  (forall k x,
     recorderRef (refs s) = Some k ->
     nth_error (recorders (world s)) k = Some x ->
     nth_error (recorders (world s')) k
     = Some {| rec_socket := rec_socket x; recording := false |}) /\
  (forall k live,
     streamRef (refs s) = Some k ->
     nth_error (streams (world s)) k = Some live ->
     nth_error (streams (world s')) k = Some false) /\
  (forall a x,
     audioRef (refs s) = Some a ->
     nth_error (audios (world s)) a = Some x ->
     nth_error (audios (world s')) a
     = Some {| clip := clip x; playing := false; has_src := false |}).

(** The render sees no call in progress. *)
Definition not_live (r : Render) : Prop :=
  r_callStatus r = INACTIVE \/ r_callStatus r = FINISHED.

(** The part of [handleDisconnect] after its first block. *)
Definition cleanup (s : State) : State :=
  disconnect_stream
    (disconnect_recorder
       (disconnect_socket
          (disconnect_audio
             (setIsSpeaking false (setCallStatus FINISHED s))))).

(** The alert a failed synthesis or playback ends in. *)
Definition failure_alert (res : TtsResponse) : option AlertMessage :=
  match res with
  | TtsNotOk status errorText => Some (TtsError status errorText)
  | TtsRejects => Some TtsException
  | TtsOk false => Some TtsException
  | TtsOk true => None
  end.

(** The frame sent for a slice: [{ audio_data: result.split(",")[1] }]. *)
Definition frame_of (result : jsstring) : Frame :=
  {| audio_data := nth_error (split_comma result) 1 |}.

Definition has_comma (s : jsstring) : bool := existsb (N.eqb comma) s.

(** The greeting sent when a call opens on an empty conversation. *)
Definition greeting (r : Render) : list Message :=
  match r_messages r with
  | [] => [user_message (lit "Hello")]
  | _ :: _ => []
  end.

(** A call whose token was issued: the socket is connecting. *)
Definition connecting_call (props : AgentProps) : State :=
  run props [ClickCall; TokenSettled 0 (TokenJson None (Some (lit "tok")))]
    initial.

Definition connecting_socket : WebSocket :=
  {| readyState := WS_CONNECTING; closure := first_render; frames := [] |}.

(** Three slices of a recording. *)
Definition three_slices : list jsstring :=
  [ lit "data:audio/wav;base64,AAAA"; lit "data:audio/wav;base64,BBBB";
    lit "data:audio/wav;base64,CCCC" ].

(** A partial transcript. *)
Definition partial (text : jsstring) : TranscriptMessage :=
  {| message_type := "PartialTranscript"%string; text := text |}.

(** A call with one synthesis request in flight. *)
Definition speaking_call (props : AgentProps) : State :=
  playTTS props understood (active_call props).

(** A call that was ended while the microphone request was in flight. *)
Definition ended_before_grant : State :=
  run interview_props (connect ++ [ClickEnd]) initial.

End AgentMore.

(* ================================================================== *)
(** * The token route                                                  *)
(* ================================================================== *)

Module TokenRoute.

Import JS.
Local Open Scope list_scope.

(** [NextResponse.json(body, { status })] with the two bodies the route
    builds: [{ token }] and [{ error }]. *)
Record JsonResponse := {
  status : nat;
  error : option jsstring;
  token : option jsstring
}.

Definition missing_key : JsonResponse :=
  {| status := 500; error := Some (lit "Missing AssemblyAI API Key");
     token := None |}.

Definition failed : JsonResponse :=
  {| status := 500; error := Some (lit "Failed to generate token");
     token := None |}.

Section Route.

(** [process.env.ASSEMBLYAI_API_KEY]. *)
Variable ASSEMBLYAI_API_KEY : option jsstring.

(** [client.realtime.createTemporaryToken({ expires_in })] of a client
    built with the key; [None] when it throws. *)
Variable createTemporaryToken : jsstring -> nat -> option jsstring.

Definition GET : JsonResponse :=
  match ASSEMBLYAI_API_KEY with
  | Some apiKey =>
      if truthy apiKey then
        match createTemporaryToken apiKey 3600 with
        | Some token => {| status := 200; error := None; token := Some token |}
        | None => failed
        end
      else missing_key
  | None => missing_key
  end.

End Route.

(** What [handleCall] reads: [await response.json()]. *)
Definition fetched (r : JsonResponse) : Agent.TokenResponse :=
  Agent.TokenJson (error r) (token r).

(** Fixtures. *)
Definition issuing_sdk (apiKey : jsstring) (expires_in : nat)
  : option jsstring := Some (lit "tok").

Definition failing_sdk (apiKey : jsstring) (expires_in : nat)
  : option jsstring := None.

(** A call whose token request is in flight. *)
Definition awaiting_token : Agent.State :=
  Agent.run Agent.interview_props [Agent.ClickCall] Agent.initial.

End TokenRoute.

(* ================================================================== *)
(** * The speech synthesis route                                       *)
(* ================================================================== *)

Module TtsRoute.

Import JS.
Local Open Scope string_scope.
Local Open Scope list_scope.

(** The body of the request: [text] is [None] when it is undefined or
    null. *)
Record TtsRequestBody := {
  req_text : option jsstring;
  req_voiceId : option string
}.

Record SynthesizeSpeechCommand := {
  Engine : string;
  OutputFormat : string;
  Text : jsstring;
  VoiceId : string
}.

(** [await client.send(command)], with the conversion of the stream. *)
Inductive PollyResult :=
| PollyThrows (message code : option string)
| PollyResponse (AudioStream : option (list N)).

Inductive Body :=
| AudioBody (bytes : list N) (content_type : string) (content_length : nat)
| ErrorBody (error : string)
| PollyErrorBody (error details code : string).

Record Response := { tts_status : nat; tts_body : Body }.

Definition string_truthy (o : option string) : bool :=
  match o with
  | Some EmptyString | None => false
  | Some _ => true
  end.

Definition or_default (o : option string) (default : string) : string :=
  match o with
  | Some EmptyString | None => default
  | Some v => v
  end.

(** The [catch] block. *)
Definition polly_failed (message code : option string) : Response :=
  {| tts_status := 500;
     tts_body := PollyErrorBody "Failed to generate audio with AWS Polly"
               (or_default message "Unknown error")
               (or_default code "UNKNOWN") |}.

Definition missing_credentials : Response :=
  {| tts_status := 500;
     tts_body := ErrorBody "Missing AWS Credentials in environment variables. Check NEXT_PUBLIC_AWS_ACCESS_KEY_ID and NEXT_PUBLIC_AWS_SECREAT_KEY in .env.local" |}.

Definition text_required : Response :=
  {| tts_status := 400; tts_body := ErrorBody "Text is required for TTS" |}.

(** [await request.json()], the destructuring of its result and the
    logging of [text?.substring(0, 100)]: it throws when the body cannot be
    read or destructured, and when [text] is neither a string nor undefined
    or null (it has no [substring]). *)
Inductive ParsedRequest :=
| RequestJson (b : TtsRequestBody)
| RequestThrows (message : option string).

(** [!text || typeof text !== "string" || text.trim().length === 0]. *)
Definition invalid_text (t : option jsstring) : bool :=
  match t with
  | Some s => negb (truthy s) || Nat.eqb (List.length (trim s)) 0
  | None => true
  end.

Section Route.

Variable AWS_ACCESS_KEY_ID : option string.
Variable AWS_SECRET_ACCESS_KEY : option string.
Variable send : SynthesizeSpeechCommand -> PollyResult.

(** The commands sent to the synthesis service, and the response. *)
Definition tts_POST (request : ParsedRequest)
  : list SynthesizeSpeechCommand * Response :=
  if negb (string_truthy AWS_ACCESS_KEY_ID)
     || negb (string_truthy AWS_SECRET_ACCESS_KEY)
  then ([], missing_credentials)
  else
    match request with
    | RequestThrows message => ([], polly_failed message None)
    | RequestJson b =>
        match req_text b with
        | None => ([], text_required)
        | Some t =>
            if invalid_text (Some t) then ([], text_required)
            else
              let command :=
                {| Engine := "neural"; OutputFormat := "mp3"; Text := t;
                   VoiceId := or_default (req_voiceId b) "Danielle" |} in
              match send command with
              | PollyThrows message code =>
                  ([command], polly_failed message code)
              | PollyResponse None =>
                  ([command],
                   polly_failed
                     (Some "No audio stream returned from AWS Polly") None)
              | PollyResponse (Some bytes) =>
                  ([command],
                   {| tts_status := 200;
                      tts_body := AudioBody bytes "audio/mpeg"
                                (List.length bytes) |})
              end
        end
    end.

End Route.

(** [res.ok]. *)
Definition ok (r : Response) : bool :=
  Nat.leb 200 (tts_status r) && Nat.leb (tts_status r) 299.

(** The request [playTTS] makes for a text. *)
Definition request_of (props : Agent.AgentProps) (t : jsstring)
  : ParsedRequest :=
  RequestJson {| req_text := Some t;
                 req_voiceId := Some (Agent.voiceId props) |}.

(** What [playTTS] sees of a response; [res.text()] is left to
    [body_text], [audio.play()] to [play_resolves]. *)
Definition tts_settled (body_text : Body -> jsstring) (play_resolves : bool)
    (r : Response) : Agent.TtsResponse :=
  if ok r then Agent.TtsOk play_resolves
  else Agent.TtsNotOk (tts_status r) (body_text (tts_body r)).

(** Fixtures. *)
Definition silent_polly (_ : SynthesizeSpeechCommand) : PollyResult :=
  PollyResponse None.

Definition singing_polly (_ : SynthesizeSpeechCommand) : PollyResult :=
  PollyResponse (Some [73; 68; 51]%N).

Definition throttled_polly (_ : SynthesizeSpeechCommand) : PollyResult :=
  PollyThrows (Some "Rate exceeded") (Some "ThrottlingException").

Definition no_text (_ : Body) : jsstring := [].

End TtsRoute.

(* ================================================================== *)
(** * The server actions                                               *)
(* ================================================================== *)

Module Actions.

Local Open Scope string_scope.
Local Open Scope list_scope.

(** ** [generateInterview] *)

Record Interview := {
  i_role : option string;
  i_type : option string;
  i_level : option string;
  i_techstack : list string;
  i_questions : list string;
  i_userId : string;
  i_finalized : bool;
  i_coverImage : string;
  i_createdAt : string
}.

Record GenerateResult := { gi_success : bool; gi_id : option string }.

Inductive InterviewEffect :=
| InterviewCompletion (prompt : string)
| AddInterview (i : Interview).

(** [s.split(",")]. *)
Fixpoint string_split_comma (s : string) : list string :=
  match s with
  | EmptyString => [EmptyString]
  | String c s' =>
      if Ascii.eqb c ","%char then EmptyString :: string_split_comma s'
      else match string_split_comma s' with
           | seg :: segs => String c seg :: segs
           | [] => [String c EmptyString]
           end
  end.

(** [content || "{}"]. *)
Definition interview_text (content : option string) : string :=
  match content with
  | Some EmptyString | None => "{}"
  | Some t => t
  end.

Definition interview_failure : GenerateResult :=
  {| gi_success := false; gi_id := None |}.

Section GenerateInterview.

(** The text of the request to the model. *)
Variable prompt : ChatRoute.GenerateParams -> string.

(** [openaiDirect.chat.completions.create(...)], read through
    [response.choices[0].message.content]: [None] when the call or the
    reading throws, [Some None] for a null content. *)
Variable complete : string -> option (option string).

(** [JSON.parse(text)] read through [parsed.questions]: [None] when the
    parse or the reading throws, [Some None] when there is no array
    [questions]. *)
Variable parse_questions : string -> option (option (list string)).

Variable getRandomInterviewCover : string.
Variable now : string.

(** [db.collection("interviews").add(interview)]: the id of the document,
    [None] when it throws. *)
Variable add : Interview -> option string.

Definition generateInterview (params : ChatRoute.GenerateParams)
  : list InterviewEffect * GenerateResult :=
  let log := [InterviewCompletion (prompt params)] in
  match complete (prompt params) with
  | None => (log, interview_failure)
  | Some content =>
      let text := interview_text content in
      match parse_questions text with
      | None | Some None => (log, interview_failure)
      | Some (Some parsedQuestions) =>
          match ChatRoute.g_techstack params with
          | None => (log, interview_failure)
          | Some techstack =>
              let interview :=
                {| i_role := ChatRoute.g_role params;
                   i_type := ChatRoute.g_type params;
                   i_level := ChatRoute.g_level params;
                   i_techstack := string_split_comma techstack;
                   i_questions := parsedQuestions;
                   i_userId := ChatRoute.g_userid params;
                   i_finalized := true;
                   i_coverImage := getRandomInterviewCover;
                   i_createdAt := now |} in
              match add interview with
              | Some docId =>
                  (log ++ [AddInterview interview],
                   {| gi_success := true; gi_id := Some docId |})
              | None => (log ++ [AddInterview interview], interview_failure)
              end
          end
      end
  end.

(** The collaborator of the chat route. *)
Definition generated (params : ChatRoute.GenerateParams) : bool :=
  gi_success (snd (generateInterview params)).

End GenerateInterview.

(** Fixtures. *)
Definition toy_parse (text : string) : option (option (list string)) :=
  if text =? "{}" then Some None
  else if text =? "questions" then Some (Some ["Why React?"; "Why hooks?"])
  else None.

Definition toy_interview_model (prompt : string) : option (option string) :=
  Some (Some "questions").

Definition toy_add (i : Interview) : option string := Some "doc-1".

Definition toy_request (params : ChatRoute.GenerateParams) : string :=
  "Prepare questions".

Definition full_params : ChatRoute.GenerateParams :=
  ChatRouteMore.params_of "u1" ChatRoute.interview_args.

Definition stack_params : ChatRoute.GenerateParams :=
  ChatRouteMore.params_of "u1"
    [("role", "Frontend Developer"); ("techstack", "React,Node.js, Go")].

End Actions.

Module FeedbackAction.

Import JS Agent.
Local Open Scope list_scope.

(** ** [createFeedback] *)

Record CreateFeedbackParams := {
  p_interviewId : option jsstring;
  p_userId : jsstring;
  p_transcript : list Message;
  p_feedbackId : option jsstring
}.

Record FeedbackResult := { fb_success : bool; fb_id : option jsstring }.

Definition feedback_failure : FeedbackResult :=
  {| fb_success := false; fb_id := None |}.

(** [transcript.map(s => `- ${s.role}: ${s.content}\n`).join("")]. *)
Definition formattedTranscript (transcript : list Message) : jsstring :=
  flat_map (fun sentence =>
              lit "- " ++ lit (role sentence) ++ lit ": "
                ++ content sentence ++ [10%N])
           transcript.

(** [content || "{}"]. *)
Definition feedback_text (content : option jsstring) : jsstring :=
  match content with
  | Some [] | None => lit "{}"
  | Some t => t
  end.

Section CreateFeedback.

(** What is read of the parsed object: [totalScore], [categoryScores],
    [strengths], [areasForImprovement], [finalAssessment]. *)
Variable Scores : Type.

Record Feedback := {
  f_interviewId : option jsstring;
  f_userId : jsstring;
  f_scores : Scores;
  f_createdAt : jsstring
}.

Inductive FeedbackEffect :=
| FeedbackCompletion (prompt : jsstring)
| SetFeedback (doc : jsstring) (feedback : Feedback).

(** The text of the request around the formatted transcript. *)
Variable prompt : jsstring -> jsstring.
Variable complete : jsstring -> option (option jsstring).

(** [JSON.parse(text)] read through the five fields: [None] when the parse
    or the reading throws. *)
Variable parse_scores : jsstring -> option Scores.
Variable now : jsstring.

(** [db.collection("feedback").doc().id]. *)
Variable fresh_id : jsstring.

(** [feedbackRef.set(feedback)]; [false] when it throws. *)
Variable set : jsstring -> Feedback -> bool.

Definition feedbackRef (feedbackId : option jsstring) : jsstring :=
  match feedbackId with
  | Some i => if truthy i then i else fresh_id
  | None => fresh_id
  end.

Definition createFeedback (params : CreateFeedbackParams)
  : list FeedbackEffect * FeedbackResult :=
  let request := prompt (formattedTranscript (p_transcript params)) in
  let log := [FeedbackCompletion request] in
  match complete request with
  | None => (log, feedback_failure)
  | Some content =>
      match parse_scores (feedback_text content) with
      | None => (log, feedback_failure)
      | Some object =>
          let feedback :=
            {| f_interviewId := p_interviewId params;
               f_userId := p_userId params;
               f_scores := object;
               f_createdAt := now |} in
          let ref := feedbackRef (p_feedbackId params) in
          if set ref feedback
          then (log ++ [SetFeedback ref feedback],
                {| fb_success := true; fb_id := Some ref |})
          else (log ++ [SetFeedback ref feedback], feedback_failure)
      end
  end.

End CreateFeedback.

(** The call [handleGenerateFeedback] makes. *)
Definition feedback_params (props : AgentProps) (r : Render) : CreateFeedbackParams :=
  {| p_interviewId := interviewId props;
     p_userId := userId props;
     p_transcript := transcript (r_messages r);
     p_feedbackId := Agent.feedbackId props |}.

(** The event the Agent sees when [createFeedback] settles. *)
Definition feedback_settled (res : FeedbackResult) : Event :=
  FeedbackSettled (fb_success res) (fb_id res).

(** Where the router was sent. *)
Definition pushes (s : State) : list Route :=
  flat_map (fun e => match e with RouterPush p => [p] | _ => [] end)
           (log (world s)).

(** Fixtures. *)
Definition toy_scores (text : jsstring) : option nat :=
  if eqb text (lit "{}") then Some 0 else Some 80.

Definition toy_feedback_model (request : jsstring) : option (option jsstring) :=
  Some (Some (lit "scores")).

Definition toy_set (doc : jsstring) (f : Feedback nat) : bool := true.

Definition retake_params : CreateFeedbackParams :=
  {| p_interviewId := Some (lit "i1"); p_userId := lit "u1";
     p_transcript := [user_message (lit "Hello")];
     p_feedbackId := Some (lit "f7") |}.

(** A state with one hand-off in flight. *)
Definition handing_off : State :=
  run interview_props (connect ++ [ClickEnd]) initial.

End FeedbackAction.

(* ================================================================== *)
(** * Facts about JavaScript strings                                   *)
(* ================================================================== *)

Module JSFacts.
Import JS.

Lemma eqb_eq a b : eqb a b = true <-> a = b.
Proof.
  unfold eqb. destruct (list_eq_dec N.eq_dec a b); split; congruence.
Qed.

Lemma eqb_refl a : eqb a a = true.
Proof. now apply eqb_eq. Qed.

Lemma eqb_neq a b : eqb a b = false <-> a <> b.
Proof.
  unfold eqb. destruct (list_eq_dec N.eq_dec a b); split; congruence.
Qed.

Lemma blank_app a b : blank (a ++ b) = blank a && blank b.
Proof. apply forallb_app. Qed.

Lemma blank_rev a : blank (rev a) = blank a.
Proof.
  induction a as [| c a IH]; [reflexivity |].
  cbn [rev]. rewrite blank_app, IH. cbn. now rewrite andb_true_r, andb_comm.
Qed.

Lemma trimStart_nil s : trimStart s = [] <-> blank s = true.
Proof.
  induction s as [| c s IH]; cbn; [tauto |].
  destruct (is_white_space c); cbn; [exact IH |].
  split; discriminate.
Qed.

Lemma blank_trimStart s : blank (trimStart s) = blank s.
Proof.
  induction s as [| c s IH]; cbn; [reflexivity |].
  destruct (is_white_space c) eqn:Hc; cbn; [exact IH |].
  now rewrite Hc.
Qed.

(** [trim] leaves nothing exactly of the blank strings. *)
Lemma trim_nil s : trim s = [] <-> blank s = true.
Proof.
  unfold trim, trimEnd. split.
  - intros H. apply (f_equal (@rev N)) in H. rewrite rev_involutive in H.
    cbn in H. apply trimStart_nil in H.
    now rewrite blank_rev, blank_trimStart in H.
  - intros H. apply trimStart_nil in H. now rewrite H.
Qed.

Lemma trim_nonblank s : blank s = false -> eqb (trim s) [] = false.
Proof.
  intros H. apply eqb_neq. intros Hnil. apply trim_nil in Hnil. congruence.
Qed.

Lemma trim_nonblank_truthy s : blank s = false -> truthy (trim s) = true.
Proof.
  intros H. destruct (trim s) eqn:Ht; [| reflexivity].
  apply trim_nil in Ht. congruence.
Qed.

Lemma trim_blank s : blank s = true -> eqb (trim s) [] = true.
Proof. intros H. apply eqb_eq. now apply trim_nil. Qed.

Lemma trim_space s : trim (space ++ s) = trim s.
Proof. reflexivity. Qed.

(** What the segmenter accumulates, against [join(" ")]. *)
Lemma accumulated_join first rest :
  flat_map (fun t => space ++ t) (first :: rest)
  = space ++ join_space (first :: rest).
Proof.
  revert first. induction rest as [| t rest IH]; intros first.
  - cbn. now rewrite app_nil_r.
  - change (flat_map (fun t => space ++ t) (first :: t :: rest))
      with (space ++ first ++ flat_map (fun t => space ++ t) (t :: rest)).
    rewrite IH. reflexivity.
Qed.

End JSFacts.

(* ================================================================== *)
(** * Facts about the chat route                                       *)
(* ================================================================== *)

Module ChatRouteFacts.
Import ChatRoute.
Local Open Scope string_scope.
Local Open Scope list_scope.




Lemma executions_app a b : executions (a ++ b) = executions a + executions b.
Proof. unfold executions. now rewrite filter_app, length_app. Qed.

Lemma executions_none log p : executions log = 0 -> ~ In (Generate p) log.
Proof.
  unfold executions. intros H Hin.
  assert (Hf : In (Generate p) (filter is_execution log))
    by (apply filter_In; split; [assumption | reflexivity]).
  destruct (filter is_execution log); [inversion Hf | discriminate].
Qed.

Lemma withheld_app a b : withheld a -> withheld b -> withheld (a ++ b).
Proof.
  intros Ha Hb req Hin. apply in_app_or in Hin as [Hin | Hin]; auto.
Qed.

Lemma wae_cons e log :
  is_execution e = false ->
  withheld_after_execution log -> withheld_after_execution (e :: log).
Proof.
  intros He H before params after req Heq Hin.
  destruct before as [| b before']; simpl in Heq; inversion Heq; subst.
  - discriminate.
  - eapply H; eauto.
Qed.

Lemma wae_generate p log :
  withheld log -> withheld_after_execution (Generate p :: log).
Proof.
  intros H before params after req Heq Hin.
  destruct before as [| b before']; simpl in Heq; inversion Heq; subst.
  - now apply H.
  - apply H. apply in_or_app. right. now right.
Qed.

Lemma withheld_wae log : withheld log -> withheld_after_execution log.
Proof.
  intros H before params after req -> Hin.
  apply H. apply in_or_app. right. now right.
Qed.

Section Route.

Variable setupPrompt : string -> string.
Variable interviewPrompt : string -> string -> string.
Variable model_plain : list ApiMessage -> option string.
Variable model_with_tools :
  list ChatCompletionTool -> list ApiMessage -> ModelOutput.
Variable JSON_parse : string -> option JSValue.
Variable generateInterview : GenerateParams -> bool.
Variable appendToolCallMessage : ToolCallResult -> list ApiMessage.

Local Abbreviation loop :=
  (for_toolCalls model_plain model_with_tools JSON_parse
                generateInterview appendToolCallMessage).
Local Abbreviation post :=
  (POST setupPrompt interviewPrompt model_plain model_with_tools
                JSON_parse generateInterview appendToolCallMessage).
Local Abbreviation run_turn :=
  (turn setupPrompt interviewPrompt model_plain
                    model_with_tools JSON_parse generateInterview
                    appendToolCallMessage).

Lemma for_toolCalls_shape prompt messages userId toolCalls log :
  exists extra r,
    loop prompt messages userId toolCalls log = (log ++ extra, r) /\
    (executed_nothing extra r \/ executed_once extra r).
Proof.
  induction toolCalls as [| toolCall rest IH]; simpl.
  - exists [], HUndefined. rewrite app_nil_r. split; [reflexivity |].
    left. split; auto.
  - destruct (match pfunc toolCall with
              | Some f => Some f
              | None => pfunction toolCall
              end) as [fn |]; [| exact IH].
    destruct (name fn =? "generate_interview") eqn:Hname; [| exact IH].
    apply String.eqb_eq in Hname.
    destruct (match arguments fn with
              | ArgObject o => Some (VObject o)
              | ArgString s => JSON_parse s
              end) as [params |].
    + destruct (destructure userId params) as [args |].
      * unfold create. simpl.
        destruct (model_plain _) as [t |];
          repeat rewrite <- app_assoc; simpl;
          do 2 eexists; (split; [reflexivity |]); right;
          do 3 eexists; (split; [reflexivity | split; [exact Hname | split; [reflexivity |]]]).
        -- right. now exists t.
        -- now left.
      * exists [], HThrows. rewrite app_nil_r. split; [reflexivity |].
        left. split; auto.
    + eexists [], _. rewrite app_nil_r. split; [reflexivity |].
      left. split; eauto.
Qed.

Lemma OpenAIStream_text fuel onToolCall t log :
  OpenAIStream fuel onToolCall (TextStream t) log = Some (log, Reply t).
Proof. destruct fuel; reflexivity. Qed.

Lemma onToolCall_shape prompt messages userId payload log :
  exists extra r,
    experimental_onToolCall model_plain model_with_tools JSON_parse
      generateInterview appendToolCallMessage prompt messages userId
      payload log = (log ++ extra, r) /\
    (executed_nothing extra r \/ executed_once extra r).
Proof.
  unfold experimental_onToolCall.
  destruct (ptools payload) as [toolCalls |].
  - apply for_toolCalls_shape.
  - exists [], HUndefined. rewrite app_nil_r. split; [reflexivity |].
    left. split; auto.
Qed.

(** One request: the first completion offers the tool exactly when the
    guard allows it; the tool is then executed at most once, and only
    if it was offered. *)
Lemma POST_shape fuel body :
  1 <= fuel ->
  exists first extra resp,
    post fuel body = Some (Completion first :: extra, resp) /\
    req_tools first =
      offered (shouldEnableTools (type body) (messages body)) /\
    (extra = [] \/
     (shouldEnableTools (type body) (messages body) = true /\
      exists r, executed_once extra r)).
Proof.
  intros Hfuel. destruct fuel as [| fuel']; [lia |].
  unfold POST, create, shouldEnableTools, offered.
  cbn [app req_tools req_messages].
  destruct ((type body =? "generate") && negb (hasToolCall (messages body)))
    eqn:Henable.
  - destruct (model_with_tools _ _) as [t | payload | e].
    + do 3 eexists. split; [reflexivity |]. split; [reflexivity | now left].
    + cbn [OpenAIStream].
      destruct (onToolCall_shape
                  (systemPrompt setupPrompt interviewPrompt (type body)
                     (userName body) (questions body))
                  (messages body) (userId body) payload
                  [Completion
                     {| req_messages :=
                          system_message
                            (systemPrompt setupPrompt interviewPrompt
                               (type body) (userName body) (questions body))
                            :: messages body;
                        req_tools := Some tools |}])
        as (extra & r & Heq & Hcase).
      rewrite Heq.
      destruct Hcase as [[-> Hr] | Hex].
      * destruct Hr as [-> | [-> | [s ->]]];
          do 3 eexists; (split; [reflexivity |]);
          (split; [reflexivity | now left]).
      * pose proof Hex as (args & appended & req & -> & _ & _ & Hr).
        destruct Hr as [-> | [t ->]];
          try rewrite OpenAIStream_text; cbn [app];
          do 3 eexists; (split; [reflexivity |]);
          (split; [reflexivity | right; split; [reflexivity |]]);
          eexists; exact Hex.
    + do 3 eexists. split; [reflexivity |]. split; [reflexivity | now left].
  - destruct (model_plain _) as [t |];
      do 3 eexists; (split; [reflexivity |]);
      (split; [reflexivity | now left]).
Qed.


Lemma offered_none ty conversation :
  hasToolCall conversation = true ->
  offered (shouldEnableTools ty conversation) = None.
Proof.
  intros H. unfold shouldEnableTools. rewrite H.
  now rewrite andb_false_r.
Qed.

Lemma shouldEnableTools_true ty conversation :
  shouldEnableTools ty conversation = true ->
  hasToolCall conversation = false.
Proof.
  unfold shouldEnableTools. intros H.
  apply andb_prop in H as [_ H]. now apply negb_true_iff in H.
Qed.



(** X27.  One request executes the tool at most once, whatever the model
    emits; after the execution every completion request of that request,
    that is the follow-up, withholds the tool interface; and when the
    Messages of the request already hold an assistant Message recording a
    call to the tool, nothing is executed and the tool interface is
    withheld from the completion engine. *)
Theorem POST_executes_at_most_once fuel body :
  1 <= fuel ->
  exists log resp,
    POST setupPrompt interviewPrompt model_plain model_with_tools
      JSON_parse generateInterview appendToolCallMessage fuel body
    = Some (log, resp) /\
    executions log <= 1 /\
    withheld_after_execution log /\
    (hasToolCall (messages body) = true ->
     executions log = 0 /\ withheld log).
Proof.
  intros Hfuel.
  destruct (POST_shape body Hfuel)
    as (first & extra & resp & Heq & Htools & Hcase).
  rewrite Heq. do 2 eexists. split; [reflexivity |].
  destruct Hcase as [-> | (Hen & r & Hex)].
  - split; [cbn; lia |]. split.
    + apply wae_cons; [reflexivity |].
      intros before params after req H. destruct before; discriminate.
    + intros Hhas. split; [reflexivity |].
      intros req [H | []]. inversion H; subst req. rewrite Htools.
      now apply offered_none.
  - destruct Hex as (args & appended & req & -> & _ & Hnone & _).
    split; [cbn; lia |]. split.
    + apply wae_cons; [reflexivity |]. apply wae_generate.
      intros q [Hq | [Hq | []]]; inversion Hq; now subst.
    + intros Hhas. apply shouldEnableTools_true in Hen. congruence.
Qed.





End Route.

(** C1.  Two turns of one SETUP session, with a model that requests the
    tool each time it is offered: the conversation the caller keeps after
    the first turn, its USER Message and the reply, records no call, the
    second request offers the tool again, and the tool is executed in both
    turns.  The same happens for two requests sent before either is
    answered. *)
Theorem tool_executed_twice_in_session :
  (exists log1 conversation1 log2 conversation2,
     turn toy_prompt toy_prompt2 plain_model
       (eager_model (ArgObject interview_args)) toy_JSON_parse
       (fun _ => true) sdk_appendToolCallMessage
       1 setup_caller [] "Hello" = Some (log1, conversation1) /\
     turn toy_prompt toy_prompt2 plain_model
       (eager_model (ArgObject interview_args)) toy_JSON_parse
       (fun _ => true) sdk_appendToolCallMessage
       1 setup_caller conversation1 "again" = Some (log2, conversation2) /\
     conversation1 = [user_msg "Hello"; assistant_msg "Done."] /\
     hasToolCall conversation1 = false /\
     executions log1 = 1 /\
     executions log2 = 1 /\
     executions (log1 ++ log2) = 2) /\
  (exists log1 resp1 log2 resp2,
     POST toy_prompt toy_prompt2 plain_model
       (eager_model (ArgObject interview_args)) toy_JSON_parse
       (fun _ => true) sdk_appendToolCallMessage
       1 (request_with setup_caller [user_msg "Hello"])
     = Some (log1, resp1) /\
     POST toy_prompt toy_prompt2 plain_model
       (eager_model (ArgObject interview_args)) toy_JSON_parse
       (fun _ => true) sdk_appendToolCallMessage
       1 (request_with setup_caller [user_msg "Hello"; user_msg "again"])
     = Some (log2, resp2) /\
     executions (log1 ++ log2) = 2).
Proof.
  split.
  - do 4 eexists. repeat split; reflexivity.
  - do 4 eexists. repeat split; reflexivity.
Qed.

Lemma POST_executes_at_most_once_witness :
  1 <= 1 /\
  exists log resp,
    POST toy_prompt toy_prompt2 plain_model
      (eager_model (ArgObject interview_args)) toy_JSON_parse
      (fun _ => true) sdk_appendToolCallMessage
      1 (request_with setup_caller failed_call_history)
    = Some (log, resp) /\
    executions log <= 1 /\
    withheld_after_execution log /\
    (hasToolCall (messages (request_with setup_caller failed_call_history))
     = true ->
     executions log = 0 /\ withheld log).
Proof.
  split; [lia |].
  apply (@POST_executes_at_most_once toy_prompt toy_prompt2 plain_model
           (eager_model (ArgObject interview_args)) toy_JSON_parse
           (fun _ => true) sdk_appendToolCallMessage
           1 (request_with setup_caller failed_call_history)).
  lia.
Defined.

(** The guard at work: a request whose Messages record a call of the tool,
    whatever its outcome, is answered without the tool. *)
Example recorded_call_withholds_tool :
  hasToolCall failed_call_history = true /\
  POST toy_prompt toy_prompt2 plain_model
    (eager_model (ArgObject interview_args)) toy_JSON_parse
    (fun _ => true) sdk_appendToolCallMessage
    1 (request_with setup_caller failed_call_history)
  = Some ([Completion
             {| req_messages := system_message "Ada" :: failed_call_history;
                req_tools := None |}],
          Streaming (Reply "Done.")).
Proof. split; reflexivity. Qed.


(** The payload of that witness is malformed, and the turn replies with
    the error text. *)
Example malformed_turn_keeps_tool :
  malformed toy_JSON_parse (call_with (ArgString "{role: ")) /\
  turn toy_prompt toy_prompt2 plain_model
    (eager_model (ArgString "{role: ")) toy_JSON_parse
    (fun _ => true) sdk_appendToolCallMessage
    1 setup_caller [] "Hello"
  = Some ([Completion
             {| req_messages :=
                  [system_message "Ada"; user_msg "Hello"];
                req_tools := Some tools |}],
          [user_msg "Hello";
           assistant_msg invalid_arguments_text]) /\
  shouldEnableTools "generate"
    [user_msg "Hello"; assistant_msg invalid_arguments_text;
     user_msg "again"] = true.
Proof.
  split; [| split; reflexivity].
  do 3 eexists. repeat split; reflexivity.
Qed.

(** A turn in which the tool was executed and returned failure: the
    failure is told to the engine in the follow-up request, the caller
    keeps the reply, and the tool is offered again on the next turn. *)
Example failed_execution_keeps_tool :
  exists log conversation',
    turn toy_prompt toy_prompt2 plain_model
      (eager_model (ArgObject interview_args)) toy_JSON_parse
      (fun _ => false) sdk_appendToolCallMessage
      1 setup_caller [] "Hello" = Some (log, conversation') /\
    executions log = 1 /\
    In (AppendToolCall
          {| r_tool_call_id := "call_1";
             r_function_name := "generate_interview";
             r_tool_call_result := "Error generating interview." |}) log /\
    conversation' = [user_msg "Hello"; assistant_msg "Done."] /\
    shouldEnableTools "generate" (conversation' ++ [user_msg "again"]) = true.
Proof.
  do 2 eexists. split; [reflexivity |]. split; [reflexivity |].
  split; [cbn; auto |]. split; reflexivity.
Qed.

End ChatRouteFacts.

(* ================================================================== *)
(** * Facts about the Agent component                                  *)
(* ================================================================== *)

Module AgentFacts.
Import JS Agent.
Local Open Scope list_scope.

(** Unfold the updates of the state and reduce the projections. *)
Ltac updates :=
  lazy beta iota zeta delta
    [append pause removeAttribute_src socket_close stopRecording
     stop_tracks socket_send set_readyState handleGenerateFeedback
     startRecording setCallStatus setIsSpeaking setLastMessage set_chat
     set_socketRef set_recorderRef set_streamRef set_silenceTimeoutRef
     set_accumulatedTextRef set_lastSpokenMessageRef set_audioRef set_now
     set_sockets set_recorders set_streams set_audios set_tts_inflight
     set_token_inflight set_mic_inflight set_feedback_inflight emit
     on_hooks on_refs on_world
     hooks refs world callStatus isSpeaking lastMessage messages isLoading
     socketRef recorderRef streamRef silenceTimeoutRef accumulatedTextRef
     lastSpokenMessageRef audioRef now sockets recorders streams audios
     tts_inflight token_inflight mic_inflight feedback_inflight log] in *.

Example connect_active :
  callStatus (hooks (run interview_props connect initial)) = ACTIVE /\
  appended (run interview_props connect initial)
    = [user_message (lit "Hello")].
Proof. split; reflexivity. Qed.

(** ** The effect runs only on a change of [messages] or [isLoading] *)

Lemma Message_eqb_refl m : Message_eqb m m = true.
Proof.
  unfold Message_eqb, string_eqb.
  now rewrite String.eqb_refl, JSFacts.eqb_refl.
Qed.

Lemma messages_eqb_refl l : messages_eqb l l = true.
Proof.
  induction l as [| m l IH]; cbn; [reflexivity |].
  now rewrite Message_eqb_refl.
Qed.

Lemma messages_eqb_snoc l m : messages_eqb l (l ++ [m]) = false.
Proof.
  induction l as [| x l IH]; cbn; [reflexivity |].
  now rewrite IH, andb_false_r.
Qed.

Lemma step_same_chat props e s :
  messages (hooks (handle props e s)) = messages (hooks s) ->
  isLoading (hooks (handle props e s)) = isLoading (hooks s) ->
  step props e s = handle props e s.
Proof.
  intros Hm Hl. unfold step. rewrite Hm, Hl, messages_eqb_refl.
  now rewrite Bool.eqb_reflx.
Qed.

Lemma nth_error_last {A} (l : list A) (m : A) :
  nth_error (l ++ [m]) (List.length (l ++ [m]) - 1) = Some m.
Proof.
  rewrite length_app. cbn [List.length].
  replace (List.length l + 1 - 1) with (List.length l) by lia.
  rewrite nth_error_app2 by lia. now rewrite Nat.sub_diag.
Qed.

(** A USER Message at the end of the conversation triggers nothing. *)
Lemma tts_effect_user props s l text :
  messages (hooks s) = l ++ [user_message text] ->
  tts_effect props s = s.
Proof.
  intros H. unfold tts_effect. rewrite H, nth_error_last.
  rewrite length_app. cbn [List.length].
  destruct (0 <? List.length l + 1); reflexivity.
Qed.

(** ** The utterance segmenter *)

Lemma step_fragment props socket t s :
  socket_open socket s ->
  blank t = false ->
  step props (SocketMessage socket (final t)) s
  = set_silenceTimeoutRef (Some (now (world s) + silence))
      (set_accumulatedTextRef (accumulatedTextRef (refs s) ++ space ++ t) s).
Proof.
  intros (x & Hx & Hopen) Ht.
  assert (Hh : handle props (SocketMessage socket (final t)) s
               = set_silenceTimeoutRef (Some (now (world s) + silence))
                   (set_accumulatedTextRef
                      (accumulatedTextRef (refs s) ++ space ++ t) s)).
  { cbn [handle]. rewrite Hx, Hopen. unfold socket_onmessage.
    cbn [message_type text final]. cbn [string_eqb].
    rewrite (JSFacts.trim_nonblank _ Ht). reflexivity. }
  rewrite step_same_chat; rewrite Hh; reflexivity.
Qed.

Lemma step_blank_fragment props socket t s :
  blank t = true ->
  step props (SocketMessage socket (final t)) s = s.
Proof.
  intros Ht.
  assert (Hh : handle props (SocketMessage socket (final t)) s = s).
  { cbn [handle]. unfold socket_onmessage. cbn [message_type text final].
    rewrite (JSFacts.trim_blank _ Ht).
    destruct (nth_error _ _) as [x |]; [| reflexivity].
    destruct (readyState x); reflexivity. }
  rewrite step_same_chat; rewrite Hh; reflexivity.
Qed.

Lemma step_wait props acc gap s :
  pending acc s ->
  gap < silence ->
  step props (Elapse gap) s = set_now (now (world s) + gap) s.
Proof.
  intros [_ Htimer] Hgap.
  assert (Hh : handle props (Elapse gap) s = set_now (now (world s) + gap) s).
  { cbn [handle]. cbn. rewrite Htimer.
    destruct (Nat.leb_spec (now (world s) + silence) (now (world s) + gap));
      [lia | reflexivity]. }
  rewrite step_same_chat; rewrite Hh; reflexivity.
Qed.

Lemma step_flush props acc d s :
  pending acc s ->
  blank acc = false ->
  silence <= d ->
  step props (Elapse d) s
  = flushed (user_message (trim acc)) (now (world s) + d) s.
Proof.
  intros [Hacc Htimer] Hblank Hd.
  assert (Hh : handle props (Elapse d) s
               = flushed (user_message (trim acc)) (now (world s) + d) s).
  { cbn [handle]. cbn. rewrite Htimer.
    destruct (Nat.leb_spec (now (world s) + silence) (now (world s) + d));
      [| lia].
    unfold silence_timeout. cbn. rewrite Hacc.
    rewrite (JSFacts.trim_nonblank_truthy _ Hblank). reflexivity. }
  unfold step. rewrite Hh. cbn.
  rewrite messages_eqb_snoc. cbn.
  now apply tts_effect_user with (l := messages (hooks s)) (text := trim acc).
Qed.

Lemma run_app props a b s :
  run props (a ++ b) s = run props b (run props a s).
Proof. revert s. induction a as [| e a IH]; intros s; cbn; auto. Qed.

Lemma appended_log s s' extra :
  log (world s') = log (world s) ++ extra ->
  appended s' =
  appended s ++ flat_map (fun e => match e with Append m => [m] | _ => [] end)
                  extra.
Proof. intros H. unfold appended. now rewrite H, flat_map_app. Qed.

(** Further fragments, each within the silence window of the previous
    one, only accumulate. *)
Lemma hear_rest props socket rest :
  forall s acc,
    socket_open socket s ->
    pending acc s ->
    Forall continues rest ->
    let s' :=
      run props
        (flat_map (fun gt => [Elapse (fst gt);
                              SocketMessage socket (final (snd gt))]) rest)
        s in
    socket_open socket s' /\
    pending (acc ++ flat_map (fun t => space ++ t) (map snd rest)) s' /\
    log (world s') = log (world s) /\
    hooks s' = hooks s.
Proof.
  induction rest as [| [gap t] rest IH]; intros s acc Hopen Hpend Hall;
    cbv zeta.
  - cbn. rewrite app_nil_r. auto.
  - inversion Hall as [| ? ? [Ht Hgap] Hrest]; subst. cbn [fst snd] in *.
    cbn [flat_map app run fst snd].
    rewrite (step_wait props Hpend Hgap).
    set (s1 := set_now (now (world s) + gap) s).
    assert (Hopen1 : socket_open socket s1) by exact Hopen.
    rewrite (step_fragment props t Hopen1 Ht).
    set (s2 := set_silenceTimeoutRef _ _).
    assert (Hopen2 : socket_open socket s2) by exact Hopen.
    assert (Hpend2 : pending (acc ++ space ++ t) s2).
    { destruct Hpend as [Hacc _]. split; cbn; [now rewrite Hacc | reflexivity]. }
    destruct (IH s2 _ Hopen2 Hpend2 Hrest) as (Ho & Hp & Hl & Hh).
    split; [exact Ho |]. split; [| split; [exact Hl | exact Hh]].
    cbn [map snd flat_map]. now rewrite <- !app_assoc in *.
Qed.

Lemma blank_accumulated acc first :
  blank first = false -> blank (acc ++ space ++ first) = false.
Proof.
  intros H. rewrite !JSFacts.blank_app, H.
  now rewrite !andb_false_r.
Qed.

(** One utterance: fragments less than a silence window apart, then
    silence.  The segmenter appends one USER Message and is quiet
    again. *)
Lemma utterance_flushed props socket first rest d s :
  socket_open socket s ->
  quiet s ->
  blank first = false ->
  Forall continues rest ->
  silence <= d ->
  let s' := run props (hear socket first rest ++ [Elapse d]) s in
  socket_open socket s' /\
  quiet s' /\
  appended s' =
    appended s ++ [user_message (trim (join_space (texts first rest)))].
Proof.
  intros Hopen [Hacc Htimer] Hfirst Hall Hd. cbv zeta.
  unfold hear. cbn [app run].
  rewrite (step_fragment props first Hopen Hfirst). rewrite Hacc. cbn [app].
  set (s1 := set_silenceTimeoutRef _ _).
  assert (Hopen1 : socket_open socket s1) by exact Hopen.
  assert (Hpend1 : pending (space ++ first) s1) by (split; reflexivity).
  rewrite run_app.
  destruct (hear_rest props Hopen1 Hpend1 Hall) as (Ho & Hp & Hl & Hh).
  set (s2 := run props (flat_map _ rest) s1) in *.
  cbn [run].
  assert (Hblank : blank ((space ++ first)
                            ++ flat_map (fun t => space ++ t) (map snd rest))
                   = false).
  { rewrite JSFacts.blank_app.
    pose proof (blank_accumulated [] first Hfirst) as Hb. cbn [app] in Hb.
    now rewrite Hb. }
  rewrite (step_flush props Hp Hblank Hd).
  assert (Htext : trim ((space ++ first)
                          ++ flat_map (fun t => space ++ t) (map snd rest))
                  = trim (join_space (texts first rest))).
  { unfold texts. rewrite <- app_assoc.
    change (space ++ first
              ++ flat_map (fun t => space ++ t) (map snd rest))
      with (flat_map (fun t => space ++ t) (first :: map snd rest)).
    rewrite JSFacts.accumulated_join. apply JSFacts.trim_space. }
  rewrite Htext.
  split; [exact Ho |]. split; [split; reflexivity |].
  apply (@appended_log s _ [Append _]).
  change (log (world s2) ++ [Append (user_message
                                       (trim (join_space (texts first rest))))]
          = log (world s)
              ++ [Append (user_message
                            (trim (join_space (texts first rest))))]).
  now rewrite Hl.
Qed.

(** C3, amended.  Final fragments whose text is not blank, each arriving
    less than 3000 ms after the previous one, are emitted after the
    silence as exactly one USER Message, whose content is their
    space-joined concatenation with the surrounding white space trimmed;
    and when a gap of at least 3000 ms separates two such runs of
    fragments, two USER Messages are emitted, split at that gap. *)
Theorem segmenter_coalesces_and_splits
    props socket s first1 rest1 gap first2 rest2 d :
  socket_open socket s ->
  quiet s ->
  blank first1 = false -> Forall continues rest1 ->
  blank first2 = false -> Forall continues rest2 ->
  silence <= gap ->
  silence <= d ->
  appended (run props (hear socket first1 rest1 ++ [Elapse d]) s)
  = appended s
      ++ [user_message (trim (join_space (texts first1 rest1)))]
  /\
  appended (run props (hear socket first1 rest1 ++ [Elapse gap]
                         ++ hear socket first2 rest2 ++ [Elapse d]) s)
  = appended s
      ++ [user_message (trim (join_space (texts first1 rest1)));
          user_message (trim (join_space (texts first2 rest2)))].
Proof.
  intros Hopen Hquiet H1 Hr1 H2 Hr2 Hgap Hd. split.
  - now apply utterance_flushed.
  - rewrite app_assoc, run_app.
    destruct (utterance_flushed props first1 Hopen Hquiet H1 Hr1 Hgap)
      as (Hopen' & Hquiet' & Happ).
    destruct (utterance_flushed props first2 Hopen' Hquiet' H2 Hr2 Hd)
      as (_ & _ & Happ').
    rewrite Happ', Happ. now rewrite <- app_assoc.
Qed.

Lemma segmenter_coalesces_and_splits_witness :
  socket_open 0 (active_call interview_props) /\
  quiet (active_call interview_props) /\
  blank (lit "hello") = false /\ Forall continues [(500, lit "world")] /\
  blank (lit "bye") = false /\ Forall continues [] /\
  silence <= 3000 /\ silence <= 4000 /\
  appended (run interview_props
              (hear 0 (lit "hello") [(500, lit "world")] ++ [Elapse 4000])
              (active_call interview_props))
  = appended (active_call interview_props)
      ++ [user_message
            (trim (join_space (texts (lit "hello") [(500, lit "world")])))]
  /\
  appended (run interview_props
              (hear 0 (lit "hello") [(500, lit "world")] ++ [Elapse 3000]
                 ++ hear 0 (lit "bye") [] ++ [Elapse 4000])
              (active_call interview_props))
  = appended (active_call interview_props)
      ++ [user_message
            (trim (join_space (texts (lit "hello") [(500, lit "world")])));
          user_message (trim (join_space (texts (lit "bye") [])))].
Proof.
  assert (Hopen : socket_open 0 (active_call interview_props))
    by (eexists; split; reflexivity).
  assert (Hquiet : quiet (active_call interview_props))
    by (split; reflexivity).
  assert (Hrest : Forall continues [(500, lit "world")]).
  { constructor; [| constructor]. split; [reflexivity |].
    unfold silence. cbn. lia. }
  assert (H3 : silence <= 3000) by (unfold silence; lia).
  assert (H4 : silence <= 4000) by (unfold silence; lia).
  split; [exact Hopen |]. split; [exact Hquiet |].
  split; [reflexivity |]. split; [exact Hrest |].
  split; [reflexivity |]. split; [constructor |].
  split; [exact H3 |]. split; [exact H4 |].
  exact (@segmenter_coalesces_and_splits interview_props 0
           (active_call interview_props) (lit "hello")
           [(500, lit "world")] 3000 (lit "bye") [] 4000
           Hopen Hquiet eq_refl Hrest eq_refl (Forall_nil _) H3 H4).
Defined.

(** C3 as stated fails: a final fragment whose text is one space is a
    non-empty text and yet no USER Message is emitted for it; and the
    fragments [" hi"] and ["there "], 100 ms apart, are emitted as
    ["hi there"], which is not their space-joined concatenation. *)
Lemma segmenter_skips_blank_fragment :
  truthy (lit " ") = true /\
  appended (run interview_props (hear 0 (lit " ") [] ++ [Elapse silence])
              (active_call interview_props))
  = appended (active_call interview_props)
  /\
  appended (run interview_props
              (hear 0 (lit " hi") [(100, lit "there ")] ++ [Elapse silence])
              (active_call interview_props))
  = appended (active_call interview_props) ++ [user_message (lit "hi there")]
  /\
  join_space [lit " hi"; lit "there "] <> lit "hi there".
Proof.
  split; [reflexivity |]. split; [reflexivity |]. split; [reflexivity |].
  discriminate.
Qed.

(** With fragments that carry no surrounding white space the content is
    the space-joined concatenation itself. *)
Example segmenter_joins_two :
  appended (run interview_props
              (hear 0 (lit "hello") [(500, lit "world")] ++ [Elapse 3000])
              (active_call interview_props))
  = [user_message (lit "Hello"); user_message (lit "hello world")].
Proof. reflexivity. Qed.

(** ** Audio capture *)

(** C10.  When the encoding of a slice completes, the slice is sent on the
    recorder's channel if that channel is OPEN; in any other state of the
    channel nothing at all happens: no frame is sent, nothing is queued for
    later, no error is logged, and what follows runs as if the slice had
    never been produced. *)
Theorem slice_forwarded_only_when_open props recorder result s x ws :
  nth_error (recorders (world s)) recorder = Some x ->
  nth_error (sockets (world s)) (rec_socket x) = Some ws ->
  step props (SliceEncoded recorder result) s
  = match readyState ws with
    | WS_OPEN =>
        socket_send (rec_socket x)
          {| audio_data := nth_error (split_comma result) 1 |} s
    | _ => s
    end
  /\ log (world (step props (SliceEncoded recorder result) s)) = log (world s)
  /\ (readyState ws <> WS_OPEN ->
      forall later,
        run props (SliceEncoded recorder result :: later) s
        = run props later s).
Proof.
  intros Hrec Hsock.
  assert (Hh : handle props (SliceEncoded recorder result) s
               = match readyState ws with
                 | WS_OPEN =>
                     socket_send (rec_socket x)
                       {| audio_data := nth_error (split_comma result) 1 |} s
                 | _ => s
                 end).
  { cbn [handle]. rewrite Hrec. unfold reader_onload. rewrite Hsock.
    destruct (readyState ws); reflexivity. }
  assert (Hs : step props (SliceEncoded recorder result) s
               = handle props (SliceEncoded recorder result) s).
  { apply step_same_chat; rewrite Hh; destruct (readyState ws); reflexivity. }
  rewrite Hs, Hh. split; [reflexivity |]. split.
  - destruct (readyState ws); reflexivity.
  - intros Hclosed later. cbn [run]. rewrite Hs, Hh.
    destruct (readyState ws); congruence.
Qed.

Lemma slice_forwarded_only_when_open_witness :
  nth_error (recorders (world (recording_call interview_props))) 0
    = Some slice_recorder /\
  nth_error (sockets (world (recording_call interview_props)))
    (rec_socket slice_recorder) = Some slice_socket /\
  step interview_props (SliceEncoded 0 slice_result)
    (recording_call interview_props)
  = match readyState slice_socket with
    | WS_OPEN =>
        socket_send (rec_socket slice_recorder)
          {| audio_data := nth_error (split_comma slice_result) 1 |}
          (recording_call interview_props)
    | _ => recording_call interview_props
    end
  /\ log (world (step interview_props (SliceEncoded 0 slice_result)
                   (recording_call interview_props)))
     = log (world (recording_call interview_props))
  /\ (readyState slice_socket <> WS_OPEN ->
      forall later,
        run interview_props (SliceEncoded 0 slice_result :: later)
          (recording_call interview_props)
        = run interview_props later (recording_call interview_props)).
Proof.
  assert (Hrec : nth_error (recorders (world (recording_call interview_props))) 0
                 = Some slice_recorder)
    by (vm_compute; reflexivity).
  assert (Hsock : nth_error (sockets (world (recording_call interview_props)))
                    (rec_socket slice_recorder) = Some slice_socket)
    by (vm_compute; reflexivity).
  split; [exact Hrec |]. split; [exact Hsock |].
  exact (@slice_forwarded_only_when_open interview_props 0 slice_result
           (recording_call interview_props) slice_recorder slice_socket
           Hrec Hsock).
Defined.

(** The slice of that witness is sent, with the payload after the comma. *)
Example slice_sent_when_open :
  map frames
    (sockets (world (step interview_props (SliceEncoded 0 slice_result)
                       (recording_call interview_props))))
  = [[ {| audio_data := Some (lit "UklG") |} ]].
Proof. vm_compute. reflexivity. Qed.

(** A slice encoded after the channel closed goes nowhere. *)
Example slice_after_close_dropped :
  run interview_props [SocketClose 0; SliceEncoded 0 slice_result]
    (recording_call interview_props)
  = run interview_props [SocketClose 0] (recording_call interview_props).
Proof. vm_compute. reflexivity. Qed.

(** ** The end of the session *)

Lemma hand_offs_emit e s :
  hand_offs (emit e s)
  = hand_offs s ++ match e with CreateFeedback t => [t] | _ => [] end.
Proof. unfold hand_offs. cbn. rewrite flat_map_app. cbn. now rewrite app_nil_r. Qed.

(** The clean-up blocks of [handleDisconnect] log nothing and leave the
    hooks alone. *)
Lemma disconnect_audio_frame s :
  hooks (disconnect_audio s) = hooks s /\
  log (world (disconnect_audio s)) = log (world s).
Proof. unfold disconnect_audio. destruct (audioRef (refs s)); split; reflexivity. Qed.

Lemma disconnect_socket_frame s :
  hooks (disconnect_socket s) = hooks s /\
  log (world (disconnect_socket s)) = log (world s).
Proof. unfold disconnect_socket. destruct (socketRef (refs s)); split; reflexivity. Qed.

Lemma disconnect_recorder_frame s :
  hooks (disconnect_recorder s) = hooks s /\
  log (world (disconnect_recorder s)) = log (world s).
Proof.
  unfold disconnect_recorder. destruct (recorderRef (refs s)); split; reflexivity.
Qed.

Lemma disconnect_stream_frame s :
  hooks (disconnect_stream s) = hooks s /\
  log (world (disconnect_stream s)) = log (world s).
Proof. unfold disconnect_stream. destruct (streamRef (refs s)); split; reflexivity. Qed.

Lemma disconnect_navigation_log props r s :
  log (world (disconnect_navigation props r s))
  = log (world s)
      ++ (if CallStatus_eqb (r_callStatus r) ACTIVE
             || CallStatus_eqb (r_callStatus r) CONNECTING
          then
            if negb (is_generate (type props))
               && (0 <? List.length (r_messages r))
            then [CreateFeedback (transcript (r_messages r))]
            else if is_generate (type props) then [RouterPush Home] else []
          else []).
Proof.
  unfold disconnect_navigation.
  destruct (CallStatus_eqb (r_callStatus r) ACTIVE
            || CallStatus_eqb (r_callStatus r) CONNECTING);
    [| now rewrite app_nil_r].
  destruct (negb (is_generate (type props))
            && (0 <? List.length (r_messages r))); [reflexivity |].
  destruct (is_generate (type props)); [reflexivity |].
  now rewrite app_nil_r.
Qed.

(** [handleDisconnect]: the status becomes FINISHED, and only its first
    block logs an effect. *)
Lemma handleDisconnect_cleanup props r s :
  callStatus (hooks (handleDisconnect props r s)) = FINISHED /\
  log (world (handleDisconnect props r s))
  = log (world (disconnect_navigation props r s)).
Proof.
  unfold handleDisconnect. cbv zeta.
  set (s1 := setIsSpeaking false
               (setCallStatus FINISHED (disconnect_navigation props r s))).
  destruct (disconnect_audio_frame s1) as [Hh1 Hl1].
  destruct (disconnect_socket_frame (disconnect_audio s1)) as [Hh2 Hl2].
  destruct (disconnect_recorder_frame (disconnect_socket (disconnect_audio s1)))
    as [Hh3 Hl3].
  destruct (disconnect_stream_frame
              (disconnect_recorder (disconnect_socket (disconnect_audio s1))))
    as [Hh4 Hl4].
  rewrite Hh4, Hh3, Hh2, Hh1, Hl4, Hl3, Hl2, Hl1. split; reflexivity.
Qed.

(** C9, amended.  When [handleDisconnect] ends a session that its render
    sees as ACTIVE or CONNECTING, as the End button does, the hand-off
    [createFeedback] is invoked, with the transcript, exactly when the mode
    is INTERVIEW and the conversation holds at least one Message, the
    greeting alone included; in SETUP mode, or with an empty
    conversation, the session reaches FINISHED and no hand-off is
    attempted. *)
Theorem hand_off_at_session_end props r s :
  r_callStatus r = ACTIVE \/ r_callStatus r = CONNECTING ->
  callStatus (hooks (handleDisconnect props r s)) = FINISHED /\
  (type props = interview /\ r_messages r <> [] ->
   hand_offs (handleDisconnect props r s)
   = hand_offs s ++ [transcript (r_messages r)]) /\
  (type props = generate \/ r_messages r = [] ->
   hand_offs (handleDisconnect props r s) = hand_offs s).
Proof.
  intros Hlive.
  destruct (handleDisconnect_cleanup props r s) as [Hstatus Hlog].
  rewrite disconnect_navigation_log in Hlog.
  split; [exact Hstatus |].
  assert (Hif : CallStatus_eqb (r_callStatus r) ACTIVE
                || CallStatus_eqb (r_callStatus r) CONNECTING = true)
    by (destruct Hlive as [-> | ->]; reflexivity).
  rewrite Hif in Hlog. unfold hand_offs. rewrite Hlog, flat_map_app. split.
  - intros [Hmode Hmsgs]. rewrite Hmode.
    destruct (r_messages r); [congruence | reflexivity].
  - intros [Hmode | Hmsgs].
    + rewrite Hmode. cbn. now rewrite app_nil_r.
    + rewrite Hmsgs. cbn.
      destruct (is_generate (type props)); cbn; now rewrite app_nil_r.
Qed.

Lemma hand_off_at_session_end_witness :
  (r_callStatus end_render = ACTIVE \/ r_callStatus end_render = CONNECTING) /\
  callStatus (hooks (handleDisconnect interview_props end_render
                       (active_call interview_props))) = FINISHED /\
  (type interview_props = interview /\ r_messages end_render <> [] ->
   hand_offs (handleDisconnect interview_props end_render
                (active_call interview_props))
   = hand_offs (active_call interview_props)
       ++ [transcript (r_messages end_render)]) /\
  (type interview_props = generate \/ r_messages end_render = [] ->
   hand_offs (handleDisconnect interview_props end_render
                (active_call interview_props))
   = hand_offs (active_call interview_props)).
Proof.
  split; [left; reflexivity |].
  apply (@hand_off_at_session_end interview_props end_render
           (active_call interview_props)).
  left. reflexivity.
Defined.

(** C9 as stated fails: in INTERVIEW mode, End right after the greeting,
    before any reply, hands off the greeting alone although no
    USER/ASSISTANT exchange has occurred. *)
Lemma greeting_alone_is_handed_off :
  type interview_props = interview /\
  messages (hooks (active_call interview_props))
    = [user_message (lit "Hello")] /\
  exchange_occurred (messages (hooks (active_call interview_props))) = false /\
  hand_offs (active_call interview_props) = [] /\
  hand_offs (step interview_props ClickEnd (active_call interview_props))
    = [[user_message (lit "Hello")]] /\
  callStatus
    (hooks (step interview_props ClickEnd (active_call interview_props)))
    = FINISHED.
Proof. repeat split; vm_compute; reflexivity. Qed.

(** A session that ends by the unmount of the component: the clean-up
    runs [handleDisconnect] of the first render, which sees the call
    INACTIVE.  After a real exchange the session reaches FINISHED with
    nothing handed off. *)
Example unmount_after_exchange :
  exchange_occurred (messages (hooks answered_call)) = true /\
  callStatus (hooks answered_call) = ACTIVE /\
  hand_offs (step interview_props Unmount answered_call) = [] /\
  callStatus (hooks (step interview_props Unmount answered_call)) = FINISHED.
Proof. repeat split; vm_compute; reflexivity. Qed.

(** The End button runs [handleDisconnect] with the current render: in
    INTERVIEW mode after the greeting the transcript is handed off, in
    SETUP mode it is not. *)
Example end_click_hands_off :
  hand_offs (run interview_props (connect ++ [ClickEnd]) initial)
    = [[user_message (lit "Hello")]] /\
  hand_offs (run setup_props (connect ++ [ClickEnd]) initial) = [] /\
  callStatus (hooks (run setup_props (connect ++ [ClickEnd]) initial))
    = FINISHED.
Proof. repeat split; vm_compute; reflexivity. Qed.

(** ** The speech trigger *)

Ltac break_match :=
  match goal with
  | |- context [match ?x with _ => _ end] => destruct x
  end.

Ltac speech_frame :=
  unfold speech, spoken; updates;
  rewrite ?flat_map_app; cbn [flat_map app]; rewrite ?app_nil_r;
  reflexivity.

Lemma speech_emit e s :
  is_PlayTTS e = false -> speech (emit e s) = speech s.
Proof. intros H. destruct e; try discriminate; speech_frame. Qed.

Lemma speech_append m s : speech (append m s) = speech s.
Proof. speech_frame. Qed.

Lemma speech_handleDisconnect props r s :
  speech (handleDisconnect props r s) = speech s.
Proof.
  unfold handleDisconnect. cbv zeta.
  assert (Ha : forall x, speech (disconnect_audio x) = speech x)
    by (intros x; unfold disconnect_audio; destruct (audioRef (refs x));
        speech_frame).
  assert (Hb : forall x, speech (disconnect_socket x) = speech x)
    by (intros x; unfold disconnect_socket; destruct (socketRef (refs x));
        speech_frame).
  assert (Hc : forall x, speech (disconnect_recorder x) = speech x)
    by (intros x; unfold disconnect_recorder; destruct (recorderRef (refs x));
        speech_frame).
  assert (Hd : forall x, speech (disconnect_stream x) = speech x)
    by (intros x; unfold disconnect_stream; destruct (streamRef (refs x));
        speech_frame).
  rewrite Hd, Hc, Hb, Ha.
  transitivity (speech (disconnect_navigation props r s)); [speech_frame |].
  unfold disconnect_navigation. repeat break_match; speech_frame.
Qed.

(** No handler of an event calls [playTTS] or touches the last spoken
    content: only the effect does. *)
Lemma speech_handle props e s : speech (handle props e s) = speech s.
Proof.
  assert (Hclose : forall r x, speech (socket_onclose props r x) = speech x).
  { intros r x. unfold socket_onclose.
    destruct (CallStatus_eqb (r_callStatus r) ACTIVE);
      [apply speech_handleDisconnect | reflexivity]. }
  destruct e; cbn [handle].
  3: { destruct (CallStatus_eqb (callStatus (hooks s)) ACTIVE);
       [apply speech_handleDisconnect | reflexivity]. }
  3: { apply speech_handleDisconnect. }
  7: { destruct (nth_error (sockets (world s)) socket) as [x |];
       [| reflexivity].
       destruct (readyState x); try reflexivity;
         rewrite Hclose; speech_frame. }
  all: unfold handleCall, handleCall_resume, handleCall_catch, socket_onopen,
         socket_onmessage, socket_onerror, silence_timeout,
         startRecording_resume, reader_onload, playTTS_resume, audio_onended,
         audio_onerror, handleGenerateFeedback_resume;
       repeat break_match; speech_frame.
Qed.

Lemma playTTS_speech props text s :
  speech (playTTS props text s)
  = (spoken s ++ [text], lastSpokenMessageRef (refs s)).
Proof.
  unfold playTTS.
  destruct (negb (truthy text) || eqb (trim text) []);
    [| destruct (audioRef (refs (setIsSpeaking true (emit (PlayTTS text) s))))];
    unfold speech, spoken; updates; rewrite ?flat_map_app; cbn [flat_map app];
    rewrite ?app_nil_r; reflexivity.
Qed.

(** One run of the effect: it calls [playTTS] at most once, and then under
    the conditions of the source. *)
Lemma tts_effect_speech props s :
  speech (tts_effect props s) = speech s \/
  exists last,
    last_message (messages (hooks s)) = Some last /\
    role last = "assistant"%string /\
    content last <> [] /\
    isLoading (hooks s) = false /\
    content last <> lastSpokenMessageRef (refs s) /\
    speech (tts_effect props s) = (spoken s ++ [content last], content last).
Proof.
  unfold tts_effect, last_message.
  destruct (0 <? List.length (messages (hooks s))); [| now left].
  destruct (nth_error _ _) as [last |]; [| now left].
  destruct (string_eqb (role last) "assistant") eqn:Hrole; [| now left].
  destruct (truthy (content last)) eqn:Htruthy; [| now left].
  cbn [andb].
  destruct (isLoading (hooks s)) eqn:Hload; [now left |].
  cbn [negb andb].
  replace (lastSpokenMessageRef (refs (setLastMessage (content last) s)))
    with (lastSpokenMessageRef (refs s)) by reflexivity.
  destruct (eqb (content last) (lastSpokenMessageRef (refs s))) eqn:Hsame;
    [now left |].
  right. exists last. split; [reflexivity |].
  split; [now apply String.eqb_eq |].
  split; [intros Hnil; rewrite Hnil in Htruthy; discriminate |].
  split; [reflexivity |].
  split; [now apply JSFacts.eqb_neq |].
  cbn [negb]. rewrite playTTS_speech. reflexivity.
Qed.

Lemma no_repeat_snoc l c :
  no_repeat l ->
  (forall l' t, l = l' ++ [t] -> t <> c) ->
  no_repeat (l ++ [c]).
Proof.
  induction l as [| a l IH]; intros Hno Hlast; [exact I |].
  destruct l as [| b l].
  - cbn. split; [| exact I]. now apply (Hlast [] a).
  - destruct Hno as [Hab Hno]. split; [exact Hab |].
    apply IH; [exact Hno |].
    intros l' t Heq. apply (Hlast (a :: l') t). cbn. now rewrite Heq.
Qed.

Lemma speech_invariant_step props e s :
  speech_invariant s -> speech_invariant (step props e s).
Proof.
  intros [Hno Hlast].
  assert (Hh : speech (handle props e s) = speech s) by apply speech_handle.
  injection Hh as Hspoken Hsame.
  assert (Hinv : speech_invariant (handle props e s)).
  { split; [now rewrite Hspoken |].
    intros l t Heq. rewrite Hsame. apply (Hlast l). now rewrite <- Hspoken. }
  unfold step. destruct (_ && _); [exact Hinv |].
  clear Hno Hlast Hspoken Hsame. destruct Hinv as [Hno Hlast].
  set (s' := handle props e s) in *.
  destruct (tts_effect_speech props s')
    as [Heq | (last & _ & _ & _ & _ & Hnew & Heq)];
    injection Heq as Hspoken Hsame.
  - split; [now rewrite Hspoken |].
    intros l t Hl. rewrite Hsame. apply (Hlast l). now rewrite <- Hspoken.
  - split.
    + rewrite Hspoken. apply no_repeat_snoc; [exact Hno |].
      intros l' t Hl Ht. apply Hnew. rewrite (Hlast l' t Hl). now symmetry.
    + intros l t Hl. rewrite Hsame. rewrite Hspoken in Hl.
      now apply app_inj_tail in Hl as [_ <-].
Qed.

Lemma speech_invariant_run props events :
  forall s, speech_invariant s -> speech_invariant (run props events s).
Proof.
  induction events as [| e events IH]; intros s Hinv; [exact Hinv |].
  cbn [run]. apply IH. now apply speech_invariant_step.
Qed.

Lemma synthesis_requests_playTTS props text s :
  synthesis_requests (playTTS props text s)
  = synthesis_requests s ++ (if blank text then [] else [text]).
Proof.
  unfold playTTS.
  destruct (blank text) eqn:Hblank.
  - rewrite (JSFacts.trim_blank _ Hblank), orb_true_r.
    unfold synthesis_requests. updates. rewrite flat_map_app. reflexivity.
  - rewrite (JSFacts.trim_nonblank _ Hblank), orb_false_r.
    assert (Htruthy : truthy text = true)
      by (destruct text; [discriminate | reflexivity]).
    rewrite Htruthy. cbn [negb].
    destruct (audioRef (refs (setIsSpeaking true (emit (PlayTTS text) s))));
      unfold synthesis_requests; updates; rewrite !flat_map_app;
      cbn [flat_map app]; now rewrite app_nil_r.
Qed.

(** C7, amended.  One run of the trigger calls [playTTS] at most once, and
    only for the last Message of the conversation when it is an assistant
    Message with non-empty content, the loading flag is false and the
    content differs from the last spoken content, which it then becomes;
    over any sequence of events no text is spoken twice in a row; and a
    call of [playTTS] requests a synthesis exactly when its text is not
    blank. *)
Theorem speech_trigger props :
  (forall s,
     speech (tts_effect props s) = speech s \/
     exists last,
       last_message (messages (hooks s)) = Some last /\
       role last = "assistant"%string /\
       content last <> [] /\
       isLoading (hooks s) = false /\
       content last <> lastSpokenMessageRef (refs s) /\
       speech (tts_effect props s)
       = (spoken s ++ [content last], content last)) /\
  (forall events, no_repeat (spoken (run props events initial))) /\
  (forall text s,
     synthesis_requests (playTTS props text s)
     = synthesis_requests s ++ (if blank text then [] else [text])).
Proof.
  split; [apply tts_effect_speech |]. split.
  - intros events.
    apply (speech_invariant_run props events (s := initial)).
    split; [exact I |]. intros [| x l] t H; discriminate.
  - apply synthesis_requests_playTTS.
Qed.

(** C7 as stated fails: of three distinct assistant replies, the first and
    the third with the same final text, each is spoken, so that text is
    spoken twice. *)
Lemma same_text_spoken_twice :
  spoken (run interview_props three_replies initial)
    = [understood; next_question; understood] /\
  count_occ (list_eq_dec N.eq_dec)
    (spoken (run interview_props three_replies initial)) understood = 2.
Proof. split; vm_compute; reflexivity. Qed.

(** Blank text reaches no synthesis request; streaming text is not spoken
    until its turn completes. *)
Example blank_and_streaming_not_spoken :
  synthesis_requests (playTTS interview_props (lit "  ") initial) = [] /\
  spoken (run interview_props
            [Chat [user_message (lit "Hello")] true;
             Chat [user_message (lit "Hello");
                   assistant_message (lit "Wel")] true;
             Chat [user_message (lit "Hello");
                   assistant_message (lit "Welcome")] true;
             Chat [user_message (lit "Hello");
                   assistant_message (lit "Welcome")] false] initial)
  = [lit "Welcome"].
Proof. split; vm_compute; reflexivity. Qed.

(** ** Where the component departs from its specification *)

(** C4 fails on the code.  The handlers of the socket are created by
    [handleCall], in a render that shows the Call button, hence one whose
    [callStatus] is not ACTIVE; [onclose] tests that constant.  Here the
    call is ACTIVE and recording when the channel closes: nothing is
    disconnected, the status stays ACTIVE, the microphone stays open. *)
Theorem channel_close_leaves_session_active :
  callStatus (hooks (recording_call interview_props)) = ACTIVE /\
  map readyState
    (sockets (world (run interview_props [SocketClose 0]
                       (recording_call interview_props))))
    = [WS_CLOSED] /\
  callStatus (hooks (run interview_props [SocketClose 0]
                       (recording_call interview_props))) = ACTIVE /\
  streams (world (run interview_props [SocketClose 0]
                    (recording_call interview_props))) = [true] /\
  map recording
    (recorders (world (run interview_props [SocketClose 0]
                         (recording_call interview_props)))) = [true] /\
  hand_offs (run interview_props [SocketClose 0]
               (recording_call interview_props)) = [].
Proof. repeat split; vm_compute; reflexivity. Qed.

(** That is no accident of the input: no socket is ever created by a
    render whose status is ACTIVE. *)
Lemma map_closure_update_nth n f l :
  (forall x, closure (f x) = closure x) ->
  map closure (update_nth n f l) = map closure l.
Proof.
  intros Hf. revert n. induction l as [| a l IH]; intros [| n]; cbn;
    try reflexivity.
  - now rewrite Hf.
  - now rewrite IH.
Qed.

Ltac captured_frame :=
  unfold captured; updates;
  rewrite ?map_closure_update_nth by (intros; reflexivity);
  reflexivity.

Lemma captured_handleDisconnect props r s :
  captured (handleDisconnect props r s) = captured s.
Proof.
  unfold handleDisconnect. cbv zeta.
  assert (Ha : forall x, captured (disconnect_audio x) = captured x)
    by (intros x; unfold disconnect_audio; destruct (audioRef (refs x));
        captured_frame).
  assert (Hb : forall x, captured (disconnect_socket x) = captured x)
    by (intros x; unfold disconnect_socket; destruct (socketRef (refs x));
        captured_frame).
  assert (Hc : forall x, captured (disconnect_recorder x) = captured x)
    by (intros x; unfold disconnect_recorder; destruct (recorderRef (refs x));
        captured_frame).
  assert (Hd : forall x, captured (disconnect_stream x) = captured x)
    by (intros x; unfold disconnect_stream; destruct (streamRef (refs x));
        captured_frame).
  rewrite Hd, Hc, Hb, Ha.
  transitivity (captured (disconnect_navigation props r s));
    [captured_frame |].
  unfold disconnect_navigation. repeat break_match; captured_frame.
Qed.

Lemma never_active_remove_nth k l :
  never_active l -> never_active (remove_nth k l).
Proof.
  unfold never_active. revert k.
  induction l as [| a l IH]; intros [| k] H; cbn; auto;
    inversion H; subst; auto.
Qed.

Lemma captured_handle props e s :
  never_active (captured s) -> never_active (captured (handle props e s)).
Proof.
  intros Hinv.
  assert (Hclose : forall r x, captured (socket_onclose props r x) = captured x).
  { intros r x. unfold socket_onclose.
    destruct (CallStatus_eqb (r_callStatus r) ACTIVE);
      [apply captured_handleDisconnect | reflexivity]. }
  destruct e; cbn [handle].
  2: { destruct (CallStatus_eqb (callStatus (hooks s)) ACTIVE) eqn:Hstatus;
       [exact Hinv |].
       unfold handleCall, captured in *. updates.
       rewrite <- app_assoc. unfold never_active in *.
       apply Forall_app in Hinv as [Ht Hs].
       apply Forall_app. split; [exact Ht |].
       constructor; [exact Hstatus | exact Hs]. }
  2: { destruct (CallStatus_eqb (callStatus (hooks s)) ACTIVE);
       [rewrite captured_handleDisconnect |]; exact Hinv. }
  2: { now rewrite captured_handleDisconnect. }
  2: { unfold handleCall_resume.
       destruct (nth_error (token_inflight (world s)) k) as [r |] eqn:Hk;
         [| exact Hinv].
       unfold captured, never_active in *.
       apply Forall_app in Hinv as [Ht Hs].
       assert (Hr : CallStatus_eqb (r_callStatus r) ACTIVE = false).
       { apply nth_error_In in Hk.
         now apply (proj1 (Forall_forall _ _) Ht). }
       pose proof (never_active_remove_nth k Ht) as Ht'.
       destruct res as [error token |];
         [destruct (option_truthy error) |];
         unfold handleCall_catch; updates; apply Forall_app;
         (split; [exact Ht' |]); try exact Hs.
       rewrite map_app. apply Forall_app. split; [exact Hs |].
       constructor; [exact Hr | constructor]. }
  5: { destruct (nth_error (sockets (world s)) socket) as [x |];
       [| exact Hinv].
       destruct (readyState x); try exact Hinv;
         rewrite Hclose; replace (captured _) with (captured s);
         try exact Hinv; captured_frame. }
  all: replace (captured _) with (captured s); [exact Hinv |];
       unfold socket_onopen, socket_onmessage, socket_onerror,
         silence_timeout, startRecording_resume, reader_onload,
         playTTS_resume, audio_onended, audio_onerror,
         handleGenerateFeedback_resume;
       repeat break_match; captured_frame.
Qed.

Lemma captured_playTTS props text s :
  captured (playTTS props text s) = captured s.
Proof.
  unfold playTTS.
  destruct (negb (truthy text) || eqb (trim text) []); [reflexivity |].
  destruct (audioRef (refs (setIsSpeaking true (emit (PlayTTS text) s))));
    captured_frame.
Qed.

Lemma captured_tts_effect props s :
  captured (tts_effect props s) = captured s.
Proof.
  unfold tts_effect.
  destruct (0 <? List.length (messages (hooks s))); [| reflexivity].
  destruct (nth_error _ _) as [last |]; [| reflexivity].
  destruct (string_eqb (role last) "assistant" && truthy (content last));
    [| reflexivity].
  destruct (negb (isLoading (hooks s)) && _); [| reflexivity].
  now rewrite captured_playTTS.
Qed.

Lemma captured_run props events :
  forall s, never_active (captured s) ->
            never_active (captured (run props events s)).
Proof.
  induction events as [| e events IH]; intros s Hinv; [exact Hinv |].
  cbn [run]. apply IH. unfold step.
  destruct (_ && _); [| rewrite captured_tts_effect];
    now apply captured_handle.
Qed.

(** Whatever happened before, the close of a channel never changes the
    status of the session. *)
Lemma onclose_never_disconnects props events socket :
  callStatus (hooks (step props (SocketClose socket)
                       (run props events initial)))
  = callStatus (hooks (run props events initial)).
Proof.
  pose proof (@captured_run props events initial (Forall_nil _)) as Hinv.
  set (s := run props events initial) in *.
  assert (Hh : handle props (SocketClose socket) s = s \/
               handle props (SocketClose socket) s
               = set_readyState socket WS_CLOSED s).
  { cbn [handle].
    destruct (nth_error (sockets (world s)) socket) as [x |] eqn:Hx;
      [| now left].
    assert (Hr : CallStatus_eqb (r_callStatus (closure x)) ACTIVE = false).
    { unfold captured, never_active in Hinv.
      apply Forall_app in Hinv as [_ Hs].
      apply (proj1 (Forall_forall _ _) Hs).
      apply in_map_iff. exists x. split; [reflexivity |].
      now apply nth_error_In in Hx. }
    unfold socket_onclose. rewrite Hr.
    destruct (readyState x); auto. }
  rewrite step_same_chat; destruct Hh as [-> | ->]; reflexivity.
Qed.

(** In no state does [handleDisconnect] touch the silence timer or the
    accumulated text. *)
Lemma handleDisconnect_keeps_pending props r s :
  silenceTimeoutRef (refs (handleDisconnect props r s))
    = silenceTimeoutRef (refs s) /\
  accumulatedTextRef (refs (handleDisconnect props r s))
    = accumulatedTextRef (refs s).
Proof.
  unfold handleDisconnect. cbv zeta.
  assert (Hd : forall x,
             silenceTimeoutRef (refs (disconnect_stream x))
               = silenceTimeoutRef (refs x) /\
             accumulatedTextRef (refs (disconnect_stream x))
               = accumulatedTextRef (refs x))
    by (intros x; unfold disconnect_stream; destruct (streamRef (refs x));
        split; reflexivity).
  assert (Hc : forall x,
             silenceTimeoutRef (refs (disconnect_recorder x))
               = silenceTimeoutRef (refs x) /\
             accumulatedTextRef (refs (disconnect_recorder x))
               = accumulatedTextRef (refs x))
    by (intros x; unfold disconnect_recorder; destruct (recorderRef (refs x));
        split; reflexivity).
  assert (Hb : forall x,
             silenceTimeoutRef (refs (disconnect_socket x))
               = silenceTimeoutRef (refs x) /\
             accumulatedTextRef (refs (disconnect_socket x))
               = accumulatedTextRef (refs x))
    by (intros x; unfold disconnect_socket; destruct (socketRef (refs x));
        split; reflexivity).
  assert (Ha : forall x,
             silenceTimeoutRef (refs (disconnect_audio x))
               = silenceTimeoutRef (refs x) /\
             accumulatedTextRef (refs (disconnect_audio x))
               = accumulatedTextRef (refs x))
    by (intros x; unfold disconnect_audio; destruct (audioRef (refs x));
        split; reflexivity).
  assert (Hn : refs (disconnect_navigation props r s) = refs s)
    by (unfold disconnect_navigation; repeat break_match; reflexivity).
  rewrite (proj1 (Hd _)), (proj2 (Hd _)), (proj1 (Hc _)), (proj2 (Hc _)),
    (proj1 (Hb _)), (proj2 (Hb _)), (proj1 (Ha _)), (proj2 (Ha _)).
  updates. rewrite Hn. split; reflexivity.
Qed.

(** C5 fails on the code.  [handleDisconnect] neither clears the silence
    timer nor the accumulated text: one second after a final fragment the
    End button brings the session to FINISHED with the text still pending,
    and two seconds later the timer appends it as a USER Message. *)
Theorem pending_text_sent_after_finished :
  callStatus (hooks ended_with_pending) = FINISHED /\
  accumulatedTextRef (refs ended_with_pending) = lit " one more thing" /\
  silenceTimeoutRef (refs ended_with_pending) = Some 3000 /\
  callStatus (hooks (step interview_props (Elapse 2000) ended_with_pending))
    = FINISHED /\
  appended (step interview_props (Elapse 2000) ended_with_pending)
    = appended ended_with_pending ++ [user_message (lit "one more thing")] /\
  isLoading (hooks (step interview_props (Elapse 2000) ended_with_pending))
    = true.
Proof. repeat split; vm_compute; reflexivity. Qed.

(** C6 fails on the code.  [playTTS] pauses the clip held by [audioRef]
    before it awaits the synthesis; a clip still being synthesised is not
    held yet.  Two calls in quick succession, both answered afterwards:
    both clips play at once. *)
Theorem overlapping_playback :
  audible
    (playTTS_resume 0 (TtsOk true)
       (playTTS_resume 0 (TtsOk true)
          (playTTS interview_props next_question
             (playTTS interview_props understood initial))))
    = [understood; next_question] /\
  audible
    (run interview_props
       [ Chat [assistant_message understood] false;
         Chat [assistant_message understood; user_message (lit "ok");
               assistant_message next_question] false;
         TtsSettled 0 (TtsOk true); TtsSettled 0 (TtsOk true) ]
       initial)
    = [understood; next_question].
Proof. split; vm_compute; reflexivity. Qed.

(** When the first clip is already playing, the second call does stop
    it. *)
Example playing_clip_is_preempted :
  audible
    (playTTS_resume 0 (TtsOk true)
       (playTTS interview_props next_question
          (playTTS_resume 0 (TtsOk true)
             (playTTS interview_props understood initial))))
    = [next_question].
Proof. vm_compute. reflexivity. Qed.

(** C8 fails on the code for the channel.  A WebSocket that cannot connect
    does not throw from its constructor: it fires [error], then [close].
    [onerror] only logs, [onclose] does nothing here: the status stays
    CONNECTING and no alert is shown. *)
Theorem channel_open_failure_stays_connecting :
  callStatus (hooks (run interview_props open_failure initial)) = CONNECTING /\
  alerts (run interview_props open_failure initial) = [] /\
  log (world (run interview_props open_failure initial)) = [ConsoleError] /\
  map readyState (sockets (world (run interview_props open_failure initial)))
    = [WS_CLOSED].
Proof. repeat split; vm_compute; reflexivity. Qed.

(** The sibling path, a refused token, does revert and alert, and starts
    nothing again. *)
Example token_failure_reverts :
  callStatus (hooks (run interview_props token_failure initial)) = INACTIVE /\
  alerts (run interview_props token_failure initial) = [ErrorStartingCall] /\
  sockets (world (run interview_props token_failure initial)) = [] /\
  token_inflight (world (run interview_props token_failure initial)) = [].
Proof. repeat split; vm_compute; reflexivity. Qed.

End AgentFacts.

(* ================================================================== *)
(** * Further facts about the chat route                               *)
(* ================================================================== *)

Module ChatRouteExtra.
Import ChatRoute ChatRouteMore.
Local Open Scope string_scope.
Local Open Scope list_scope.

Section Route.

Variable setupPrompt : string -> string.
Variable interviewPrompt : string -> string -> string.
Variable model_plain : list ApiMessage -> option string.
Variable model_with_tools :
  list ChatCompletionTool -> list ApiMessage -> ModelOutput.
Variable JSON_parse : string -> option JSValue.
Variable generateInterview : GenerateParams -> bool.
Variable appendToolCallMessage : ToolCallResult -> list ApiMessage.

Local Abbreviation loop :=
  (for_toolCalls model_plain model_with_tools JSON_parse
     generateInterview appendToolCallMessage).
Local Abbreviation onToolCall :=
  (experimental_onToolCall model_plain model_with_tools JSON_parse
     generateInterview appendToolCallMessage).
Local Abbreviation post :=
  (POST setupPrompt interviewPrompt model_plain model_with_tools
     JSON_parse generateInterview appendToolCallMessage).
Local Abbreviation prompt_of body :=
  (systemPrompt setupPrompt interviewPrompt (type body) (userName body)
     (questions body)).

Lemma loop_cons prompt messages userId toolCall rest log :
  loop prompt messages userId (toolCall :: rest) log
  = match fn_of toolCall with
    | Some fn =>
        if name fn =? "generate_interview"
        then loop prompt messages userId [toolCall] log
        else loop prompt messages userId rest log
    | None => loop prompt messages userId rest log
    end.
Proof.
  unfold fn_of. cbn [for_toolCalls].
  destruct (match pfunc toolCall with
            | Some f => Some f
            | None => pfunction toolCall
            end) as [fn |]; [| reflexivity].
  destruct (name fn =? "generate_interview"); reflexivity.
Qed.

(** The loop stops at the first entry that names the tool. *)
Lemma loop_first prompt messages userId toolCalls log :
  loop prompt messages userId toolCalls log
  = match first_generate_entry toolCalls with
    | Some toolCall => loop prompt messages userId [toolCall] log
    | None => (log, HUndefined)
    end.
Proof.
  induction toolCalls as [| toolCall rest IH]; [reflexivity |].
  rewrite loop_cons. cbn [first_generate_entry].
  destruct (fn_of toolCall) as [fn |]; [| exact IH].
  destruct (name fn =? "generate_interview"); [reflexivity | exact IH].
Qed.

(** X1.  Of the tool calls of one payload the callback handles the first
    one that has a function named [generate_interview], as if it were
    alone; every other entry is ignored, and with no such entry the
    callback returns [undefined] and logs nothing. *)
Theorem only_first_tool_call_handled prompt messages userId toolCalls log :
  loop prompt messages userId toolCalls log
  = match first_generate_entry toolCalls with
    | Some toolCall => loop prompt messages userId [toolCall] log
    | None => (log, HUndefined)
    end.
Proof.
  induction toolCalls as [| toolCall rest IH]; [reflexivity |].
  rewrite loop_cons. cbn [first_generate_entry].
  destruct (fn_of toolCall) as [fn |]; [| exact IH].
  destruct (name fn =? "generate_interview"); [reflexivity | exact IH].
Qed.

(** The callback on one entry that names the tool. *)
Lemma loop_single prompt messages userId toolCall fn log :
  fn_of toolCall = Some fn ->
  name fn = "generate_interview" ->
  loop prompt messages userId [toolCall] log
  = match parsed_arguments JSON_parse fn with
    | None => (log, HString invalid_arguments_text)
    | Some params =>
        match destructure userId params with
        | None => (log, HThrows)
        | Some args =>
            let r := appended_for toolCall (generateInterview args) in
            let req :=
              followup_request appendToolCallMessage prompt messages r in
            (log ++ [Generate args; AppendToolCall r; Completion req],
             match model_plain (req_messages req) with
             | Some t => HResponse (TextStream t)
             | None => HThrows
             end)
        end
    end.
Proof.
  intros Hfn Hname. unfold fn_of in Hfn. cbn [for_toolCalls].
  rewrite Hfn, Hname. cbn [String.eqb Ascii.eqb Bool.eqb].
  change ("generate_interview" =? "generate_interview") with true.
  unfold parsed_arguments.
  destruct (match arguments fn with
            | ArgObject o => Some (VObject o)
            | ArgString s => JSON_parse s
            end) as [params |]; [| reflexivity].
  destruct (destructure userId params) as [args |]; [| reflexivity].
  unfold create, followup_request, appended_for, outcome_text.
  cbn [req_tools req_messages]. rewrite <- !app_assoc. cbn [app].
  destruct (model_plain _); reflexivity.
Qed.

(** X2.  When the first tool call of a payload carries an arguments
    object, as an object or as text that parses to one, the tool is
    executed once with [role], [level], [techstack] and [amount] read from
    that object, [type] read from its [focus], and [userid] taken from the
    request, whatever the object says; it is followed by the tool message
    that carries the call's id and the outcome text, and by the follow-up
    request built from the conversation and that message, without
    tools. *)
Theorem execution_record prompt messages userId toolCalls toolCall fn o log :
  first_generate_entry toolCalls = Some toolCall ->
  fn_of toolCall = Some fn ->
  name fn = "generate_interview" ->
  parsed_arguments JSON_parse fn = Some (VObject o) ->
  fst (onToolCall prompt messages userId {| ptools := Some toolCalls |} log)
  = log ++ [ Generate (params_of userId o);
             AppendToolCall
               (appended_for toolCall
                  (generateInterview (params_of userId o)));
             Completion
               (followup_request appendToolCallMessage prompt messages
                  (appended_for toolCall
                     (generateInterview (params_of userId o)))) ].
Proof.
  intros Hfirst Hfn Hname Hparsed.
  unfold experimental_onToolCall. cbn [ptools].
  rewrite loop_first, Hfirst.
  rewrite (loop_single _ _ _ _ _ Hfn Hname), Hparsed.
  reflexivity.
Qed.

(** X3.  Arguments that are no object: text that [JSON.parse] rejects
    ends the callback with the error text; text that parses to [null]
    makes the callback throw; in both cases nothing is executed.  Text that
    parses to a number, a string or a boolean is not rejected: the tool is
    executed with every field undefined. *)
Theorem arguments_edge_cases prompt messages userId toolCalls toolCall fn log :
  first_generate_entry toolCalls = Some toolCall ->
  fn_of toolCall = Some fn ->
  name fn = "generate_interview" ->
  (parsed_arguments JSON_parse fn = None ->
   onToolCall prompt messages userId {| ptools := Some toolCalls |} log
   = (log, HString invalid_arguments_text)) /\
  (parsed_arguments JSON_parse fn = Some VNull ->
   onToolCall prompt messages userId {| ptools := Some toolCalls |} log
   = (log, HThrows)) /\
  (forall p, parsed_arguments JSON_parse fn = Some (VPrimitive p) ->
   exists rest,
     fst (onToolCall prompt messages userId {| ptools := Some toolCalls |} log)
     = log ++ Generate
                {| g_role := None; g_level := None; g_techstack := None;
                   g_type := None; g_amount := None; g_userid := userId |}
              :: rest).
Proof.
  intros Hfirst Hfn Hname.
  unfold experimental_onToolCall. cbn [ptools].
  rewrite loop_first, Hfirst.
  rewrite (loop_single _ _ _ _ _ Hfn Hname).
  split; [| split].
  - intros ->. reflexivity.
  - intros ->. reflexivity.
  - intros p ->. cbn [destructure fst]. eexists. reflexivity.
Qed.

Lemma first_generate_entry_some toolCalls toolCall :
  first_generate_entry toolCalls = Some toolCall ->
  exists fn, fn_of toolCall = Some fn /\ name fn = "generate_interview".
Proof.
  induction toolCalls as [| tc rest IH]; cbn [first_generate_entry];
    [discriminate |].
  destruct (fn_of tc) as [fn |] eqn:Hfn; [| exact IH].
  destruct (name fn =? "generate_interview") eqn:Hname; [| exact IH].
  intros H. inversion H; subst tc. exists fn. split; [exact Hfn |].
  now apply String.eqb_eq.
Qed.

Lemma destructure_userid userId params args :
  destructure userId params = Some args -> g_userid args = userId.
Proof.
  destruct params; cbn; intros H; inversion H; reflexivity.
Qed.

(** What the callback's loop logs: nothing, or one execution, its tool
    message and the follow-up request. *)
Lemma loop_log prompt messages userId toolCalls log :
  (exists r, loop prompt messages userId toolCalls log = (log, r) /\
             forall resp, r <> HResponse resp) \/
  (exists toolCall args r,
     g_userid args = userId /\
     loop prompt messages userId toolCalls log
     = (log ++ [ Generate args;
                 AppendToolCall
                   (appended_for toolCall (generateInterview args));
                 Completion
                   (followup_request appendToolCallMessage prompt messages
                      (appended_for toolCall (generateInterview args))) ],
        r) /\
     (r = HThrows \/ exists t, r = HResponse (TextStream t))).
Proof.
  rewrite loop_first.
  destruct (first_generate_entry toolCalls) as [toolCall |] eqn:Hfirst.
  - destruct (first_generate_entry_some _ Hfirst) as (fn & Hfn & Hname).
    rewrite (loop_single _ _ _ _ _ Hfn Hname).
    destruct (parsed_arguments JSON_parse fn) as [params |].
    + destruct (destructure userId params) as [args |] eqn:Hargs.
      * right. exists toolCall, args. cbv zeta.
        eexists. split; [exact (destructure_userid _ _ Hargs) |].
        split; [reflexivity |].
        destruct (model_plain _) as [t |]; [right; now exists t | now left].
      * left. eexists. split; [reflexivity | discriminate].
    + left. eexists. split; [reflexivity | discriminate].
  - left. eexists. split; [reflexivity | discriminate].
Qed.

(** What one request logs. *)
Lemma POST_log fuel body log resp :
  post fuel body = Some (log, resp) ->
  log = [Completion (first_request (prompt_of body) body)] \/
  exists toolCall args,
    shouldEnableTools (type body) (messages body) = true /\
    g_userid args = userId body /\
    log = [ Completion (first_request (prompt_of body) body);
            Generate args;
            AppendToolCall (appended_for toolCall (generateInterview args));
            Completion
              (followup_request appendToolCallMessage (prompt_of body)
                 (messages body)
                 (appended_for toolCall (generateInterview args))) ].
Proof.
  unfold POST, create, first_request, shouldEnableTools, offered.
  cbn [app req_tools req_messages].
  destruct ((type body =? "generate") && negb (hasToolCall (messages body)))
    eqn:Henable.
  - destruct (model_with_tools _ _) as [t | payload | e].
    + rewrite ChatRouteFacts.OpenAIStream_text. intros H; inversion H. now left.
    + destruct fuel as [| fuel']; cbn [OpenAIStream]; [discriminate |].
      unfold experimental_onToolCall.
      destruct (ptools payload) as [toolCalls |].
      * destruct (loop_log (prompt_of body) (messages body) (userId body)
                    toolCalls
                    [Completion
                       {| req_messages :=
                            system_message (prompt_of body) :: messages body;
                          req_tools := Some tools |}])
          as [(r & Heq & Hr) | (toolCall & args & r & Hid & Heq & Hr)];
          rewrite Heq.
        -- destruct r as [| s0 | newResponse |];
             try (intros H; inversion H; now left).
           now destruct (Hr newResponse).
        -- destruct Hr as [-> | [t ->]];
             try rewrite ChatRouteFacts.OpenAIStream_text;
             intros H; inversion H; right; exists toolCall, args;
             (split; [reflexivity | split; [exact Hid | reflexivity]]).
      * intros H; inversion H. now left.
    + intros H; inversion H. now left.
  - destruct (model_plain _) as [t |].
    + rewrite ChatRouteFacts.OpenAIStream_text. intros H; inversion H. now left.
    + intros H; inversion H. now left.
Qed.

(** X4.  Outside SETUP mode, that is for any [type] other than
    ["generate"], a request makes exactly one completion request, which
    carries the system prompt and the conversation and offers no tool; the
    tool is never executed, whatever the history and whatever the model. *)
Theorem no_tool_outside_setup fuel body :
  (type body =? "generate") = false ->
  exists resp,
    post fuel body
    = Some ([ Completion
                {| req_messages :=
                     system_message (prompt_of body) :: messages body;
                   req_tools := None |} ],
            resp) /\
    (resp = Status500 "completion failed" \/
     exists t, resp = Streaming (Reply t)).
Proof.
  intros Htype. unfold POST, create. cbn [app req_tools req_messages].
  rewrite Htype. cbn [andb].
  destruct (model_plain _) as [t |].
  - rewrite ChatRouteFacts.OpenAIStream_text. eexists. split; [reflexivity |].
    right. now exists t.
  - eexists. split; [reflexivity |]. now left.
Qed.

(** X5.  The first completion request of a [POST] carries the system
    prompt and then the Messages of the request in their order, and
    nothing else.  Every later completion request, that is the follow-up,
    carries the system prompt, the same Messages in their order and then
    exactly the Messages that [appendToolCallMessage] returned for the
    recorded call, and offers no tool. *)
Theorem requests_carry_prompt_and_history fuel body log resp :
  POST setupPrompt interviewPrompt model_plain model_with_tools JSON_parse
    generateInterview appendToolCallMessage fuel body = Some (log, resp) ->
  exists first rest,
    log = Completion first :: rest /\
    req_messages first = system_message (prompt_of body) :: messages body /\
    forall req,
      In (Completion req) rest ->
      exists r,
        In (AppendToolCall r) rest /\
        req_messages req
        = system_message (prompt_of body)
            :: messages body ++ appendToolCallMessage r /\
        req_tools req = None.
Proof.
  intros Hpost.
  destruct (POST_log _ _ Hpost)
    as [-> | (toolCall & args & _ & _ & ->)].
  - do 2 eexists. split; [reflexivity |]. split; [reflexivity |].
    intros req [].
  - do 2 eexists. split; [reflexivity |]. split; [reflexivity |].
    intros req [Heq | [Heq | [Heq | []]]]; inversion Heq.
    eexists. split; [right; left; reflexivity |]. split; reflexivity.
Qed.

(** X6.  The user id an interview is generated for is the one of the
    request: every execution logged by a [POST] carries [userId] of the
    body. *)
Theorem execution_for_requesting_user fuel body log resp args :
  post fuel body = Some (log, resp) ->
  In (Generate args) log ->
  g_userid args = userId body /\
  shouldEnableTools (type body) (messages body) = true.
Proof.
  intros Hpost Hin.
  destruct (POST_log _ _ Hpost)
    as [-> | (toolCall & args' & Hen & Hid & ->)].
  - destruct Hin as [Heq | []]. discriminate.
  - destruct Hin as [Heq | [Heq | [Heq | [Heq | []]]]]; inversion Heq.
    subst. now split.
Qed.

(** X7.  A [POST] always completes, and the stream wrapper enters the
    callback at most once: with any fuel above zero the result is the one
    obtained with fuel one. *)
Theorem POST_needs_one_level fuel body :
  POST setupPrompt interviewPrompt model_plain model_with_tools JSON_parse
    generateInterview appendToolCallMessage (S fuel) body
  = POST setupPrompt interviewPrompt model_plain model_with_tools JSON_parse
      generateInterview appendToolCallMessage 1 body
  /\
  POST setupPrompt interviewPrompt model_plain model_with_tools JSON_parse
    generateInterview appendToolCallMessage 1 body <> None.
Proof.
  unfold POST, create. cbn [app req_tools req_messages].
  destruct ((type body =? "generate") && negb (hasToolCall (messages body))).
  - destruct (model_with_tools _ _) as [t | payload | e];
      try (split; [reflexivity | discriminate]).
    cbn [OpenAIStream]. unfold experimental_onToolCall.
    destruct (ptools payload) as [toolCalls |];
      [| split; [reflexivity | discriminate]].
    destruct (loop_log (prompt_of body) (messages body) (userId body)
                toolCalls
                [Completion
                   {| req_messages :=
                        system_message (prompt_of body) :: messages body;
                      req_tools := Some tools |}])
      as [(r & Heq & Hr) | (toolCall & args & r & _ & Heq & Hr)];
      rewrite Heq.
    + destruct r as [| s0 | newResponse |];
        try (split; [reflexivity | discriminate]).
      now destruct (Hr newResponse).
    + destruct Hr as [-> | [t ->]];
        rewrite ?ChatRouteFacts.OpenAIStream_text;
        (split; [reflexivity | discriminate]).
  - destruct (model_plain _) as [t |];
      (split; [reflexivity | discriminate]).
Qed.

End Route.

Lemma execution_record_witness :
  first_generate_entry crowded_payload = Some crowded_entry /\
  fn_of crowded_entry = Some crowded_fn /\
  name crowded_fn = "generate_interview" /\
  parsed_arguments toy_JSON_parse crowded_fn = Some (VObject interview_args) /\
  fst (experimental_onToolCall plain_model (eager_model (ArgObject []))
         toy_JSON_parse (fun _ => true) sdk_appendToolCallMessage
         "prompt" [user_msg "Hello"] "u1"
         {| ptools := Some crowded_payload |} [])
  = [] ++ [ Generate (params_of "u1" interview_args);
            AppendToolCall (appended_for crowded_entry true);
            Completion
              (followup_request sdk_appendToolCallMessage "prompt"
                 [user_msg "Hello"] (appended_for crowded_entry true)) ].
Proof.
  split; [reflexivity |]. split; [reflexivity |]. split; [reflexivity |].
  split; [reflexivity |].
  exact (@execution_record plain_model (eager_model (ArgObject []))
           toy_JSON_parse (fun _ => true) sdk_appendToolCallMessage
           "prompt" [user_msg "Hello"] "u1" crowded_payload crowded_entry
           crowded_fn interview_args [] eq_refl eq_refl eq_refl eq_refl).
Defined.

Lemma arguments_edge_cases_witness :
  first_generate_entry [null_entry] = Some null_entry /\
  fn_of null_entry = Some null_fn /\
  name null_fn = "generate_interview" /\
  parsed_arguments toy_JSON_parse null_fn = Some VNull /\
  experimental_onToolCall plain_model (eager_model (ArgObject []))
    toy_JSON_parse (fun _ => true) sdk_appendToolCallMessage
    "prompt" [user_msg "Hello"] "u1" {| ptools := Some [null_entry] |} []
  = ([], HThrows).
Proof.
  split; [reflexivity |]. split; [reflexivity |]. split; [reflexivity |].
  split; [reflexivity |].
  exact (proj1 (proj2
           (@arguments_edge_cases plain_model (eager_model (ArgObject []))
              toy_JSON_parse (fun _ => true) sdk_appendToolCallMessage
              "prompt" [user_msg "Hello"] "u1" [null_entry] null_entry
              null_fn [] eq_refl eq_refl eq_refl)) eq_refl).
Defined.

Lemma no_tool_outside_setup_witness :
  (type (interview_body [user_msg "Hello"]) =? "generate") = false /\
  exists resp,
    POST toy_prompt toy_prompt2 plain_model
      (eager_model (ArgObject interview_args)) toy_JSON_parse (fun _ => true)
      sdk_appendToolCallMessage 0 (interview_body [user_msg "Hello"])
    = Some ([ Completion
                {| req_messages :=
                     system_message
                       (systemPrompt toy_prompt toy_prompt2
                          (type (interview_body [user_msg "Hello"]))
                          (userName (interview_body [user_msg "Hello"]))
                          (questions (interview_body [user_msg "Hello"])))
                       :: messages (interview_body [user_msg "Hello"]);
                   req_tools := None |} ],
            resp) /\
    (resp = Status500 "completion failed" \/
     exists t, resp = Streaming (Reply t)).
Proof.
  split; [reflexivity |].
  exact (@no_tool_outside_setup toy_prompt toy_prompt2 plain_model
           (eager_model (ArgObject interview_args)) toy_JSON_parse
           (fun _ => true) sdk_appendToolCallMessage 0
           (interview_body [user_msg "Hello"]) eq_refl).
Defined.

Lemma forged_post :
  POST toy_prompt toy_prompt2 plain_model
    (eager_model (ArgObject forged_args)) toy_JSON_parse (fun _ => true)
    sdk_appendToolCallMessage 1 (setup_body [user_msg "Hello"])
  = Some (forged_log, Streaming (Reply "Done.")).
Proof. reflexivity. Qed.

Lemma requests_carry_prompt_and_history_witness :
  POST toy_prompt toy_prompt2 plain_model
    (eager_model (ArgObject forged_args)) toy_JSON_parse (fun _ => true)
    sdk_appendToolCallMessage 1 (setup_body [user_msg "Hello"])
  = Some (forged_log, Streaming (Reply "Done.")) /\
  exists first rest,
    forged_log = Completion first :: rest /\
    req_messages first
    = system_message
        (systemPrompt toy_prompt toy_prompt2
           (type (setup_body [user_msg "Hello"]))
           (userName (setup_body [user_msg "Hello"]))
           (questions (setup_body [user_msg "Hello"])))
        :: messages (setup_body [user_msg "Hello"]) /\
    forall req,
      In (Completion req) rest ->
      exists r,
        In (AppendToolCall r) rest /\
        req_messages req
        = system_message
            (systemPrompt toy_prompt toy_prompt2
               (type (setup_body [user_msg "Hello"]))
               (userName (setup_body [user_msg "Hello"]))
               (questions (setup_body [user_msg "Hello"])))
            :: messages (setup_body [user_msg "Hello"])
                 ++ sdk_appendToolCallMessage r /\
        req_tools req = None.
Proof.
  split; [exact forged_post |].
  exact (@requests_carry_prompt_and_history toy_prompt toy_prompt2 plain_model
           (eager_model (ArgObject forged_args)) toy_JSON_parse
           (fun _ => true) sdk_appendToolCallMessage 1
           (setup_body [user_msg "Hello"]) forged_log
           (Streaming (Reply "Done.")) forged_post).
Defined.

Lemma execution_for_requesting_user_witness :
  POST toy_prompt toy_prompt2 plain_model
    (eager_model (ArgObject forged_args)) toy_JSON_parse (fun _ => true)
    sdk_appendToolCallMessage 1 (setup_body [user_msg "Hello"])
  = Some (forged_log, Streaming (Reply "Done.")) /\
  In (Generate (params_of "u1" forged_args)) forged_log /\
  g_userid (params_of "u1" forged_args) = userId (setup_body [user_msg "Hello"])
  /\ shouldEnableTools (type (setup_body [user_msg "Hello"]))
       (messages (setup_body [user_msg "Hello"])) = true.
Proof.
  assert (Hin : In (Generate (params_of "u1" forged_args)) forged_log)
    by (cbn; auto).
  split; [exact forged_post |]. split; [exact Hin |].
  exact (@execution_for_requesting_user toy_prompt toy_prompt2 plain_model
           (eager_model (ArgObject forged_args)) toy_JSON_parse
           (fun _ => true) sdk_appendToolCallMessage 1
           (setup_body [user_msg "Hello"]) forged_log
           (Streaming (Reply "Done.")) _ forged_post Hin).
Defined.

(** The forged [userid] and [type] of the arguments are not used: the
    type of the interview is the [focus]. *)
Example forged_fields_ignored :
  g_userid (params_of "u1" forged_args) = "u1" /\
  g_type (params_of "u1" forged_args) = Some "Behavioural".
Proof. split; reflexivity. Qed.

Example crowded_payload_executes_once :
  fst (for_toolCalls plain_model (eager_model (ArgObject [])) toy_JSON_parse
         (fun _ => true) sdk_appendToolCallMessage
         "prompt" [] "u1" crowded_payload [])
  = [ Generate (params_of "u1" interview_args);
      AppendToolCall (appended_for
                        {| pid := "call_2"; pfunc := None; pfunction := None |}
                        true);
      Completion (followup_request sdk_appendToolCallMessage "prompt" []
                    (appended_for
                       {| pid := "call_2"; pfunc := None; pfunction := None |}
                       true)) ].
Proof. reflexivity. Qed.

End ChatRouteExtra.

(* ================================================================== *)
(** * Further facts about the Agent component                          *)
(* ================================================================== *)

Module AgentExtra.
Import JS Agent AgentMore AgentFacts.
Local Open Scope list_scope.

Lemma nth_error_update_nth {A} (f : A -> A) l :
  forall n x, nth_error l n = Some x ->
              nth_error (update_nth n f l) n = Some (f x).
Proof.
  induction l as [| a l IH]; intros [| n] x H; cbn in *; try discriminate.
  - now inversion H.
  - now apply IH.
Qed.

Lemma update_nth_twice {A} (f g : A -> A) l :
  forall n, update_nth n f (update_nth n g l)
            = update_nth n (fun x => f (g x)) l.
Proof.
  induction l as [| a l IH]; intros [| n]; cbn; try reflexivity.
  now rewrite IH.
Qed.

Lemma update_nth_ext {A} (f g : A -> A) l :
  (forall x, f x = g x) ->
  forall n, update_nth n f l = update_nth n g l.
Proof.
  intros Hfg. induction l as [| a l IH]; intros [| n]; cbn; try reflexivity.
  - now rewrite Hfg.
  - now rewrite IH.
Qed.

Lemma handleDisconnect_cleanup_of props r s :
  handleDisconnect props r s = cleanup (disconnect_navigation props r s).
Proof. reflexivity. Qed.

(** The first block of [handleDisconnect] holds no resource. *)
Lemma disconnect_navigation_keeps props r s :
  refs (disconnect_navigation props r s) = refs s /\
  sockets (world (disconnect_navigation props r s)) = sockets (world s) /\
  recorders (world (disconnect_navigation props r s)) = recorders (world s) /\
  streams (world (disconnect_navigation props r s)) = streams (world s) /\
  audios (world (disconnect_navigation props r s)) = audios (world s).
Proof.
  unfold disconnect_navigation. repeat break_match; repeat split; reflexivity.
Qed.

Ltac blocks :=
  lazy beta iota zeta delta
    [cleanup disconnect_stream disconnect_recorder disconnect_socket
     disconnect_audio
     pause removeAttribute_src socket_close stopRecording stop_tracks
     setCallStatus setIsSpeaking set_socketRef set_recorderRef set_streamRef
     set_sockets set_recorders set_streams set_audios
     on_hooks on_refs on_world
     hooks refs world callStatus isSpeaking lastMessage messages isLoading
     socketRef recorderRef streamRef silenceTimeoutRef accumulatedTextRef
     lastSpokenMessageRef audioRef now sockets recorders streams audios
     tts_inflight token_inflight mic_inflight feedback_inflight log].

Lemma cleanup_released s : released s (cleanup s).
Proof.
  destruct s as [h [so re st si ac ls au] [nw sk rc sm ad ti tk mi fi lg]].
  unfold released.
  destruct au as [a |], so as [i |], re as [k |], st as [m |]; blocks;
    repeat split; try reflexivity; intros;
    repeat match goal with
           | H : Some _ = Some _ |- _ => inversion H; subst; clear H
           | H : None = Some _ |- _ => discriminate H
           end;
    rewrite ?update_nth_twice;
    try (erewrite nth_error_update_nth by eassumption; reflexivity).
  all: erewrite nth_error_update_nth by eassumption;
    eexists; split; [reflexivity |]; split; [| reflexivity];
    unfold closing; cbn; destruct (readyState x); auto.
Qed.

(** X8.  Whatever the state and the render, [handleDisconnect] leaves the
    session FINISHED and not speaking, with no socket, recorder or stream
    referenced; the socket it referenced is closing or closed, its frames
    untouched; the recorder it referenced no longer records; the tracks of
    the stream it referenced are stopped; and the clip it referenced is
    paused, without source. *)
Theorem disconnect_releases props r s :
  released s (handleDisconnect props r s).
Proof.
  rewrite handleDisconnect_cleanup_of.
  destruct (disconnect_navigation_keeps props r s)
    as (Hrefs & Hsock & Hrec & Hstr & Haud).
  pose proof (cleanup_released (disconnect_navigation props r s)) as H.
  unfold released in *. rewrite Hrefs, Hsock, Hrec, Hstr, Haud in H.
  exact H.
Qed.

Lemma cleanup_twice s : cleanup (cleanup s) = cleanup s.
Proof.
  destruct s as [h [so re st si ac ls au] [nw sk rc sm ad ti tk mi fi lg]].
  destruct au as [a |], so as [i |], re as [k |], st as [m |]; blocks;
    try reflexivity;
    do 2 f_equal; rewrite !update_nth_twice; apply update_nth_ext;
    intros x; reflexivity.
Qed.

(** X9.  The shutdown is idempotent: once [handleDisconnect] has run, a
    further run by a render that sees no call in progress (the clean-up of
    the unmount, whose render is the first one) changes nothing: no second
    hand-off, no navigation, no resource touched. *)
Theorem disconnect_idempotent props r1 r2 s :
  not_live r2 ->
  handleDisconnect props r2 (handleDisconnect props r1 s)
  = handleDisconnect props r1 s.
Proof.
  intros Hr2.
  rewrite (handleDisconnect_cleanup_of props r2).
  assert (Hnav : forall x, disconnect_navigation props r2 x = x)
    by (intros x; unfold disconnect_navigation;
        destruct Hr2 as [-> | ->]; reflexivity).
  rewrite Hnav, handleDisconnect_cleanup_of. apply cleanup_twice.
Qed.

Lemma disconnect_idempotent_witness :
  not_live first_render /\
  handleDisconnect interview_props first_render
    (handleDisconnect interview_props end_render
       (recording_call interview_props))
  = handleDisconnect interview_props end_render
      (recording_call interview_props).
Proof.
  assert (H : not_live first_render) by (left; reflexivity).
  split; [exact H |].
  exact (@disconnect_idempotent interview_props end_render first_render
           (recording_call interview_props) H).
Defined.

(** The End button and then the unmount: one hand-off. *)
Example end_then_unmount_hands_off_once :
  hand_offs (run interview_props [ClickEnd; Unmount]
               (recording_call interview_props))
  = [[user_message (lit "Hello")]].
Proof. vm_compute. reflexivity. Qed.

(** ** Transcripts *)

(** X10.  A message of the transcription channel that is not a
    [FinalTranscript], or whose text is blank, changes nothing: it neither
    accumulates nor restarts the silence timer. *)
Theorem transcript_message_ignored props socket m s :
  message_type m <> "FinalTranscript"%string \/ blank (text m) = true ->
  step props (SocketMessage socket m) s = s.
Proof.
  intros Hm.
  assert (Hh : handle props (SocketMessage socket m) s = s).
  { cbn [handle]. unfold socket_onmessage, string_eqb.
    destruct (nth_error _ _) as [x |]; [| reflexivity].
    destruct Hm as [Hm | Hm].
    - apply String.eqb_neq in Hm. rewrite Hm.
      destruct (readyState x); reflexivity.
    - rewrite (JSFacts.trim_blank _ Hm).
      destruct (String.eqb _ _); destruct (readyState x); reflexivity. }
  rewrite step_same_chat; rewrite Hh; reflexivity.
Qed.

Lemma transcript_message_ignored_witness :
  (message_type (partial (lit "hel")) <> "FinalTranscript"%string \/
   blank (text (partial (lit "hel"))) = true) /\
  step interview_props (SocketMessage 0 (partial (lit "hel")))
    (active_call interview_props)
  = active_call interview_props.
Proof.
  assert (H : message_type (partial (lit "hel")) <> "FinalTranscript"%string \/
              blank (text (partial (lit "hel"))) = true)
    by (left; discriminate).
  split; [exact H |].
  exact (@transcript_message_ignored interview_props 0 (partial (lit "hel"))
           (active_call interview_props) H).
Defined.

(** ** The opening of the call *)

(** X11.  When the socket of a call opens, the session becomes ACTIVE, the
    microphone is requested for that socket, and the greeting ["Hello"] is
    appended as a USER Message exactly when the conversation seen by the
    render that started the call was empty. *)
Theorem socket_open_starts_call props socket x s :
  nth_error (sockets (world s)) socket = Some x ->
  readyState x = WS_CONNECTING ->
  callStatus (hooks (step props (SocketOpen socket) s)) = ACTIVE /\
  socket_open socket (step props (SocketOpen socket) s) /\
  mic_inflight (world (step props (SocketOpen socket) s))
    = mic_inflight (world s) ++ [socket] /\
  appended (step props (SocketOpen socket) s)
    = appended s ++ greeting (closure x) /\
  messages (hooks (step props (SocketOpen socket) s))
    = messages (hooks s) ++ greeting (closure x).
Proof.
  intros Hx Hstate.
  assert (Hopen : forall y, sockets (world y) = sockets (world s) ->
                            socket_open socket (set_readyState socket WS_OPEN y)).
  { intros y Hy. exists {| readyState := WS_OPEN; closure := closure x;
                           frames := frames x |}.
    split; [| reflexivity]. unfold set_readyState. updates. rewrite Hy.
    now rewrite (nth_error_update_nth _ _ _ Hx). }
  unfold step. cbn [handle]. rewrite Hx, Hstate.
  unfold socket_onopen, greeting.
  destruct (r_messages (closure x)) as [| m0 ms].
  - cbn [List.length Nat.eqb].
    set (s1 := append _ _).
    assert (Hm : messages (hooks s1)
                 = messages (hooks s) ++ [user_message (lit "Hello")])
      by reflexivity.
    rewrite Hm, messages_eqb_snoc. cbn [andb].
    rewrite (tts_effect_user props s1 (messages (hooks s)) (lit "Hello") Hm).
    split; [reflexivity |]. split.
    + destruct (Hopen s eq_refl) as (y & Hy & Hready).
      exists y. split; [exact Hy | exact Hready].
    + split; [reflexivity |]. split; [| exact Hm].
      unfold appended. subst s1. updates. rewrite flat_map_app. reflexivity.
  - cbn [List.length Nat.eqb].
    set (s1 := startRecording _ _).
    assert (Hm : messages (hooks s1) = messages (hooks s)) by reflexivity.
    assert (Hl : isLoading (hooks s1) = isLoading (hooks s)) by reflexivity.
    rewrite Hm, Hl, messages_eqb_refl, Bool.eqb_reflx. cbn [andb].
    rewrite !app_nil_r.
    split; [reflexivity |]. split.
    + destruct (Hopen s eq_refl) as (y & Hy & Hready).
      exists y. split; [exact Hy | exact Hready].
    + repeat split; reflexivity.
Qed.

Lemma socket_open_starts_call_witness :
  nth_error (sockets (world (connecting_call interview_props))) 0
    = Some connecting_socket /\
  readyState connecting_socket = WS_CONNECTING /\
  callStatus (hooks (step interview_props (SocketOpen 0)
                       (connecting_call interview_props))) = ACTIVE /\
  socket_open 0 (step interview_props (SocketOpen 0)
                   (connecting_call interview_props)) /\
  mic_inflight (world (step interview_props (SocketOpen 0)
                         (connecting_call interview_props)))
    = mic_inflight (world (connecting_call interview_props)) ++ [0] /\
  appended (step interview_props (SocketOpen 0)
              (connecting_call interview_props))
    = appended (connecting_call interview_props)
        ++ greeting (closure connecting_socket) /\
  messages (hooks (step interview_props (SocketOpen 0)
                     (connecting_call interview_props)))
    = messages (hooks (connecting_call interview_props))
        ++ greeting (closure connecting_socket).
Proof.
  assert (H : nth_error (sockets (world (connecting_call interview_props))) 0
              = Some connecting_socket) by (vm_compute; reflexivity).
  split; [exact H |]. split; [reflexivity |].
  exact (@socket_open_starts_call interview_props 0 connecting_socket
           (connecting_call interview_props) H eq_refl).
Defined.

(** ** Speech synthesis *)

Lemma alerts_emit e s :
  alerts (emit e s)
  = alerts s ++ match e with Alert a => [a] | _ => [] end.
Proof.
  unfold alerts. updates. rewrite flat_map_app.
  destruct e; cbn [flat_map app]; now rewrite ?app_nil_r.
Qed.

Lemma filter_playing_snoc l x :
  filter playing (l ++ [x])
  = filter playing l ++ (if playing x then [x] else []).
Proof. now rewrite filter_app. Qed.

Lemma update_nth_length {A} (f : A -> A) l x :
  update_nth (List.length l) f (l ++ [x]) = l ++ [f x].
Proof. induction l as [| a l IH]; cbn; [reflexivity | now rewrite IH]. Qed.

(** X12.  A synthesis that fails, by a response that is not OK, by a
    rejected request or by a rejected [play()], is reported by one alert
    and is local to its turn: the request leaves the ones in flight, the
    speaking flag goes down, no clip becomes audible, and the status of the
    session, the conversation and the loading flag are as before. *)
Theorem synthesis_failure_is_local props k text res a s :
  nth_error (tts_inflight (world s)) k = Some text ->
  failure_alert res = Some a ->
  alerts (step props (TtsSettled k res) s) = alerts s ++ [a] /\
  audible (step props (TtsSettled k res) s) = audible s /\
  isSpeaking (hooks (step props (TtsSettled k res) s)) = false /\
  tts_inflight (world (step props (TtsSettled k res) s))
    = remove_nth k (tts_inflight (world s)) /\
  callStatus (hooks (step props (TtsSettled k res) s)) = callStatus (hooks s) /\
  messages (hooks (step props (TtsSettled k res) s)) = messages (hooks s) /\
  isLoading (hooks (step props (TtsSettled k res) s)) = isLoading (hooks s).
Proof.
  intros Hk Hres.
  assert (Hm : messages (hooks (handle props (TtsSettled k res) s))
               = messages (hooks s) /\
               isLoading (hooks (handle props (TtsSettled k res) s))
               = isLoading (hooks s)).
  { cbn [handle]. unfold playTTS_resume. rewrite Hk.
    destruct res as [[|] | st e |]; split; reflexivity. }
  rewrite (step_same_chat _ _ _ (proj1 Hm) (proj2 Hm)).
  cbn [handle]. unfold playTTS_resume. rewrite Hk.
  destruct res as [[|] | st e |]; cbn in Hres; inversion Hres; subst a;
    cbv zeta; rewrite ?alerts_emit; unfold alerts, audible; updates;
    rewrite ?flat_map_app, ?filter_playing_snoc; cbn [flat_map app playing];
    rewrite ?app_nil_r; repeat split; reflexivity.
Qed.

Lemma synthesis_failure_is_local_witness :
  nth_error (tts_inflight (world (speaking_call interview_props))) 0
    = Some understood /\
  failure_alert (TtsNotOk 500 (lit "Failed")) = Some (TtsError 500 (lit "Failed"))
  /\
  alerts (step interview_props (TtsSettled 0 (TtsNotOk 500 (lit "Failed")))
            (speaking_call interview_props))
    = alerts (speaking_call interview_props) ++ [TtsError 500 (lit "Failed")] /\
  audible (step interview_props (TtsSettled 0 (TtsNotOk 500 (lit "Failed")))
             (speaking_call interview_props))
    = audible (speaking_call interview_props) /\
  isSpeaking (hooks (step interview_props
                       (TtsSettled 0 (TtsNotOk 500 (lit "Failed")))
                       (speaking_call interview_props))) = false /\
  tts_inflight (world (step interview_props
                         (TtsSettled 0 (TtsNotOk 500 (lit "Failed")))
                         (speaking_call interview_props)))
    = remove_nth 0 (tts_inflight (world (speaking_call interview_props))) /\
  callStatus (hooks (step interview_props
                       (TtsSettled 0 (TtsNotOk 500 (lit "Failed")))
                       (speaking_call interview_props)))
    = callStatus (hooks (speaking_call interview_props)) /\
  messages (hooks (step interview_props
                     (TtsSettled 0 (TtsNotOk 500 (lit "Failed")))
                     (speaking_call interview_props)))
    = messages (hooks (speaking_call interview_props)) /\
  isLoading (hooks (step interview_props
                      (TtsSettled 0 (TtsNotOk 500 (lit "Failed")))
                      (speaking_call interview_props)))
    = isLoading (hooks (speaking_call interview_props)).
Proof.
  assert (H : nth_error (tts_inflight (world (speaking_call interview_props))) 0
              = Some understood) by (vm_compute; reflexivity).
  split; [exact H |]. split; [reflexivity |].
  exact (@synthesis_failure_is_local interview_props 0 understood
           (TtsNotOk 500 (lit "Failed")) (TtsError 500 (lit "Failed"))
           (speaking_call interview_props) H eq_refl).
Defined.

(** X13.  A synthesis response that is OK and whose [play()] resolves
    makes its clip audible, whatever the status of the session: the clip
    is added to the audible ones, none of which is stopped, and becomes the
    one [audioRef] holds. *)
Theorem synthesis_response_starts_clip props k text s :
  nth_error (tts_inflight (world s)) k = Some text ->
  audible (step props (TtsSettled k (TtsOk true)) s) = audible s ++ [text] /\
  audioRef (refs (step props (TtsSettled k (TtsOk true)) s))
    = Some (List.length (audios (world s))) /\
  callStatus (hooks (step props (TtsSettled k (TtsOk true)) s))
    = callStatus (hooks s).
Proof.
  intros Hk.
  assert (Hm : messages (hooks (handle props (TtsSettled k (TtsOk true)) s))
               = messages (hooks s) /\
               isLoading (hooks (handle props (TtsSettled k (TtsOk true)) s))
               = isLoading (hooks s)).
  { cbn [handle]. unfold playTTS_resume. rewrite Hk. split; reflexivity. }
  rewrite (step_same_chat _ _ _ (proj1 Hm) (proj2 Hm)).
  cbn [handle]. unfold playTTS_resume. rewrite Hk. cbv zeta.
  unfold audible. updates. rewrite update_nth_length, filter_playing_snoc.
  cbn [playing]. rewrite map_app. repeat split; reflexivity.
Qed.

Lemma synthesis_response_starts_clip_witness :
  nth_error (tts_inflight (world (playTTS interview_props understood
                                    ended_with_pending))) 0
    = Some understood /\
  callStatus (hooks (playTTS interview_props understood ended_with_pending))
    = FINISHED /\
  audible (step interview_props (TtsSettled 0 (TtsOk true))
             (playTTS interview_props understood ended_with_pending))
    = audible (playTTS interview_props understood ended_with_pending)
        ++ [understood] /\
  audioRef (refs (step interview_props (TtsSettled 0 (TtsOk true))
                    (playTTS interview_props understood ended_with_pending)))
    = Some (List.length
              (audios (world (playTTS interview_props understood
                                ended_with_pending)))) /\
  callStatus (hooks (step interview_props (TtsSettled 0 (TtsOk true))
                       (playTTS interview_props understood
                          ended_with_pending)))
    = callStatus (hooks (playTTS interview_props understood
                           ended_with_pending)).
Proof.
  assert (H : nth_error
                (tts_inflight (world (playTTS interview_props understood
                                        ended_with_pending))) 0
              = Some understood) by (vm_compute; reflexivity).
  split; [exact H |]. split; [vm_compute; reflexivity |].
  exact (@synthesis_response_starts_clip interview_props 0 understood
           (playTTS interview_props understood ended_with_pending) H).
Defined.

(** ** Audio capture *)

Lemma step_slice_open props recorder x ws result s :
  nth_error (recorders (world s)) recorder = Some x ->
  nth_error (sockets (world s)) (rec_socket x) = Some ws ->
  readyState ws = WS_OPEN ->
  step props (SliceEncoded recorder result) s
  = socket_send (rec_socket x) (frame_of result) s.
Proof.
  intros Hrec Hsock Hopen.
  assert (Hh : handle props (SliceEncoded recorder result) s
               = socket_send (rec_socket x) (frame_of result) s).
  { cbn [handle]. rewrite Hrec. unfold reader_onload.
    rewrite Hsock, Hopen. reflexivity. }
  rewrite step_same_chat; rewrite Hh; reflexivity.
Qed.

(** X14.  Slices whose encoding completes while the channel is OPEN are
    sent on it in the order in which they complete, one frame per slice,
    after the frames already sent; the channel stays OPEN. *)
Theorem frames_forwarded_in_order props recorder x results :
  forall s ws,
    nth_error (recorders (world s)) recorder = Some x ->
    nth_error (sockets (world s)) (rec_socket x) = Some ws ->
    readyState ws = WS_OPEN ->
    nth_error
      (sockets (world (run props (map (SliceEncoded recorder) results) s)))
      (rec_socket x)
    = Some {| readyState := WS_OPEN; closure := closure ws;
              frames := frames ws ++ map frame_of results |}.
Proof.
  induction results as [| result results IH]; intros s ws Hrec Hsock Hopen.
  - cbn. rewrite app_nil_r, Hsock. destruct ws. cbn in *. now subst.
  - cbn [map run]. rewrite (@step_slice_open props recorder x ws result s Hrec Hsock Hopen).
    set (s1 := socket_send _ _ s).
    assert (Hrec1 : nth_error (recorders (world s1)) recorder = Some x)
      by exact Hrec.
    assert (Hsock1 : nth_error (sockets (world s1)) (rec_socket x)
                     = Some {| readyState := readyState ws;
                               closure := closure ws;
                               frames := frames ws ++ [frame_of result] |}).
    { subst s1. unfold socket_send. updates.
      now rewrite (nth_error_update_nth _ _ _ Hsock). }
    rewrite (IH s1 _ Hrec1 Hsock1 Hopen). cbn [closure frames].
    now rewrite <- app_assoc.
Qed.

Lemma frames_forwarded_in_order_witness :
  nth_error (recorders (world (recording_call interview_props))) 0
    = Some slice_recorder /\
  nth_error (sockets (world (recording_call interview_props)))
    (rec_socket slice_recorder) = Some slice_socket /\
  readyState slice_socket = WS_OPEN /\
  nth_error
    (sockets (world (run interview_props (map (SliceEncoded 0) three_slices)
                       (recording_call interview_props))))
    (rec_socket slice_recorder)
  = Some {| readyState := WS_OPEN; closure := closure slice_socket;
            frames := frames slice_socket ++ map frame_of three_slices |}.
Proof.
  assert (Hrec : nth_error (recorders (world (recording_call interview_props))) 0
                 = Some slice_recorder) by (vm_compute; reflexivity).
  assert (Hsock : nth_error (sockets (world (recording_call interview_props)))
                    (rec_socket slice_recorder) = Some slice_socket)
    by (vm_compute; reflexivity).
  split; [exact Hrec |]. split; [exact Hsock |]. split; [reflexivity |].
  exact (@frames_forwarded_in_order interview_props 0 slice_recorder
           three_slices (recording_call interview_props) slice_socket
           Hrec Hsock eq_refl).
Defined.

Lemma split_comma_no_comma s :
  has_comma s = false -> split_comma s = [s].
Proof.
  induction s as [| c s IH]; intros H; [reflexivity |].
  unfold has_comma in H. cbn [existsb] in H.
  apply orb_false_iff in H as [Hc Hs].
  cbn [split_comma]. rewrite N.eqb_sym, Hc.
  unfold has_comma in IH. now rewrite (IH Hs).
Qed.

Lemma split_comma_prefix prefix rest :
  has_comma prefix = false ->
  split_comma (prefix ++ comma :: rest) = prefix :: split_comma rest.
Proof.
  induction prefix as [| c prefix IH]; intros H; [reflexivity |].
  unfold has_comma in H. cbn [existsb] in H.
  apply orb_false_iff in H as [Hc Hs].
  cbn [app split_comma]. rewrite N.eqb_sym, Hc.
  unfold has_comma in IH. now rewrite (IH Hs).
Qed.

(** X15.  The payload of a frame is what follows the first comma of the
    reader's result, up to the next comma: for a data URL whose header and
    base64 data hold no comma it is the base64 data; for a result without
    any comma the payload is undefined. *)
Theorem frame_payload header data result :
  has_comma header = false ->
  has_comma data = false ->
  has_comma result = false ->
  frame_of (header ++ comma :: data) = {| audio_data := Some data |} /\
  frame_of result = {| audio_data := None |}.
Proof.
  intros Hh Hd Hr. unfold frame_of. split.
  - now rewrite (@split_comma_prefix header data Hh),
      (@split_comma_no_comma data Hd).
  - now rewrite (@split_comma_no_comma result Hr).
Qed.

Lemma frame_payload_witness :
  has_comma (lit "data:audio/wav;base64") = false /\
  has_comma (lit "UklG") = false /\
  has_comma (lit "blob") = false /\
  frame_of (lit "data:audio/wav;base64" ++ comma :: lit "UklG")
    = {| audio_data := Some (lit "UklG") |} /\
  frame_of (lit "blob") = {| audio_data := None |}.
Proof.
  split; [reflexivity |]. split; [reflexivity |]. split; [reflexivity |].
  exact (@frame_payload (lit "data:audio/wav;base64") (lit "UklG") (lit "blob")
           eq_refl eq_refl eq_refl).
Defined.

(** ** The microphone *)

(** X16.  The settlement of a microphone request.  A refusal is silent:
    no alert, no recorder and no stream, and the status of the session is
    as before, so that a call stays ACTIVE without recording.  A grant
    starts a recorder on the socket the request was made for and makes it
    and its stream the current ones, whatever the status of the session
    has become since the request: also after the call has ended. *)
Theorem microphone_settlement props k socket granted s :
  nth_error (mic_inflight (world s)) k = Some socket ->
  callStatus (hooks (step props (MicrophoneSettled k granted) s))
  = callStatus (hooks s) /\
  alerts (step props (MicrophoneSettled k granted) s) = alerts s /\
  recorders (world (step props (MicrophoneSettled k granted) s))
  = recorders (world s)
      ++ (if granted then [{| rec_socket := socket; recording := true |}]
          else []) /\
  streams (world (step props (MicrophoneSettled k granted) s))
  = streams (world s) ++ (if granted then [true] else []) /\
  recorderRef (refs (step props (MicrophoneSettled k granted) s))
  = (if granted then Some (List.length (recorders (world s)))
     else recorderRef (refs s)) /\
  streamRef (refs (step props (MicrophoneSettled k granted) s))
  = (if granted then Some (List.length (streams (world s)))
     else streamRef (refs s)).
Proof.
  intros Hk.
  assert (Hm : messages
                 (hooks (handle props (MicrophoneSettled k granted) s))
               = messages (hooks s) /\
               isLoading
                 (hooks (handle props (MicrophoneSettled k granted) s))
               = isLoading (hooks s)).
  { cbn [handle]. unfold startRecording_resume. rewrite Hk.
    destruct granted; split; reflexivity. }
  rewrite (step_same_chat _ _ _ (proj1 Hm) (proj2 Hm)).
  cbn [handle]. unfold startRecording_resume. rewrite Hk.
  destruct granted; cbv zeta; rewrite ?alerts_emit; unfold alerts; updates;
    rewrite ?app_nil_r; repeat split; reflexivity.
Qed.

Lemma microphone_settlement_witness :
  nth_error (mic_inflight (world ended_before_grant)) 0 = Some 0 /\
  callStatus (hooks ended_before_grant) = FINISHED /\
  callStatus
    (hooks (step interview_props (MicrophoneSettled 0 true)
              ended_before_grant))
  = callStatus (hooks ended_before_grant) /\
  alerts (step interview_props (MicrophoneSettled 0 true) ended_before_grant)
  = alerts ended_before_grant /\
  recorders
    (world (step interview_props (MicrophoneSettled 0 true)
              ended_before_grant))
  = recorders (world ended_before_grant)
      ++ [{| rec_socket := 0; recording := true |}] /\
  streams
    (world (step interview_props (MicrophoneSettled 0 true)
              ended_before_grant))
  = streams (world ended_before_grant) ++ [true] /\
  recorderRef
    (refs (step interview_props (MicrophoneSettled 0 true)
             ended_before_grant))
  = Some (List.length (recorders (world ended_before_grant))) /\
  streamRef
    (refs (step interview_props (MicrophoneSettled 0 true)
             ended_before_grant))
  = Some (List.length (streams (world ended_before_grant))).
Proof.
  assert (H : nth_error (mic_inflight (world ended_before_grant)) 0 = Some 0)
    by (vm_compute; reflexivity).
  split; [exact H |]. split; [vm_compute; reflexivity |].
  exact (@microphone_settlement interview_props 0 0 true ended_before_grant
           H).
Defined.

End AgentExtra.

(* ================================================================== *)
(** * The token and synthesis routes, and the Agent as their client    *)
(* ================================================================== *)

Module RoutesExtra.
Import JS Agent AgentMore AgentFacts AgentExtra TokenRoute TtsRoute.
Local Open Scope string_scope.
Local Open Scope list_scope.

(** ** The token route *)

(** X17.  The token route answers with a token exactly when a non-empty
    API key is configured and the transcription service issues a token for
    that key with a life of 3600 seconds; the answer is then 200 with that
    token and no error.  In every other case the answer is 500 with a
    non-empty error and no token. *)
Theorem token_route_outcomes key sdk :
  (forall t,
     token (GET key sdk) = Some t <->
     exists apiKey,
       key = Some apiKey /\ truthy apiKey = true /\ sdk apiKey 3600 = Some t)
  /\
  (forall t,
     token (GET key sdk) = Some t ->
     status (GET key sdk) = 200 /\ error (GET key sdk) = None)
  /\
  (token (GET key sdk) = None ->
   status (GET key sdk) = 500 /\
   option_truthy (error (GET key sdk)) = true).
Proof.
  unfold GET. repeat split.
  - destruct key as [apiKey |]; [| discriminate].
    destruct (truthy apiKey) eqn:Hkey; [| discriminate].
    destruct (sdk apiKey 3600) eqn:Hsdk; [| discriminate].
    cbn. intros H. injection H as <-. now exists apiKey.
  - intros (apiKey & -> & Hkey & Hsdk). now rewrite Hkey, Hsdk.
  - destruct key as [apiKey |]; [| discriminate H].
    destruct (truthy apiKey); [| discriminate H].
    destruct (sdk apiKey 3600); [reflexivity | discriminate H].
  - destruct key as [apiKey |]; [| discriminate H].
    destruct (truthy apiKey); [| discriminate H].
    destruct (sdk apiKey 3600); [reflexivity | discriminate H].
  - destruct key as [apiKey |]; [| reflexivity].
    destruct (truthy apiKey); [| reflexivity].
    destruct (sdk apiKey 3600); [discriminate H | reflexivity].
  - destruct key as [apiKey |]; [| reflexivity].
    destruct (truthy apiKey); [| reflexivity].
    destruct (sdk apiKey 3600); [discriminate H | reflexivity].
Qed.

Lemma token_settled_chat props k res s :
  step props (TokenSettled k res) s = handleCall_resume k res s.
Proof.
  assert (Hm : messages (hooks (handle props (TokenSettled k res) s))
               = messages (hooks s) /\
               isLoading (hooks (handle props (TokenSettled k res) s))
               = isLoading (hooks s)).
  { cbn [handle]. unfold handleCall_resume, handleCall_catch.
    destruct (nth_error (token_inflight (world s)) k); [| now split].
    destruct res as [e t |]; [destruct (option_truthy e) |];
      split; reflexivity. }
  now rewrite (step_same_chat _ _ _ (proj1 Hm) (proj2 Hm)).
Qed.

(** X18.  The start of a call follows the answer of the token route.  When
    the route issues a token the Agent creates one socket, CONNECTING, that
    becomes the current one, raises no alert and leaves the status as it
    is.  When the route answers with an error the Agent creates no socket,
    keeps the current one, raises the alert of a failed start and sets the
    status back to INACTIVE. *)
Theorem call_start_follows_token_route props key sdk k r s :
  nth_error (token_inflight (world s)) k = Some r ->
  match token (GET key sdk) with
  | Some _ =>
      sockets (world (step props (TokenSettled k (fetched (GET key sdk))) s))
      = sockets (world s)
          ++ [{| readyState := WS_CONNECTING; closure := r; frames := [] |}]
      /\
      socketRef (refs (step props (TokenSettled k (fetched (GET key sdk))) s))
      = Some (List.length (sockets (world s)))
      /\
      callStatus
        (hooks (step props (TokenSettled k (fetched (GET key sdk))) s))
      = callStatus (hooks s)
      /\
      alerts (step props (TokenSettled k (fetched (GET key sdk))) s)
      = alerts s
  | None =>
      sockets (world (step props (TokenSettled k (fetched (GET key sdk))) s))
      = sockets (world s)
      /\
      socketRef (refs (step props (TokenSettled k (fetched (GET key sdk))) s))
      = socketRef (refs s)
      /\
      callStatus
        (hooks (step props (TokenSettled k (fetched (GET key sdk))) s))
      = INACTIVE
      /\
      alerts (step props (TokenSettled k (fetched (GET key sdk))) s)
      = alerts s ++ [ErrorStartingCall]
  end.
Proof.
  intros Hk. rewrite token_settled_chat.
  unfold handleCall_resume, fetched. rewrite Hk.
  unfold GET.
  destruct key as [apiKey |];
    [destruct (truthy apiKey);
     [destruct (sdk apiKey 3600) |] |];
    cbn [token error status missing_key failed option_truthy];
    try change (truthy (lit "Missing AssemblyAI API Key")) with true;
    try change (truthy (lit "Failed to generate token")) with true;
    cbv iota; unfold handleCall_catch; cbv zeta;
    rewrite ?alerts_emit; unfold alerts; updates;
    rewrite ?flat_map_app; cbn [flat_map app]; rewrite ?app_nil_r;
    repeat split; reflexivity.
Qed.

Lemma call_start_follows_token_route_witness :
  nth_error (token_inflight (world awaiting_token)) 0 = Some first_render /\
  token (GET None failing_sdk) = None /\
  callStatus (hooks awaiting_token) = CONNECTING /\
  callStatus
    (hooks (step interview_props
              (TokenSettled 0 (fetched (GET None failing_sdk)))
              awaiting_token))
  = INACTIVE.
Proof.
  assert (H : nth_error (token_inflight (world awaiting_token)) 0
              = Some first_render) by (vm_compute; reflexivity).
  split; [exact H |]. split; [reflexivity |].
  split; [vm_compute; reflexivity |].
  exact (proj1 (proj2 (proj2
           (@call_start_follows_token_route interview_props None failing_sdk
              0 first_render awaiting_token H)))).
Defined.

(** ** The synthesis route *)

(** The route's check of the text is the Agent's. *)
Lemma invalid_text_blank t : invalid_text (Some t) = blank t.
Proof.
  unfold invalid_text. destruct (blank t) eqn:Hb.
  - apply JSFacts.trim_nil in Hb. rewrite Hb. apply orb_true_r.
  - destruct t as [| c t]; [discriminate Hb |]. cbn [truthy negb orb].
    destruct (trim (c :: t)) eqn:Ht; [| reflexivity].
    apply JSFacts.trim_nil in Ht. congruence.
Qed.

Section Synthesis.

Variable key secret : option string.
Variable send : SynthesizeSpeechCommand -> PollyResult.

Local Abbreviation post := (tts_POST key secret send).

Lemma post_valid b t :
  string_truthy key = true ->
  string_truthy secret = true ->
  req_text b = Some t ->
  blank t = false ->
  post (RequestJson b)
  = let command :=
      {| Engine := "neural"; OutputFormat := "mp3"; Text := t;
         VoiceId := or_default (req_voiceId b) "Danielle" |} in
    ([command],
     match send command with
     | PollyThrows message code => polly_failed message code
     | PollyResponse None =>
         polly_failed (Some "No audio stream returned from AWS Polly") None
     | PollyResponse (Some bytes) =>
         {| tts_status := 200;
            tts_body := AudioBody bytes "audio/mpeg" (List.length bytes) |}
     end).
Proof.
  intros Hkey Hsecret Ht Hb. unfold tts_POST.
  rewrite Hkey, Hsecret, Ht, invalid_text_blank, Hb. cbn [negb orb].
  cbv zeta.
  destruct (send _) as [m c | [bytes |]]; reflexivity.
Qed.

Lemma post_silent request :
  string_truthy key = false \/ string_truthy secret = false \/
  (exists m, request = RequestThrows m) \/
  (exists b, request = RequestJson b /\ invalid_text (req_text b) = true) ->
  fst (post request) = [] /\ tts_status (snd (post request)) <> 200 /\
  (tts_status (snd (post request)) = 400 <->
   string_truthy key = true /\ string_truthy secret = true /\
   exists b, request = RequestJson b /\ invalid_text (req_text b) = true).
Proof.
  unfold tts_POST.
  destruct (string_truthy key) eqn:Hkey; cbn [negb orb];
    [| intros _; repeat split; try discriminate;
       intros (H & _); discriminate H].
  destruct (string_truthy secret) eqn:Hsecret; cbn [negb orb];
    [| intros _; repeat split; try discriminate;
       intros (_ & H & _); discriminate H].
  intros [H | [H | [(m & ->) | (b & -> & Hinv)]]];
    try discriminate H.
  - repeat split; try discriminate.
    intros (_ & _ & b & H & _). discriminate H.
  - destruct (req_text b) as [t |] eqn:Ht.
    + rewrite Hinv. repeat split; try discriminate.
      exists b. rewrite Ht. now split.
    + repeat split; try discriminate. exists b. rewrite Ht. now split.
Qed.

(** Every request is silent or valid. *)
Lemma request_cases request :
  (string_truthy key = false \/ string_truthy secret = false \/
   (exists m, request = RequestThrows m) \/
   (exists b, request = RequestJson b /\ invalid_text (req_text b) = true))
  \/
  (exists b t,
     request = RequestJson b /\ req_text b = Some t /\ blank t = false /\
     string_truthy key = true /\ string_truthy secret = true).
Proof.
  destruct (string_truthy key); [| now left; left].
  destruct (string_truthy secret); [| now left; right; left].
  destruct request as [b | m]; [| left; right; right; left; now exists m].
  destruct (req_text b) as [t |] eqn:Ht.
  - destruct (blank t) eqn:Hb.
    + left. right. right. right. exists b. split; [reflexivity |].
      now rewrite Ht, invalid_text_blank.
    + right. now exists b, t.
  - left. right. right. right. exists b. split; [reflexivity |].
    now rewrite Ht.
Qed.

Lemma refused_text request :
  tts_status (snd (post request)) = 400 ->
  exists b, request = RequestJson b /\ invalid_text (req_text b) = true.
Proof.
  destruct (request_cases request)
    as [Hsilent | (b & t & -> & Ht & Hb & Hkey & Hsecret)].
  - intros H. apply (proj2 (proj2 (post_silent Hsilent))) in H.
    exact (proj2 (proj2 H)).
  - rewrite (post_valid _ Hkey Hsecret Ht Hb). cbv zeta. cbn [snd].
    destruct (send _) as [m c | [bytes |]]; discriminate.
Qed.

(** X19.  The synthesis service is called at most once for a request, and
    only when both credentials are configured and the text of the request
    is a string with a character that is no white space.  The command then
    asks for the neural engine and MP3, carries the text as it came,
    untrimmed, and the requested voice, or Danielle when the request names
    none. *)
Theorem polly_called_only_for_valid_text request :
  fst (post request) = [] \/
  exists b t,
    request = RequestJson b /\ req_text b = Some t /\ blank t = false /\
    string_truthy key = true /\ string_truthy secret = true /\
    fst (post request)
    = [{| Engine := "neural"; OutputFormat := "mp3"; Text := t;
          VoiceId := or_default (req_voiceId b) "Danielle" |}].
Proof.
  destruct (request_cases request)
    as [Hsilent | (b & t & -> & Ht & Hb & Hkey & Hsecret)].
  - left. exact (proj1 (post_silent Hsilent)).
  - right. exists b, t. rewrite (post_valid _ Hkey Hsecret Ht Hb).
    repeat split; assumption.
Qed.

(** X20.  The status of the synthesis route.  It is 200 exactly when the
    service was called and returned an audio stream; the body is then that
    audio, typed audio/mpeg, with its number of bytes as the content
    length.  It is 400 exactly when the credentials are configured and the
    text of a readable request is missing, empty or only white space.  In
    every other case it is 500. *)
Theorem synthesis_status request :
  (tts_status (snd (post request)) = 200 <->
   exists command bytes,
     fst (post request) = [command] /\
     send command = PollyResponse (Some bytes) /\
     tts_body (snd (post request))
     = AudioBody bytes "audio/mpeg" (List.length bytes))
  /\
  (tts_status (snd (post request)) = 400 <->
   string_truthy key = true /\ string_truthy secret = true /\
   exists b, request = RequestJson b /\ invalid_text (req_text b) = true)
  /\
  (tts_status (snd (post request)) = 200 \/
   tts_status (snd (post request)) = 400 \/
   tts_status (snd (post request)) = 500).
Proof.
  destruct (request_cases request)
    as [Hsilent | (b & t & -> & Ht & Hb & Hkey & Hsecret)].
  - destruct (post_silent Hsilent) as (Hnone & H200 & H400).
    split; [| split; [exact H400 |]].
    + split; [intros H; contradiction |].
      intros (command & bytes & Hcall & _). rewrite Hnone in Hcall.
      discriminate Hcall.
    + clear H200 H400 Hnone. unfold tts_POST.
      destruct (string_truthy key); [| now right; right].
      destruct (string_truthy secret); [| now right; right].
      cbn [negb orb].
      destruct Hsilent as [H | [H | [(m & ->) | (b & -> & Hinv)]]];
        try discriminate H; [now right; right |].
      destruct (req_text b); [rewrite Hinv |]; now right; left.
  - rewrite (post_valid _ Hkey Hsecret Ht Hb). cbv zeta. cbn [fst snd].
    remember {| Engine := "neural"; OutputFormat := "mp3"; Text := t;
                VoiceId := or_default (req_voiceId b) "Danielle" |}
      as command eqn:Hcommand.
    assert (Hvalid : invalid_text (req_text b) = false)
      by now rewrite Ht, invalid_text_blank.
    split; [| split].
    + destruct (send command) as [m c | [bytes |]] eqn:Hsend;
        cbn [tts_status tts_body polly_failed].
      * split; [discriminate |].
        intros (command' & bytes & Hc & Hs & _).
        injection Hc as Hc. congruence.
      * split; [intros _; now exists command, bytes | intros _; reflexivity].
      * split; [discriminate |].
        intros (command' & bytes & Hc & Hs & _).
        injection Hc as Hc. congruence.
    + split.
      * destruct (send command) as [m c | [bytes |]]; discriminate.
      * intros (_ & _ & b' & Hreq & Hinv). injection Hreq as <-. congruence.
    + destruct (send command) as [m c | [bytes |]];
        [right; right | left | right; right]; reflexivity.
Qed.

End Synthesis.

(** ** The Agent as the client of the synthesis route *)

Lemma voice_never_defaults props :
  or_default (Some (Agent.voiceId props)) "Danielle" = Agent.voiceId props.
Proof. unfold Agent.voiceId. destruct (type props); reflexivity. Qed.

Lemma settled_not_ok props k text st e s :
  nth_error (tts_inflight (world s)) k = Some text ->
  audible (step props (TtsSettled k (TtsNotOk st e)) s) = audible s /\
  alerts (step props (TtsSettled k (TtsNotOk st e)) s)
  = alerts s ++ [TtsError st e].
Proof.
  intros Hk.
  assert (Hm : messages (hooks (handle props (TtsSettled k (TtsNotOk st e)) s))
               = messages (hooks s) /\
               isLoading
                 (hooks (handle props (TtsSettled k (TtsNotOk st e)) s))
               = isLoading (hooks s)).
  { cbn [handle]. unfold playTTS_resume. rewrite Hk. split; reflexivity. }
  rewrite (step_same_chat _ _ _ (proj1 Hm) (proj2 Hm)).
  cbn [handle]. unfold playTTS_resume. rewrite Hk. cbv zeta.
  rewrite ?alerts_emit. unfold alerts, audible. updates.
  rewrite ?flat_map_app. cbn [flat_map app]. rewrite ?app_nil_r.
  split; reflexivity.
Qed.

Lemma settled_ok props k text s :
  nth_error (tts_inflight (world s)) k = Some text ->
  audible (step props (TtsSettled k (TtsOk true)) s) = audible s ++ [text] /\
  alerts (step props (TtsSettled k (TtsOk true)) s) = alerts s.
Proof.
  intros Hk.
  assert (Hm : messages (hooks (handle props (TtsSettled k (TtsOk true)) s))
               = messages (hooks s) /\
               isLoading (hooks (handle props (TtsSettled k (TtsOk true)) s))
               = isLoading (hooks s)).
  { cbn [handle]. unfold playTTS_resume. rewrite Hk. split; reflexivity. }
  rewrite (step_same_chat _ _ _ (proj1 Hm) (proj2 Hm)).
  cbn [handle]. unfold playTTS_resume. rewrite Hk. cbv zeta.
  unfold audible, alerts. updates.
  rewrite update_nth_length, filter_playing_snoc.
  cbn [playing]. rewrite map_app. split; reflexivity.
Qed.

Lemma settled_play_rejected props k text s :
  nth_error (tts_inflight (world s)) k = Some text ->
  audible (step props (TtsSettled k (TtsOk false)) s) = audible s /\
  alerts (step props (TtsSettled k (TtsOk false)) s)
  = alerts s ++ [TtsException].
Proof.
  intros Hk.
  assert (Hm : messages (hooks (handle props (TtsSettled k (TtsOk false)) s))
               = messages (hooks s) /\
               isLoading
                 (hooks (handle props (TtsSettled k (TtsOk false)) s))
               = isLoading (hooks s)).
  { cbn [handle]. unfold playTTS_resume. rewrite Hk. split; reflexivity. }
  rewrite (step_same_chat _ _ _ (proj1 Hm) (proj2 Hm)).
  cbn [handle]. unfold playTTS_resume. rewrite Hk. cbv zeta.
  rewrite ?alerts_emit. unfold alerts, audible. updates.
  rewrite ?flat_map_app, ?filter_playing_snoc. cbn [flat_map app playing].
  rewrite ?app_nil_r. split; reflexivity.
Qed.

(** X21.  A request that [playTTS] issues is never refused for its text:
    the route does not answer 400, and when the credentials are configured
    the synthesis service is called with the very text of the request and
    the voice of the Agent's mode, so that the route's default voice is
    never used for the Agent. *)
Theorem agent_request_reaches_polly key secret send props text s :
  synthesis_requests (playTTS props text s) = synthesis_requests s ++ [text] ->
  tts_status (snd (tts_POST key secret send (request_of props text))) <> 400
  /\
  (string_truthy key = true ->
   string_truthy secret = true ->
   fst (tts_POST key secret send (request_of props text))
   = [{| Engine := "neural"; OutputFormat := "mp3"; Text := text;
         VoiceId := Agent.voiceId props |}]).
Proof.
  intros Hissued. rewrite synthesis_requests_playTTS in Hissued.
  assert (Hb : blank text = false).
  { destruct (blank text); [| reflexivity].
    apply app_inv_head in Hissued. discriminate Hissued. }
  clear Hissued. split.
  - intros H400.
    apply refused_text in H400. destruct H400 as (b & Hreq & Hinv).
    unfold request_of in Hreq. injection Hreq as <-.
    cbn [req_text] in Hinv. rewrite invalid_text_blank in Hinv. congruence.
  - intros Hkey Hsecret. unfold request_of.
    rewrite (@post_valid key secret send
               {| req_text := Some text;
                  req_voiceId := Some (Agent.voiceId props) |}
               text Hkey Hsecret eq_refl Hb).
    cbv zeta. cbn [fst req_voiceId]. now rewrite voice_never_defaults.
Qed.

Lemma agent_request_reaches_polly_witness :
  synthesis_requests (playTTS interview_props understood initial)
  = synthesis_requests initial ++ [understood] /\
  tts_status
    (snd (tts_POST (Some "id") (Some "secret") singing_polly
            (request_of interview_props understood))) <> 400 /\
  (string_truthy (Some "id") = true ->
   string_truthy (Some "secret") = true ->
   fst (tts_POST (Some "id") (Some "secret") singing_polly
          (request_of interview_props understood))
   = [{| Engine := "neural"; OutputFormat := "mp3"; Text := understood;
         VoiceId := Agent.voiceId interview_props |}]).
Proof.
  assert (H : synthesis_requests (playTTS interview_props understood initial)
              = synthesis_requests initial ++ [understood])
    by (vm_compute; reflexivity).
  split; [exact H |].
  exact (@agent_request_reaches_polly (Some "id") (Some "secret")
           singing_polly interview_props understood initial H).
Defined.

(** X22.  The round trip of a synthesis.  For a request of the Agent that
    is in flight, with the credentials configured, what the user gets
    depends on the synthesis service and on [play()].  When the service
    returns audio and [play()] resolves, the clip of the requested text
    becomes audible and no alert is raised; when the service returns
    audio and [play()] rejects, no clip becomes audible and the alert of
    a synthesis exception is raised.  When the service throws, or returns
    no audio stream, no clip becomes audible and one alert reports status
    500 with the body of the error response, whose details default to
    Unknown error and whose code defaults to UNKNOWN. *)
Theorem synthesis_round_trip
    key secret send body_text play_resolves props k text s :
  string_truthy key = true ->
  string_truthy secret = true ->
  nth_error (tts_inflight (world s)) k = Some text ->
  blank text = false ->
  match send {| Engine := "neural"; OutputFormat := "mp3"; Text := text;
                VoiceId := Agent.voiceId props |} with
  | PollyResponse (Some _) =>
      audible
        (step props
           (TtsSettled k
              (tts_settled body_text play_resolves
                 (snd (tts_POST key secret send (request_of props text)))))
           s)
      = audible s ++ (if play_resolves then [text] else [])
      /\
      alerts
        (step props
           (TtsSettled k
              (tts_settled body_text play_resolves
                 (snd (tts_POST key secret send (request_of props text)))))
           s)
      = alerts s ++ (if play_resolves then [] else [TtsException])
  | PollyResponse None =>
      audible
        (step props
           (TtsSettled k
              (tts_settled body_text play_resolves
                 (snd (tts_POST key secret send (request_of props text)))))
           s)
      = audible s
      /\
      alerts
        (step props
           (TtsSettled k
              (tts_settled body_text play_resolves
                 (snd (tts_POST key secret send (request_of props text)))))
           s)
      = alerts s
          ++ [TtsError 500
                (body_text
                   (PollyErrorBody "Failed to generate audio with AWS Polly"
                      "No audio stream returned from AWS Polly" "UNKNOWN"))]
  | PollyThrows message code =>
      audible
        (step props
           (TtsSettled k
              (tts_settled body_text play_resolves
                 (snd (tts_POST key secret send (request_of props text)))))
           s)
      = audible s
      /\
      alerts
        (step props
           (TtsSettled k
              (tts_settled body_text play_resolves
                 (snd (tts_POST key secret send (request_of props text)))))
           s)
      = alerts s
          ++ [TtsError 500
                (body_text
                   (PollyErrorBody "Failed to generate audio with AWS Polly"
                      (or_default message "Unknown error")
                      (or_default code "UNKNOWN")))]
  end.
Proof.
  intros Hkey Hsecret Hk Hb. unfold request_of.
  rewrite (@post_valid key secret send
             {| req_text := Some text;
                req_voiceId := Some (Agent.voiceId props) |}
             text Hkey Hsecret eq_refl Hb).
  cbv zeta. cbn [snd req_voiceId]. rewrite voice_never_defaults.
  destruct (send _) as [message code | [bytes |]].
  - exact (settled_not_ok props k _ _ s Hk).
  - unfold tts_settled, ok. cbn [tts_status Nat.leb andb].
    destruct play_resolves.
    + rewrite app_nil_r. exact (settled_ok props k s Hk).
    + rewrite app_nil_r. exact (settled_play_rejected props k s Hk).
  - exact (settled_not_ok props k _ _ s Hk).
Qed.

Lemma synthesis_round_trip_witness :
  string_truthy (Some "id") = true /\
  string_truthy (Some "secret") = true /\
  nth_error (tts_inflight (world (speaking_call interview_props))) 0
    = Some understood /\
  blank understood = false /\
  audible
    (step interview_props
       (TtsSettled 0
          (tts_settled no_text false
             (snd (tts_POST (Some "id") (Some "secret") singing_polly
                     (request_of interview_props understood)))))
       (speaking_call interview_props))
  = audible (speaking_call interview_props) ++ [] /\
  alerts
    (step interview_props
       (TtsSettled 0
          (tts_settled no_text false
             (snd (tts_POST (Some "id") (Some "secret") singing_polly
                     (request_of interview_props understood)))))
       (speaking_call interview_props))
  = alerts (speaking_call interview_props) ++ [TtsException].
Proof.
  assert (H : nth_error
                (tts_inflight (world (speaking_call interview_props))) 0
              = Some understood) by (vm_compute; reflexivity).
  split; [reflexivity |]. split; [reflexivity |]. split; [exact H |].
  split; [reflexivity |].
  exact (@synthesis_round_trip (Some "id") (Some "secret") singing_polly
           no_text false interview_props 0 understood
           (speaking_call interview_props) eq_refl eq_refl H eq_refl).
Defined.

(** The same request when the service is throttled. *)
Example throttled_synthesis_alerts :
  alerts
    (step interview_props
       (TtsSettled 0
          (tts_settled no_text true
             (snd (tts_POST (Some "id") (Some "secret") throttled_polly
                     (request_of interview_props understood)))))
       (speaking_call interview_props))
  = alerts (speaking_call interview_props) ++ [TtsError 500 (no_text
      (PollyErrorBody "Failed to generate audio with AWS Polly"
         "Rate exceeded" "ThrottlingException"))].
Proof. vm_compute. reflexivity. Qed.

End RoutesExtra.

(* ================================================================== *)
(** * The server actions, their callers                                *)
(* ================================================================== *)

Module ActionsExtra.
Import ChatRoute ChatRouteMore Actions.
Local Open Scope string_scope.
Local Open Scope list_scope.

(** ** [split(",")] *)

Lemma string_split_comma_cons s :
  exists seg segs, string_split_comma s = seg :: segs.
Proof.
  destruct s as [| c s]; cbn [string_split_comma]; [now eexists; eexists |].
  destruct (Ascii.eqb c ","); [now eexists; eexists |].
  destruct (string_split_comma s); now eexists; eexists.
Qed.

Lemma concat_cons sep seg seg' segs :
  String.concat sep (seg :: seg' :: segs)
  = (seg ++ sep ++ String.concat sep (seg' :: segs))%string.
Proof. reflexivity. Qed.

Lemma concat_push c seg segs :
  String.concat "," (String c seg :: segs)
  = String c (String.concat "," (seg :: segs)).
Proof. destruct segs; reflexivity. Qed.

Lemma split_join s : String.concat "," (string_split_comma s) = s.
Proof.
  induction s as [| c s IH]; [reflexivity |].
  cbn [string_split_comma].
  destruct (Ascii.eqb c ",") eqn:Hc.
  - apply Ascii.eqb_eq in Hc. subst c.
    destruct (string_split_comma_cons s) as (seg & segs & Hs).
    rewrite Hs in *. rewrite concat_cons, IH. reflexivity.
  - destruct (string_split_comma_cons s) as (seg & segs & Hs).
    rewrite Hs in *. now rewrite concat_push, IH.
Qed.

Lemma split_segments s :
  Forall (fun seg => ~ In ","%char (list_ascii_of_string seg))
         (string_split_comma s).
Proof.
  induction s as [| c s IH]; cbn [string_split_comma].
  - constructor; [intros [] | constructor].
  - destruct (Ascii.eqb c ",") eqn:Hc.
    + constructor; [intros [] | exact IH].
    + destruct (string_split_comma_cons s) as (seg & segs & Hs).
      rewrite Hs in *. inversion IH as [| ? ? Hseg Hsegs]; subst.
      constructor; [| exact Hsegs].
      cbn [list_ascii_of_string In]. intros [-> | H]; [| exact (Hseg H)].
      now rewrite Ascii.eqb_refl in Hc.
Qed.

Section GenerateInterview.

Variable prompt : GenerateParams -> string.
Variable complete : string -> option (option string).
Variable parse_questions : string -> option (option (list string)).
Variable getRandomInterviewCover : string.
Variable now : string.
Variable add : Interview -> option string.

Local Abbreviation generate :=
  (Actions.generateInterview prompt complete parse_questions
     getRandomInterviewCover now add).

(** What [generateInterview] stores for a tech stack and questions. *)
Local Abbreviation stored params techstack questions :=
  {| i_role := g_role params; i_type := g_type params;
     i_level := g_level params;
     i_techstack := string_split_comma techstack;
     i_questions := questions; i_userId := g_userid params;
     i_finalized := true; i_coverImage := getRandomInterviewCover;
     i_createdAt := now |}.

Lemma generate_success params :
  gi_success (snd (generate params)) = true ->
  exists content techstack questions docId,
    complete (prompt params) = Some content /\
    parse_questions (interview_text content) = Some (Some questions) /\
    g_techstack params = Some techstack /\
    add (stored params techstack questions) = Some docId /\
    generate params
    = ([InterviewCompletion (prompt params);
        AddInterview (stored params techstack questions)],
       {| gi_success := true; gi_id := Some docId |}).
Proof.
  unfold Actions.generateInterview.
  destruct (complete (prompt params)) as [content |]; [| discriminate].
  destruct (parse_questions (interview_text content))
    as [[questions |] |] eqn:Hparse; try discriminate.
  destruct (g_techstack params) as [techstack |]; [| discriminate].
  destruct (add _) as [docId |] eqn:Hadd; [| discriminate].
  intros _. exists content, techstack, questions, docId.
  repeat split; assumption.
Qed.

Lemma generate_without_techstack params :
  g_techstack params = None ->
  generate params = ([InterviewCompletion (prompt params)], interview_failure).
Proof.
  intros Ht. unfold Actions.generateInterview. rewrite Ht.
  destruct (complete (prompt params)) as [content |]; [| reflexivity].
  destruct (parse_questions (interview_text content)) as [[questions |] |];
    reflexivity.
Qed.

(** X23.  When [generateInterview] succeeds, the model was asked once and
    one interview was added, and the id returned is the one of the added
    document.  The interview is finalized, belongs to the [userid] of the
    parameters, holds the questions the model's answer parsed to, and
    holds the tech stack cut at its commas and nowhere else: no item
    contains a comma, the items are not trimmed, and joined by commas they
    give the tech stack back. *)
Theorem interview_stored_on_success params :
  gi_success (snd (generate params)) = true ->
  exists content techstack questions docId i,
    complete (prompt params) = Some content /\
    parse_questions (interview_text content) = Some (Some questions) /\
    g_techstack params = Some techstack /\
    generate params
    = ([InterviewCompletion (prompt params); AddInterview i],
       {| gi_success := true; gi_id := Some docId |}) /\
    add i = Some docId /\
    i_finalized i = true /\
    i_userId i = g_userid params /\
    i_questions i = questions /\
    String.concat "," (i_techstack i) = techstack /\
    Forall (fun seg => ~ In ","%char (list_ascii_of_string seg))
           (i_techstack i).
Proof.
  intros H.
  destruct (generate_success _ H)
    as (content & techstack & questions & docId & Hc & Hp & Ht & Ha & Hg).
  exists content, techstack, questions, docId,
    (stored params techstack questions).
  repeat split; try assumption; try reflexivity.
  - apply split_join.
  - apply split_segments.
Qed.

End GenerateInterview.

Lemma interview_stored_on_success_witness :
  gi_success
    (snd (Actions.generateInterview toy_request toy_interview_model
            toy_parse "/covers/adobe.png" "2025-01-01T00:00:00.000Z"
            toy_add stack_params)) = true /\
  exists content techstack questions docId i,
    toy_interview_model (toy_request stack_params) = Some content /\
    toy_parse (interview_text content) = Some (Some questions) /\
    g_techstack stack_params = Some techstack /\
    Actions.generateInterview toy_request toy_interview_model toy_parse
      "/covers/adobe.png" "2025-01-01T00:00:00.000Z" toy_add stack_params
    = ([InterviewCompletion (toy_request stack_params); AddInterview i],
       {| gi_success := true; gi_id := Some docId |}) /\
    toy_add i = Some docId /\
    i_finalized i = true /\
    i_userId i = g_userid stack_params /\
    i_questions i = questions /\
    String.concat "," (i_techstack i) = techstack /\
    Forall (fun seg => ~ In ","%char (list_ascii_of_string seg))
           (i_techstack i).
Proof.
  split; [reflexivity |].
  exact (@interview_stored_on_success toy_request toy_interview_model
           toy_parse "/covers/adobe.png" "2025-01-01T00:00:00.000Z" toy_add
           stack_params eq_refl).
Defined.

(** ** The chat route as the caller of [generateInterview] *)

Section ToolExecution.

Variable model_plain : list ApiMessage -> option string.
Variable model_with_tools :
  list ChatCompletionTool -> list ApiMessage -> ModelOutput.
Variable JSON_parse : string -> option JSValue.
Variable appendToolCallMessage : ToolCallResult -> list ApiMessage.

Variable request : GenerateParams -> string.
Variable complete : string -> option (option string).
Variable parse_questions : string -> option (option (list string)).
Variable getRandomInterviewCover : string.
Variable createdAt : string.
Variable add : Interview -> option string.

Local Abbreviation generate :=
  (Actions.generateInterview request complete parse_questions
     getRandomInterviewCover createdAt add).
Local Abbreviation onToolCall :=
  (experimental_onToolCall model_plain model_with_tools JSON_parse
     (generated request complete parse_questions getRandomInterviewCover
        createdAt add)
     appendToolCallMessage).

Lemma stored_iff_success params :
  gi_success (snd (generate params)) = true <->
  exists i docId,
    In (AddInterview i) (fst (generate params)) /\ add i = Some docId.
Proof.
  split.
  - intros H.
    apply generate_success in H
      as (content & techstack & questions & docId & _ & _ & _ & Ha & Hg).
    eexists. exists docId. rewrite Hg. split; [| exact Ha].
    cbn [fst]. right. now left.
  - unfold Actions.generateInterview.
    destruct (complete (request params)) as [content |];
      [| intros (i & docId & [H | []] & _); discriminate H].
    destruct (parse_questions (interview_text content)) as [[questions |] |];
      try (intros (i & docId & [H | []] & _); discriminate H).
    destruct (g_techstack params) as [techstack |];
      [| intros (i & docId & [H | []] & _); discriminate H].
    destruct (add _) as [docId |] eqn:Hadd; [reflexivity |].
    intros (i & docId & [H | [H | []]] & Ha); [discriminate H |].
    injection H as <-. congruence.
Qed.

(** X24.  What the user is told about the generation is what happened to
    the store.  When the first tool call of a payload carries an arguments
    object, the tool message says that the interview was generated exactly
    when [generateInterview] added an interview, and that interview belongs
    to the user of the request; it reports an error in every other case,
    among them arguments without a tech stack, for which the model is
    asked for questions that are then thrown away. *)
Theorem tool_outcome_reflects_storage
    prompt messages userId toolCalls toolCall fn o log :
  first_generate_entry toolCalls = Some toolCall ->
  fn_of toolCall = Some fn ->
  name fn = "generate_interview" ->
  parsed_arguments JSON_parse fn = Some (VObject o) ->
  exists r,
    fst (onToolCall prompt messages userId {| ptools := Some toolCalls |} log)
    = log ++ [ Generate (params_of userId o); AppendToolCall r;
               Completion
                 (followup_request appendToolCallMessage prompt messages r) ]
    /\
    r_tool_call_id r = pid toolCall /\
    (r_tool_call_result r = "Interview generated successfully." <->
     exists i docId,
       In (AddInterview i) (fst (generate (params_of userId o))) /\
       add i = Some docId /\ i_userId i = userId) /\
    (r_tool_call_result r = "Interview generated successfully." \/
     r_tool_call_result r = "Error generating interview.") /\
    (field o "techstack" = None ->
     r_tool_call_result r = "Error generating interview." /\
     fst (generate (params_of userId o))
     = [InterviewCompletion (request (params_of userId o))]).
Proof.
  intros Hfirst Hfn Hname Hparsed.
  exists (appended_for toolCall
            (gi_success (snd (generate (params_of userId o))))).
  split; [| split; [reflexivity |]].
  - unfold experimental_onToolCall. cbn [ptools].
    rewrite ChatRouteExtra.loop_first, Hfirst.
    erewrite ChatRouteExtra.loop_single; [| exact Hfn | exact Hname].
    rewrite Hparsed. reflexivity.
  - cbn [appended_for r_tool_call_result]. unfold outcome_text.
    split; [| split].
    + split.
      * intros H.
        assert (Hs : gi_success (snd (generate (params_of userId o))) = true)
          by (destruct (gi_success _); [reflexivity | discriminate H]).
        apply generate_success in Hs
          as (content & techstack & questions & docId
              & _ & _ & _ & Ha & Hg).
        eexists. exists docId. rewrite Hg. cbn [fst].
        split; [right; now left |]. split; [exact Ha | reflexivity].
      * intros (i & docId & Hin & Ha & _).
        assert (Hs : gi_success (snd (generate (params_of userId o))) = true)
          by (apply stored_iff_success; now exists i, docId).
        now rewrite Hs.
    + destruct (gi_success _); [now left | now right].
    + intros Ht.
      erewrite generate_without_techstack by exact Ht.
      split; reflexivity.
Qed.

End ToolExecution.

Lemma tool_outcome_reflects_storage_witness :
  first_generate_entry crowded_payload = Some crowded_entry /\
  fn_of crowded_entry = Some crowded_fn /\
  name crowded_fn = "generate_interview" /\
  parsed_arguments toy_JSON_parse crowded_fn = Some (VObject interview_args) /\
  exists r,
    fst (experimental_onToolCall plain_model (eager_model (ArgObject []))
           toy_JSON_parse
           (generated toy_request toy_interview_model toy_parse
              "/covers/adobe.png" "2025-01-01T00:00:00.000Z" toy_add)
           sdk_appendToolCallMessage "prompt" [user_msg "Hello"] "u1"
           {| ptools := Some crowded_payload |} [])
    = [] ++ [ Generate (params_of "u1" interview_args); AppendToolCall r;
              Completion
                (followup_request sdk_appendToolCallMessage "prompt"
                   [user_msg "Hello"] r) ]
    /\
    r_tool_call_id r = pid crowded_entry /\
    (r_tool_call_result r = "Interview generated successfully." <->
     exists i docId,
       In (AddInterview i)
          (fst (Actions.generateInterview toy_request toy_interview_model
                  toy_parse "/covers/adobe.png" "2025-01-01T00:00:00.000Z"
                  toy_add (params_of "u1" interview_args))) /\
       toy_add i = Some docId /\ i_userId i = "u1") /\
    (r_tool_call_result r = "Interview generated successfully." \/
     r_tool_call_result r = "Error generating interview.") /\
    (field interview_args "techstack" = None ->
     r_tool_call_result r = "Error generating interview." /\
     fst (Actions.generateInterview toy_request toy_interview_model
            toy_parse "/covers/adobe.png" "2025-01-01T00:00:00.000Z"
            toy_add (params_of "u1" interview_args))
     = [InterviewCompletion (toy_request (params_of "u1" interview_args))]).
Proof.
  split; [reflexivity |]. split; [reflexivity |]. split; [reflexivity |].
  split; [reflexivity |].
  exact (@tool_outcome_reflects_storage plain_model
           (eager_model (ArgObject [])) toy_JSON_parse
           sdk_appendToolCallMessage
           toy_request toy_interview_model toy_parse "/covers/adobe.png"
           "2025-01-01T00:00:00.000Z" toy_add "prompt" [user_msg "Hello"]
           "u1" crowded_payload crowded_entry crowded_fn interview_args []
           eq_refl eq_refl eq_refl eq_refl).
Defined.

Example techstack_items_untrimmed :
  string_split_comma "React,Node.js, Go" = ["React"; "Node.js"; " Go"] /\
  string_split_comma "" = [""] /\
  string_split_comma "a,,b," = ["a"; ""; "b"; ""].
Proof. repeat split; reflexivity. Qed.

End ActionsExtra.

Module FeedbackExtra.
Import JS Agent AgentFacts FeedbackAction.
Local Open Scope list_scope.

Section CreateFeedback.

Variable Scores : Type.
Variable prompt : jsstring -> jsstring.
Variable complete : jsstring -> option (option jsstring).
Variable parse_scores : jsstring -> option Scores.
Variable createdAt : jsstring.
Variable fresh_id : jsstring.
Variable set : jsstring -> Feedback Scores -> bool.

Local Abbreviation create :=
  (createFeedback prompt complete parse_scores createdAt fresh_id set).
Local Abbreviation request_of params :=
  (prompt (formattedTranscript (p_transcript params))).

Lemma create_success params :
  fb_success (snd (create params)) = true ->
  exists content scores,
    complete (request_of params) = Some content /\
    parse_scores (feedback_text content) = Some scores /\
    set (feedbackRef fresh_id (p_feedbackId params))
        {| f_interviewId := p_interviewId params;
           f_userId := p_userId params;
           f_scores := scores; f_createdAt := createdAt |} = true /\
    create params
    = ([FeedbackCompletion Scores (request_of params);
        SetFeedback (feedbackRef fresh_id (p_feedbackId params))
          {| f_interviewId := p_interviewId params;
             f_userId := p_userId params;
             f_scores := scores; f_createdAt := createdAt |}],
       {| fb_success := true;
          fb_id := Some (feedbackRef fresh_id (p_feedbackId params)) |}).
Proof.
  unfold createFeedback.
  destruct (complete (request_of params)) as [content |]; [| discriminate].
  destruct (parse_scores (feedback_text content)) as [scores |] eqn:Hparse;
    [| discriminate].
  destruct (set _ _) eqn:Hset; [| discriminate].
  intros _. exists content, scores. repeat split; assumption.
Qed.

Lemma create_failure params :
  fb_success (snd (create params)) = false ->
  fb_id (snd (create params)) = None.
Proof.
  unfold createFeedback.
  destruct (complete (request_of params)) as [content |]; [| reflexivity].
  destruct (parse_scores (feedback_text content)) as [scores |];
    [| reflexivity].
  destruct (set _ _); [discriminate | reflexivity].
Qed.

(** X25.  When [createFeedback] succeeds, the model was asked once, about
    the transcript written one line for each message, and one feedback
    document was set.  The document carries the interview and the user of
    the parameters and the scores the answer parsed to.  It is set under
    the given [feedbackId] when that is a non-empty string, so that a
    retake overwrites the earlier feedback, and under a fresh id
    otherwise; the id returned is the one the document was set under. *)
Theorem feedback_saved_under_given_id params :
  fb_success (snd (create params)) = true ->
  exists content scores ref feedback,
    complete (request_of params) = Some content /\
    parse_scores (feedback_text content) = Some scores /\
    create params
    = ([FeedbackCompletion Scores (request_of params);
        SetFeedback ref feedback],
       {| fb_success := true; fb_id := Some ref |}) /\
    set ref feedback = true /\
    f_interviewId feedback = p_interviewId params /\
    f_userId feedback = p_userId params /\
    f_scores feedback = scores /\
    (forall given,
       p_feedbackId params = Some given -> truthy given = true ->
       ref = given) /\
    (option_truthy (p_feedbackId params) = false -> ref = fresh_id).
Proof.
  intros H.
  apply create_success in H as (content & scores & Hc & Hp & Hs & Hcreate).
  exists content, scores. eexists. eexists.
  split; [exact Hc |]. split; [exact Hp |]. split; [exact Hcreate |].
  split; [exact Hs |]. repeat split.
  - intros given -> Hgiven. cbn [feedbackRef]. now rewrite Hgiven.
  - unfold feedbackRef, option_truthy.
    destruct (p_feedbackId params) as [given |]; [| reflexivity].
    now intros ->.
Qed.

(** ** The Agent as the caller of [createFeedback] *)

Lemma feedback_settled_chat props success id s :
  step props (FeedbackSettled success id) s
  = handleGenerateFeedback_resume props success id s.
Proof.
  assert (Hm : messages (hooks (handle props (FeedbackSettled success id) s))
               = messages (hooks s) /\
               isLoading (hooks (handle props (FeedbackSettled success id) s))
               = isLoading (hooks s)).
  { cbn [handle]. unfold handleGenerateFeedback_resume.
    destruct (feedback_inflight (world s)); [now split |].
    destruct (success && option_truthy id); split; reflexivity. }
  now rewrite (step_same_chat _ _ _ (proj1 Hm) (proj2 Hm)).
Qed.

Lemma pushes_resume props success id n s :
  feedback_inflight (world s) = S n ->
  pushes (handleGenerateFeedback_resume props success id s)
  = pushes s
      ++ [if success && option_truthy id
          then InterviewFeedback (interviewId props) else Home].
Proof.
  intros Hn. unfold handleGenerateFeedback_resume. rewrite Hn.
  destruct (success && option_truthy id); cbv zeta; unfold pushes; updates;
    rewrite flat_map_app; reflexivity.
Qed.

(** X26.  Where the Agent goes after a hand-off.  With ids of fresh
    documents that are non-empty, the Agent goes to the feedback page of
    its interview exactly when [createFeedback] saved the feedback of the
    conversation it handed off, and to the home page in every other case:
    when the model or the parsing of its answer failed, or the document
    could not be set. *)
Theorem feedback_navigation props r n s :
  feedback_inflight (world s) = S n ->
  truthy fresh_id = true ->
  pushes (step props
            (feedback_settled (snd (create (feedback_params props r)))) s)
  = pushes s
      ++ [if fb_success (snd (create (feedback_params props r)))
          then InterviewFeedback (interviewId props) else Home].
Proof.
  intros Hn Hfresh. unfold feedback_settled.
  rewrite feedback_settled_chat. erewrite pushes_resume by exact Hn.
  destruct (fb_success (snd (create (feedback_params props r)))) eqn:Hs.
  - apply create_success in Hs as (content & scores & _ & _ & _ & Hcreate).
    rewrite Hcreate. cbn [snd fb_id option_truthy andb].
    replace (truthy (feedbackRef fresh_id
                       (p_feedbackId (feedback_params props r)))) with true;
      [reflexivity |].
    unfold feedbackRef.
    destruct (p_feedbackId (feedback_params props r)) as [given |];
      [| now rewrite Hfresh].
    destruct (truthy given) eqn:Hgiven; [now rewrite Hgiven | now rewrite Hfresh].
  - reflexivity.
Qed.

End CreateFeedback.

Lemma feedback_saved_under_given_id_witness :
  fb_success
    (snd (createFeedback (fun t => t) toy_feedback_model toy_scores
            (lit "2025-01-01T00:00:00.000Z") (lit "fresh") toy_set
            retake_params)) = true /\
  exists content scores ref feedback,
    toy_feedback_model (formattedTranscript (p_transcript retake_params))
    = Some content /\
    toy_scores (feedback_text content) = Some scores /\
    createFeedback (fun t => t) toy_feedback_model toy_scores
      (lit "2025-01-01T00:00:00.000Z") (lit "fresh") toy_set retake_params
    = ([FeedbackCompletion nat
          (formattedTranscript (p_transcript retake_params));
        SetFeedback ref feedback],
       {| fb_success := true; fb_id := Some ref |}) /\
    toy_set ref feedback = true /\
    f_interviewId feedback = p_interviewId retake_params /\
    f_userId feedback = p_userId retake_params /\
    f_scores feedback = scores /\
    (forall given,
       p_feedbackId retake_params = Some given -> truthy given = true ->
       ref = given) /\
    (option_truthy (p_feedbackId retake_params) = false -> ref = lit "fresh").
Proof.
  split; [reflexivity |].
  exact (@feedback_saved_under_given_id nat (fun t => t) toy_feedback_model
           toy_scores (lit "2025-01-01T00:00:00.000Z") (lit "fresh") toy_set
           retake_params eq_refl).
Defined.

Lemma feedback_navigation_witness :
  feedback_inflight (world handing_off) = 1 /\
  truthy (lit "fresh") = true /\
  pushes (step interview_props
            (feedback_settled
               (snd (createFeedback (fun t => t) toy_feedback_model
                       toy_scores (lit "2025-01-01T00:00:00.000Z")
                       (lit "fresh") toy_set
                       (feedback_params interview_props end_render))))
            handing_off)
  = pushes handing_off
      ++ [if fb_success
               (snd (createFeedback (fun t => t) toy_feedback_model
                       toy_scores (lit "2025-01-01T00:00:00.000Z")
                       (lit "fresh") toy_set
                       (feedback_params interview_props end_render)))
          then InterviewFeedback (interviewId interview_props) else Home].
Proof.
  assert (H : feedback_inflight (world handing_off) = 1)
    by (vm_compute; reflexivity).
  split; [exact H |]. split; [reflexivity |].
  exact (@feedback_navigation nat (fun t => t) toy_feedback_model toy_scores
           (lit "2025-01-01T00:00:00.000Z") (lit "fresh") toy_set
           interview_props end_render 0 handing_off H eq_refl).
Defined.

Example transcript_lines :
  formattedTranscript
    [user_message (lit "Hello"); assistant_message (lit "Hi")]
  = lit "- user: Hello" ++ [10%N] ++ lit "- assistant: Hi" ++ [10%N] /\
  formattedTranscript [] = [].
Proof. split; vm_compute; reflexivity. Qed.

End FeedbackExtra.
